(** * NutriTrack: AI response pipeline and nutrition ledger

    A shallow embedding of [src/services/geminiService.ts] and
    [src/hooks/useStorage.ts], with the properties of the response
    normalizer, the response parser, the inference retry loop and the daily
    ledger stated and proved over it.

    Layout: [JS] models the part of the JavaScript runtime the two source
    files rely on (numbers, strings, dynamically typed values, exceptions)
    and [Json] decodes JSON text; [Nutrition] has the types of
    [src/types/nutrition.ts]; [Gemini] embeds the service and [Storage] the
    ledger hook; [Props] has the vocabulary of the properties. [App] embeds
    the callers of the two in the application component ([README.md]) and
    [Terms] has the vocabulary of the properties that reach across
    components, with descriptions of the string operations that do not
    go through the functions of [JS]. The proofs follow, one module per
    component, and [Scenarios] runs the embedding on concrete inputs.
    Console logging is left out throughout. *)

From Stdlib Require Import ZArith QArith Qround Qreduction.
From Stdlib Require Import String Ascii List Bool Arith Lia.
From Stdlib Require Import Numbers.DecimalString.
Import ListNotations.

Local Open Scope bool_scope.
Local Open Scope nat_scope.

(* ===================================================================== *)
(** * The JavaScript runtime, as far as the sources use it *)
(* ===================================================================== *)

Module JS.

(** ** Numbers

    A JavaScript number is a binary64 value. Finite values are modelled by
    exact rationals, next to the two infinities and NaN. What is not
    modelled: the rounding of binary64 arithmetic, overflow of a finite
    result to an infinity, and the sign of zero (a division, the one
    place where the sign of a zero shows, takes it as a parameter). The
    properties of the ledger and of the screen that involve a sum or a
    quotient are therefore stated so that they hold of the binary64
    result as well: by the sign or the order of the result, which
    rounding and overflow keep, or as the same fold on both sides of an
    equation; no conclusion asks a sum to be finite. *)

Inductive number : Type :=
  | Fin (q : Q)
  | PosInf
  | NegInf
  | NaN.

Definition zero : number := Fin 0%Q.

(** [Number.isFinite] *)
Definition Number_isFinite (n : number) : bool :=
  match n with Fin _ => true | _ => false end.

(** [Math.round]: the nearest integer, ties towards +Infinity. *)
Definition Math_round (n : number) : number :=
  match n with
  | Fin q => Fin (inject_Z (Qfloor (q + (1 # 2))%Q))
  | other => other
  end.

(** [Math.max] of two arguments. *)
Definition Math_max (a b : number) : number :=
  match a, b with
  | NaN, _ | _, NaN => NaN
  | PosInf, _ | _, PosInf => PosInf
  | NegInf, x => x
  | x, NegInf => x
  | Fin p, Fin q => if Qle_bool p q then Fin q else Fin p
  end.

(** The numeric [+]. *)
Definition add (a b : number) : number :=
  match a, b with
  | NaN, _ | _, NaN => NaN
  | PosInf, NegInf | NegInf, PosInf => NaN
  | PosInf, _ | _, PosInf => PosInf
  | NegInf, _ | _, NegInf => NegInf
  | Fin p, Fin q => Fin (Qred (p + q))
  end.

(** ToBoolean on a number: false for zero and NaN. *)
Definition number_truthy (n : number) : bool :=
  match n with
  | Fin q => negb (Qeq_bool q 0)
  | NaN => false
  | _ => true
  end.

(** [n || 0] on a number. *)
Definition or_zero (n : number) : number :=
  if number_truthy n then n else zero.

(** Numeric equality of two numbers ([==] of the rationals on finite
    values; NaN is equal to nothing, itself included). *)
Definition num_eq (a b : number) : Prop :=
  match a, b with
  | Fin p, Fin q => (p == q)%Q
  | PosInf, PosInf | NegInf, NegInf => True
  | _, _ => False
  end.

(** [0 <= n] *)
Definition nonneg (n : number) : Prop :=
  match n with
  | Fin q => (0 <= q)%Q
  | PosInf => True
  | _ => False
  end.

(** A number whose value is an integer. *)
Definition is_integer (n : number) : Prop :=
  match n with
  | Fin q => (inject_Z (Qfloor q) == q)%Q
  | _ => False
  end.

(** ** Strings

    A string is a sequence of code units; the model has the code units
    0..255, each an [ascii]. *)

Local Open Scope string_scope.

(** White space and line terminators below code unit 256. *)
Definition is_space (c : ascii) : bool :=
  let n := nat_of_ascii c in
  Nat.eqb n 9 || Nat.eqb n 10 || Nat.eqb n 11 || Nat.eqb n 12
  || Nat.eqb n 13 || Nat.eqb n 32 || Nat.eqb n 160.

Fixpoint trimStart (s : string) : string :=
  match s with
  | String c s' => if is_space c then trimStart s' else s
  | EmptyString => EmptyString
  end.

Fixpoint trimEnd (s : string) : string :=
  match s with
  | String c s' =>
      let t := trimEnd s' in
      if is_space c && (t =? EmptyString)%string then EmptyString else String c t
  | EmptyString => EmptyString
  end.

(** [s.trim()] *)
Definition trim (s : string) : string := trimEnd (trimStart s).

(** [s.startsWith(p)] *)
Definition startsWith (s p : string) : bool := prefix p s.

(** [s.includes(p)] *)
Fixpoint includes (s p : string) : bool :=
  prefix p s ||
  match s with
  | String _ s' => includes s' p
  | EmptyString => false
  end.

(** [s.indexOf(c)] for a one-character pattern; [None] stands for -1. *)
Fixpoint indexOf (s : string) (c : ascii) : option nat :=
  match s with
  | String d s' =>
      if Ascii.eqb d c then Some 0
      else match indexOf s' c with
           | Some i => Some (S i)
           | None => None
           end
  | EmptyString => None
  end.

(** [s.lastIndexOf(c)] for a one-character pattern. *)
Fixpoint lastIndexOf (s : string) (c : ascii) : option nat :=
  match s with
  | String d s' =>
      match lastIndexOf s' c with
      | Some i => Some (S i)
      | None => if Ascii.eqb d c then Some 0 else None
      end
  | EmptyString => None
  end.

(** [s.substring(from, to)] with [from <= to]. *)
Definition substring (s : string) (from to : nat) : string :=
  String.substring from (to - from) s.

Definition to_upper (c : ascii) : ascii :=
  let n := nat_of_ascii c in
  if Nat.leb 97 n && Nat.leb n 122 then ascii_of_nat (n - 32) else c.

(** Does [p] match at the start of [s]? With [ci] the comparison ignores
    the case of ASCII letters, as the [i] flag of a regular expression
    does for a pattern of ASCII characters. *)
Fixpoint matches_at (ci : bool) (p s : string) : bool :=
  match p, s with
  | EmptyString, _ => true
  | String a p', String b s' =>
      (if ci then Ascii.eqb (to_upper a) (to_upper b) else Ascii.eqb a b)
      && matches_at ci p' s'
  | String _ _, EmptyString => false
  end.

Fixpoint remove_all_from (ci : bool) (p : string) (skip : nat) (s : string)
  : string :=
  match s with
  | EmptyString => EmptyString
  | String c s' =>
      match skip with
      | S k => remove_all_from ci p k s'
      | O =>
          if matches_at ci p s
          then remove_all_from ci p (String.length p - 1) s'
          else String c (remove_all_from ci p 0 s')
      end
  end.

(** [s.replace(/p/g, '')] (and [/p/gi] with [ci]) for a literal, non-empty
    pattern [p]: every match, scanning from the left, is deleted. *)
Definition remove_all (ci : bool) (p s : string) : string :=
  remove_all_from ci p 0 s.

(** [s.replace(/[^0-9.-]/g, '')] *)
Definition is_numeric_char (c : ascii) : bool :=
  let n := nat_of_ascii c in
  (Nat.leb 48 n && Nat.leb n 57) || Nat.eqb n 46 || Nat.eqb n 45.

Fixpoint keep_numeric_chars (s : string) : string :=
  match s with
  | String c s' =>
      if is_numeric_char c then String c (keep_numeric_chars s')
      else keep_numeric_chars s'
  | EmptyString => EmptyString
  end.

(** Decimal rendering of a natural number, as a template literal renders
    a non-negative integer. *)
Definition nat_to_string (n : nat) : string :=
  NilZero.string_of_uint (Nat.to_uint n).

(** ** String to number

    [Number(s)] on a string: the StringNumericLiteral grammar. Surrounding
    white space is dropped; the empty string is 0; a decimal literal has an
    optional sign, digits with an optional fraction, and an optional
    exponent; [Infinity] may carry a sign; binary, octal and hexadecimal
    integers take no sign; anything else is NaN. *)

Definition digit_value (base : nat) (c : ascii) : option nat :=
  let n := nat_of_ascii c in
  let v :=
    if Nat.leb 48 n && Nat.leb n 57 then Some (n - 48)
    else if Nat.leb 97 n && Nat.leb n 102 then Some (n - 87)
    else if Nat.leb 65 n && Nat.leb n 70 then Some (n - 55)
    else None in
  match v with
  | Some d => if Nat.ltb d base then Some d else None
  | None => None
  end.

(** The longest run of digits at the start of [s]: its value, its length
    and what follows it. *)
Fixpoint read_digits (base : nat) (s : string) (acc : Z) (count : nat)
  : Z * nat * string :=
  match s with
  | String c s' =>
      match digit_value base c with
      | Some d =>
          read_digits base s' (Z.of_nat base * acc + Z.of_nat d)%Z (S count)
      | None => (acc, count, s)
      end
  | EmptyString => (acc, count, s)
  end.

(** [m * 10^e] as a rational in lowest terms. *)
Definition scale10 (m e : Z) : Q :=
  if (0 <=? e)%Z then inject_Z (m * 10 ^ e)
  else Qred (Qmake m (Z.to_pos (10 ^ (- e)))).

(** ExponentPart, or nothing, up to the end of the string. *)
Definition read_exponent (s : string) : option Z :=
  match s with
  | EmptyString => Some 0%Z
  | String c r =>
      if Ascii.eqb c "e" || Ascii.eqb c "E" then
        let '(negative, digits) :=
          match r with
          | String d r' =>
              if Ascii.eqb d "-" then (true, r')
              else if Ascii.eqb d "+" then (false, r')
              else (false, r)
          | EmptyString => (false, r)
          end in
        match read_digits 10 digits 0 0 with
        | (v, S _, EmptyString) => Some (if negative then (- v)%Z else v)
        | _ => None
        end
      else None
  end.

(** StrUnsignedDecimalLiteral; [None] when [s] is not one. *)
Definition read_unsigned_decimal (s : string) : option number :=
  if (s =? "Infinity")%string then Some PosInf
  else
    let '(ip, ic, r1) := read_digits 10 s 0 0 in
    let '(fp, fc, r2) :=
      match r1 with
      | String c r => if Ascii.eqb c "." then read_digits 10 r 0 0
                      else (0%Z, 0, r1)
      | EmptyString => (0%Z, 0, r1)
      end in
    if Nat.eqb ic 0 && Nat.eqb fc 0 then None
    else match read_exponent r2 with
         | Some e =>
             Some (Fin (scale10 (ip * 10 ^ Z.of_nat fc + fp)
                                (e - Z.of_nat fc)))
         | None => None
         end.

Definition negate (n : number) : number :=
  match n with
  | Fin q => Fin (- q)
  | PosInf => NegInf
  | NegInf => PosInf
  | NaN => NaN
  end.

Definition or_NaN (o : option number) : number :=
  match o with Some n => n | None => NaN end.

(** The base named by the second character of a [0x], [0o] or [0b]
    prefix. *)
Definition radix_of (c : ascii) : option nat :=
  if Ascii.eqb c "x" || Ascii.eqb c "X" then Some 16
  else if Ascii.eqb c "o" || Ascii.eqb c "O" then Some 8
  else if Ascii.eqb c "b" || Ascii.eqb c "B" then Some 2
  else None.

Definition read_radix_integer (base : nat) (s : string) : number :=
  match read_digits base s 0 0 with
  | (v, S _, EmptyString) => Fin (inject_Z v)
  | _ => NaN
  end.

(** [Number(s)] *)
Definition StringToNumber (s : string) : number :=
  match trim s with
  | EmptyString => zero
  | String c r as t =>
      if Ascii.eqb c "+" then or_NaN (read_unsigned_decimal r)
      else if Ascii.eqb c "-" then negate (or_NaN (read_unsigned_decimal r))
      else
        match (if Ascii.eqb c "0" then
                 match r with
                 | String x digits =>
                     match radix_of x with
                     | Some base => Some (read_radix_integer base digits)
                     | None => None
                     end
                 | EmptyString => None
                 end
               else None) with
        | Some n => n
        | None => or_NaN (read_unsigned_decimal t)
        end
  end.

(** ** Exceptions

    A computation that may throw. The thrown value is an Error object, of
    which only the [message] is ever read. *)

Inductive Exn (A : Type) : Type :=
  | Ok (a : A)
  | Throw (message : string).
Arguments Ok {A} a.
Arguments Throw {A} message.

Definition bind {A B : Type} (m : Exn A) (k : A -> Exn B) : Exn B :=
  match m with
  | Ok a => k a
  | Throw e => Throw e
  end.

(** [try { body } catch (e) { handler }] *)
Definition try_catch {A : Type} (body : Exn A) (handler : string -> Exn A)
  : Exn A :=
  match body with
  | Ok a => Ok a
  | Throw e => handler e
  end.

(** [promise.catch(() => fallback)] *)
Definition catch_default {A : Type} (m : Exn A) (fallback : A) : A :=
  match m with
  | Ok a => a
  | Throw _ => fallback
  end.

Declare Scope exn_scope.
Delimit Scope exn_scope with exn.
Notation "x <- m ;; k" := (bind m (fun x => k))
  (at level 61, m at next level, right associativity) : exn_scope.

(** ** Dynamically typed values

    The values a decoded JSON text can hold, and [undefined]. An object is
    the list of its own properties; a lookup takes the first entry with
    the key. *)

#[warnings="-register-all"]
Inductive JsValue : Type :=
  | VUndefined
  | VNull
  | VBool (b : bool)
  | VNum (n : number)
  | VStr (s : string)
  | VArr (items : list JsValue)
  | VObj (fields : list (string * JsValue)).

Fixpoint obj_get (fields : list (string * JsValue)) (key : string)
  : JsValue :=
  match fields with
  | (k, v) :: rest => if (k =? key)%string then v else obj_get rest key
  | [] => VUndefined
  end.

(** ToBoolean *)
Definition truthy (v : JsValue) : bool :=
  match v with
  | VUndefined | VNull => false
  | VBool b => b
  | VNum n => number_truthy n
  | VStr s => negb (s =? EmptyString)%string
  | VArr _ | VObj _ => true
  end.

(** [typeof v === 'object'] *)
Definition is_object_type (v : JsValue) : bool :=
  match v with
  | VNull | VArr _ | VObj _ => true
  | _ => false
  end.

(** [v[key]] for a value that is neither [null] nor [undefined] and a key
    that is not an array index, [length] or a method name: the property of
    an object, [undefined] on everything else. *)
Definition field (v : JsValue) (key : string) : JsValue :=
  match v with
  | VObj fields => obj_get fields key
  | _ => VUndefined
  end.

(** The message of the TypeError thrown by a property read on [null] or
    [undefined]. Its wording depends on the engine; this is V8's. *)
Definition null_read_message (v : JsValue) (key : string) : string :=
  "Cannot read properties of "
  ++ (match v with VNull => "null" | _ => "undefined" end)
  ++ " (reading '" ++ key ++ "')".

(** [v.key] *)
Definition member (v : JsValue) (key : string) : Exn JsValue :=
  match v with
  | VUndefined | VNull => Throw (null_read_message v key)
  | _ => Ok (field v key)
  end.

(** [v?.key] *)
Definition opt_member (v : JsValue) (key : string) : JsValue :=
  match v with
  | VUndefined | VNull => VUndefined
  | _ => field v key
  end.

(** [v?.[0]] *)
Definition opt_first (v : JsValue) : JsValue :=
  match v with
  | VArr (x :: _) => x
  | VStr (String c _) => VStr (String c EmptyString)
  | VObj fields => obj_get fields "0"
  | _ => VUndefined
  end.

(** [a || b] *)
Definition or_else (a b : JsValue) : JsValue :=
  if truthy a then a else b.

(** [typeof v === 'string' ? v : undefined] *)
Definition string_or_undefined (v : JsValue) : option string :=
  match v with VStr s => Some s | _ => None end.

(** ** Further built-ins *)

(** [toLowerCase] on one code unit below 256: the ASCII capitals and the
    Latin-1 capitals (U+00C0 to U+00DE, the multiplication sign apart). *)
Definition to_lower (c : ascii) : ascii :=
  let n := nat_of_ascii c in
  if (Nat.leb 65 n && Nat.leb n 90)
     || (Nat.leb 192 n && Nat.leb n 222 && negb (Nat.eqb n 215))
  then ascii_of_nat (n + 32) else c.

(** [s.toLowerCase()] *)
Fixpoint toLowerCase (s : string) : string :=
  match s with
  | String c s' => String (to_lower c) (toLowerCase s')
  | EmptyString => EmptyString
  end.

End JS.

(* ===================================================================== *)
(** * A decoder for JSON text *)
(* ===================================================================== *)

(** [JSON.parse] is a built-in, and the service is embedded over any
    decoder. To run the embedding on concrete texts, this module decodes
    the JSON grammar. A [\u] escape above code unit 255 is outside the
    model of strings and is refused. *)

Module Json.
Import JS.
Local Open Scope string_scope.

Definition is_json_space (c : ascii) : bool :=
  let n := nat_of_ascii c in
  Nat.eqb n 32 || Nat.eqb n 9 || Nat.eqb n 10 || Nat.eqb n 13.

Fixpoint skip_space (s : string) : string :=
  match s with
  | String c s' => if is_json_space c then skip_space s' else s
  | EmptyString => EmptyString
  end.

(** Four hexadecimal digits of a [\u] escape. *)
Definition read_hex4 (s : string) : option (nat * string) :=
  match s with
  | String a (String b (String c (String d r))) =>
      match digit_value 16 a, digit_value 16 b,
            digit_value 16 c, digit_value 16 d with
      | Some x, Some y, Some z, Some w =>
          Some (((x * 16 + y) * 16 + z) * 16 + w, r)
      | _, _, _, _ => None
      end
  | _ => None
  end.

(** The characters of a string literal after its opening quote, up to and
    including the closing quote. *)
Fixpoint read_string (fuel : nat) (s : string) : option (string * string) :=
  match fuel with
  | O => None
  | S fuel' =>
      match s with
      | EmptyString => None
      | String c r =>
          let n := nat_of_ascii c in
          if Nat.eqb n 34 then Some (EmptyString, r)
          else if Nat.ltb n 32 then None
          else if Nat.eqb n 92 then
            match r with
            | String e r' =>
                let plain (ch : nat) :=
                  match read_string fuel' r' with
                  | Some (t, rest) => Some (String (ascii_of_nat ch) t, rest)
                  | None => None
                  end in
                let m := nat_of_ascii e in
                if Nat.eqb m 34 then plain 34
                else if Nat.eqb m 92 then plain 92
                else if Nat.eqb m 47 then plain 47
                else if Ascii.eqb e "b" then plain 8
                else if Ascii.eqb e "f" then plain 12
                else if Ascii.eqb e "n" then plain 10
                else if Ascii.eqb e "r" then plain 13
                else if Ascii.eqb e "t" then plain 9
                else if Ascii.eqb e "u" then
                  match read_hex4 r' with
                  | Some (code, r'') =>
                      if Nat.ltb code 256 then
                        match read_string fuel' r'' with
                        | Some (t, rest) =>
                            Some (String (ascii_of_nat code) t, rest)
                        | None => None
                        end
                      else None
                  | None => None
                  end
                else None
            | EmptyString => None
            end
          else
            match read_string fuel' r with
            | Some (t, rest) => Some (String c t, rest)
            | None => None
            end
      end
  end.

(** A number literal: [-]? int frac? exp?, with no leading zero. *)
Definition read_number (s : string) : option (number * string) :=
  let '(negative, s1) :=
    match s with
    | String c r => if Ascii.eqb c "-" then (true, r) else (false, s)
    | EmptyString => (false, s)
    end in
  let '(ip, ic, r1) := read_digits 10 s1 0 0 in
  let leading_zero :=
    match s1 with
    | String c _ => Ascii.eqb c "0" && Nat.ltb 1 ic
    | EmptyString => false
    end in
  if Nat.eqb ic 0 || leading_zero then None
  else
    let fraction :=
      match r1 with
      | String c r =>
          if Ascii.eqb c "." then
            match read_digits 10 r 0 0 with
            | (fp, S k, r2) => Some (fp, S k, r2)
            | _ => None
            end
          else Some (0%Z, 0, r1)
      | EmptyString => Some (0%Z, 0, r1)
      end in
    match fraction with
    | None => None
    | Some (fp, fc, r2) =>
        let exponent :=
          match r2 with
          | String c r =>
              if Ascii.eqb c "e" || Ascii.eqb c "E" then
                let '(neg_e, digits) :=
                  match r with
                  | String d r' =>
                      if Ascii.eqb d "-" then (true, r')
                      else if Ascii.eqb d "+" then (false, r')
                      else (false, r)
                  | EmptyString => (false, r)
                  end in
                match read_digits 10 digits 0 0 with
                | (v, S _, r3) => Some (if neg_e then (- v)%Z else v, r3)
                | _ => None
                end
              else Some (0%Z, r2)
          | EmptyString => Some (0%Z, r2)
          end in
        match exponent with
        | None => None
        | Some (e, r3) =>
            let q := scale10 (ip * 10 ^ Z.of_nat fc + fp) (e - Z.of_nat fc) in
            Some (Fin (if negative then (- q)%Q else q), r3)
        end
    end.

(** An object keeps one entry per key: a repeated key replaces the value
    of the earlier entry. *)
Fixpoint obj_set (fields : list (string * JsValue)) (key : string)
    (v : JsValue) : list (string * JsValue) :=
  match fields with
  | (k, old) :: rest =>
      if (k =? key)%string then (k, v) :: rest
      else (k, old) :: obj_set rest key v
  | [] => [(key, v)]
  end.

Definition expect (word : string) (s : string) (v : JsValue)
  : option (JsValue * string) :=
  if prefix word s
  then Some (v, String.substring (String.length word)
                                 (String.length s - String.length word) s)
  else None.

Fixpoint read_value (fuel : nat) (s : string) {struct fuel}
  : option (JsValue * string) :=
  match fuel with
  | O => None
  | S fuel' =>
      match skip_space s with
      | EmptyString => None
      | String c r as t =>
          if Ascii.eqb c "{" then
            match skip_space r with
            | String d r' =>
                if Ascii.eqb d "}" then Some (VObj [], r')
                else read_members fuel' r []
            | EmptyString => None
            end
          else if Ascii.eqb c "[" then
            match skip_space r with
            | String d r' =>
                if Ascii.eqb d "]" then Some (VArr [], r')
                else read_elements fuel' r []
            | EmptyString => None
            end
          else if Nat.eqb (nat_of_ascii c) 34 then
            match read_string (String.length r) r with
            | Some (str, rest) => Some (VStr str, rest)
            | None => None
            end
          else if Ascii.eqb c "t" then expect "true" t (VBool true)
          else if Ascii.eqb c "f" then expect "false" t (VBool false)
          else if Ascii.eqb c "n" then expect "null" t VNull
          else
            match read_number t with
            | Some (n, rest) => Some (VNum n, rest)
            | None => None
            end
      end
  end

with read_elements (fuel : nat) (s : string) (acc : list JsValue)
    {struct fuel} : option (JsValue * string) :=
  match fuel with
  | O => None
  | S fuel' =>
      match read_value fuel' s with
      | Some (v, r) =>
          match skip_space r with
          | String c r' =>
              if Ascii.eqb c "," then read_elements fuel' r' (acc ++ [v])%list
              else if Ascii.eqb c "]" then Some (VArr (acc ++ [v])%list, r')
              else None
          | EmptyString => None
          end
      | None => None
      end
  end

with read_members (fuel : nat) (s : string) (acc : list (string * JsValue))
    {struct fuel} : option (JsValue * string) :=
  match fuel with
  | O => None
  | S fuel' =>
      match skip_space s with
      | String q r =>
          if Nat.eqb (nat_of_ascii q) 34 then
            match read_string (String.length r) r with
            | Some (key, r1) =>
                match skip_space r1 with
                | String colon r2 =>
                    if Ascii.eqb colon ":" then
                      match read_value fuel' r2 with
                      | Some (v, r3) =>
                          match skip_space r3 with
                          | String c r4 =>
                              if Ascii.eqb c "," then
                                read_members fuel' r4 (obj_set acc key v)
                              else if Ascii.eqb c "}" then
                                Some (VObj (obj_set acc key v), r4)
                              else None
                          | EmptyString => None
                          end
                      | None => None
                      end
                    else None
                | EmptyString => None
                end
            | None => None
            end
          else None
      | EmptyString => None
      end
  end.

(** [JSON.parse(text)] *)
Definition parse (text : string) : Exn JsValue :=
  match read_value (2 * String.length text + 2) text with
  | Some (v, rest) =>
      match skip_space rest with
      | EmptyString => Ok v
      | _ => Throw "JSON Parse error: Unexpected token"
      end
  | None => Throw "JSON Parse error: Unexpected token"
  end.

(** JSON text written with a single quote for each double quote. *)
Fixpoint requote (s : string) : string :=
  match s with
  | String c r =>
      String (if Ascii.eqb c "'" then ascii_of_nat 34 else c) (requote r)
  | EmptyString => EmptyString
  end.

End Json.

(* ===================================================================== *)
(** * Data model ([src/types/nutrition.ts]) *)
(* ===================================================================== *)

Module Nutrition.
Import JS.

Inductive Confidence : Type := high | medium | low.

Inductive MealType : Type := breakfast | lunch | dinner | snack.

Record NutritionTotals : Type := mkTotals {
  calories : number;
  protein : number;
  carbs : number;
  fats : number
}.

(** [NutritionData extends NutritionTotals]: the inherited fields are the
    component [nutrients]. An optional property is an [option]. *)
Record NutritionData : Type := mkData {
  nutrients : NutritionTotals;
  name : string;
  serving_size : option string;
  fiber : option number;
  confidence : option Confidence;
  notes : option string
}.

(** [Meal extends NutritionData] *)
Record Meal : Type := mkMeal {
  food : NutritionData;
  meal_id : string;
  timestamp : string;
  mealType : option MealType;
  imageUri : option string
}.

(** [DailyNutrition extends NutritionTotals] *)
Record DailyNutrition : Type := mkDaily {
  totals : NutritionTotals;
  meals : list Meal;
  waterIntake : option number
}.

(** [AIAnalysisResult], a union tagged by [type]. *)
Inductive AIAnalysisResult : Type :=
  | Food (data : NutritionData)
  | NotFood (reason : string)
  | Error (message : string).

Definition is_error (r : AIAnalysisResult) : bool :=
  match r with Error _ => true | _ => false end.

(** [['high', 'medium', 'low'].includes(v)], with the member found. *)
Definition confidence_of (v : JsValue) : option Confidence :=
  match v with
  | VStr s =>
      if (s =? "high")%string then Some high
      else if (s =? "medium")%string then Some medium
      else if (s =? "low")%string then Some low
      else None
  | _ => None
  end.

(** [['breakfast', 'lunch', 'dinner', 'snack'].includes(v)], with the
    member found. *)
Definition mealType_of (v : JsValue) : option MealType :=
  match v with
  | VStr s =>
      if (s =? "breakfast")%string then Some breakfast
      else if (s =? "lunch")%string then Some lunch
      else if (s =? "dinner")%string then Some dinner
      else if (s =? "snack")%string then Some snack
      else None
  | _ => None
  end.

End Nutrition.

(* ===================================================================== *)
(** * The inference service ([src/services/geminiService.ts]) *)
(* ===================================================================== *)

Module Gemini.
Import JS Nutrition.
Local Open Scope string_scope.
Local Open Scope exn_scope.

Definition GEMINI_MODEL_PREFERENCE : list string :=
  [ "gemini-2.0-flash";
    "gemini-2.0-flash-lite";
    "gemini-2.5-pro";
    "gemini-2.5-flash";
    "gemini-2.5-flash-lite" ].

(** ** Credential *)

(** [getApiKey]: the stored key, or [null] when there is none or the read
    of the secure store throws. [store] is the outcome of
    [SecureStore.getItemAsync]. *)
Definition getApiKey (store : Exn (option string)) : option string :=
  catch_default store None.

Definition isValidApiKeyFormat (key : string) : bool :=
  startsWith (trim key) "AIza" && Nat.ltb 30 (String.length (trim key)).

(** ** Response normalizer *)

(** The helper [toNumber] of [normalizeNutritionData]. *)
Definition toNumber (value : JsValue) (fallback : number) : number :=
  match value with
  | VNum n =>
      if Number_isFinite n then Math_max zero (Math_round n) else fallback
  | VStr s =>
      let parsed := StringToNumber (keep_numeric_chars s) in
      if Number_isFinite parsed then Math_max zero (Math_round parsed)
      else fallback
  | _ => fallback
  end.

Definition normalizeNutritionData (input : JsValue) : option NutritionData :=
  if negb (truthy input) || negb (is_object_type input) then None
  else
    let data := input in
    let name :=
      match field data "name" with
      | VStr s =>
          if Nat.ltb 0 (String.length (trim s)) then Some (trim s) else None
      | _ => None
      end in
    match name with
    | None => None
    | Some name =>
        if (name =? EmptyString)%string then None
        else
          Some {|
            nutrients := {|
              calories := toNumber (field data "calories") zero;
              protein := toNumber (field data "protein") zero;
              carbs := toNumber (field data "carbs") zero;
              fats := toNumber (field data "fats") zero |};
            name := name;
            serving_size := string_or_undefined (field data "serving_size");
            fiber :=
              match field data "fiber" with
              | VUndefined => None
              | v => Some (toNumber v zero)
              end;
            confidence :=
              match confidence_of (field data "confidence") with
              | Some c => Some c
              | None => Some medium
              end;
            notes := string_or_undefined (field data "notes") |}
    end.

(** [v === false], [v === true] *)
Definition is_false (v : JsValue) : bool :=
  match v with VBool false => true | _ => false end.
Definition is_true (v : JsValue) : bool :=
  match v with VBool true => true | _ => false end.

(** [handleParsedResponse(parsed: any)]. Reading a property of [null] or
    [undefined] throws. *)
Definition handleParsedResponse (parsed : JsValue) : Exn AIAnalysisResult :=
  is_food <- member parsed "is_food" ;;
  if is_false is_food then
    reason <- member parsed "reason" ;;
    Ok (NotFood (match reason with
                 | VStr s => s
                 | _ => "This image does not appear to contain food"
                 end))
  else
    name <- member parsed "name" ;;
    if is_true is_food || truthy name then
      match normalizeNutritionData parsed with
      | Some normalized => Ok (Food normalized)
      | None => Ok (Error "Invalid nutrition data in response")
      end
    else Ok (Error "Unexpected response format from AI").

Section Runtime.

(** Built-ins taken as given: [JSON.parse], which throws a SyntaxError on
    text that is not JSON, and the conversion of a value to a string in a
    template literal. *)
Variable JSON_parse : string -> Exn JsValue.
Variable ToString : JsValue -> string.

(** ** Response parser *)

(** [parseAIResponse(text)]. The argument is whatever the response held at
    [candidates[0].content.parts[0].text], so it is a [JsValue]; the
    function itself tests [typeof text !== 'string']. *)
Definition parseAIResponse (text : JsValue) : Exn AIAnalysisResult :=
  match text with
  | VStr text =>
      if (text =? EmptyString)%string then Ok (Error "Empty response from AI")
      else
        let cleanText :=
          trim (remove_all false "```" (remove_all true "```json" text)) in
        try_catch
          (parsed <- JSON_parse cleanText ;; handleParsedResponse parsed)
          (fun _ =>
             let unparseable :=
               Ok (Error "Could not parse AI response as JSON") in
             match indexOf cleanText "{", lastIndexOf cleanText "}" with
             | Some firstBrace, Some lastBrace =>
                 if Nat.ltb firstBrace lastBrace then
                   let jsonSubstring :=
                     substring cleanText firstBrace (lastBrace + 1) in
                   try_catch
                     (parsed <- JSON_parse jsonSubstring ;;
                      handleParsedResponse parsed)
                     (fun _ => unparseable)
                 else unparseable
             | _, _ => unparseable
             end)
  | _ => Ok (Error "Empty response from AI")
  end.

(** ** The network

    A response carries its status and the outcome of reading its body with
    [response.json()], which rejects when the body is not JSON. [fetch]
    itself rejects when the request cannot be made. The network is the
    outcome of each [fetch] in the order the calls are made: call number 0
    is the first one. *)

Record Response : Type := mkResponse {
  status : nat;
  json : Exn JsValue
}.

(** [response.ok] *)
Definition ok (response : Response) : bool :=
  Nat.leb 200 (status response) && Nat.leb (status response) 299.

Definition Network : Type := nat -> Exn Response.

(** One [fetch] of the analysis loop: the model addressed and the value of
    [attempt]. *)
Record Call : Type := mkCall {
  call_model : string;
  call_attempt : nat
}.

(** ** Inference client *)

(** How the body of the attempt loop ends: [return], [continue] (also the
    end of the body) or [break]. *)
Inductive Flow : Type :=
  | Return (result : AIAnalysisResult)
  | Continue
  | Break.

(** [data.candidates?.[0]?.content?.parts?.[0]?.text] *)
Definition textResponse_of (data : JsValue) : Exn JsValue :=
  candidates <- member data "candidates" ;;
  let candidate := opt_first candidates in
  Ok (opt_member
        (opt_first (opt_member (opt_member candidate "content") "parts"))
        "text").

(** The [try] block of one attempt of [requestGeminiAnalysis], from the
    outcome of its [fetch]: the new value of [lastErrorMessage] and how the
    block ends. *)
Definition attemptTry (fetched : Exn Response) (lastErrorMessage : JsValue)
  : Exn (JsValue * Flow) :=
  response <- fetched ;;
  if negb (ok response) then
    let errData := catch_default (json response) (VObj []) in
    error <- member errData "error" ;;
    let lastErrorMessage :=
      or_else (opt_member error "message")
              (VStr ("Status " ++ nat_to_string (status response))) in
    if Nat.leb 400 (status response) && Nat.ltb (status response) 500
       && negb (Nat.eqb (status response) 429)
    then Ok (lastErrorMessage, Break)
    else Ok (lastErrorMessage, Continue)
  else
    data <- json response ;;
    textResponse <- textResponse_of data ;;
    if negb (truthy textResponse) then
      Ok (VStr "Empty response from AI", Continue)
    else
      result <- parseAIResponse textResponse ;;
      match result with
      | Error message =>
          Ok (or_else (VStr message) (VStr "Parsing failed"), Continue)
      | _ => Ok (lastErrorMessage, Return result)
      end.

(** The [catch] block of one attempt. *)
Definition attemptCatch (message : string) : JsValue * Flow :=
  let errorMessage :=
    if (message =? EmptyString)%string then "Network error" else message in
  let errorMessage :=
    if includes errorMessage "Network request failed"
       || includes errorMessage "fetch"
    then "No internet connection. Please check your network."
    else errorMessage in
  (VStr errorMessage, Continue).

Definition attempt (fetched : Exn Response) (lastErrorMessage : JsValue)
  : JsValue * Flow :=
  match attemptTry fetched lastErrorMessage with
  | Ok outcome => outcome
  | Throw message => attemptCatch message
  end.

(** The state of the loops: the calls made so far, oldest first, and
    [lastErrorMessage]. *)
Record LoopState : Type := mkLoop {
  calls : list Call;
  lastErrorMessage : JsValue
}.

(** [for (let attempt = ...; attempt <= maxRetries; attempt++)], with
    [remaining] iterations to go. [None] when the loop ends without a
    [return]. *)
Fixpoint attemptLoop (net : Network) (model : string)
    (remaining attempt_no : nat) (st : LoopState)
  : LoopState * option AIAnalysisResult :=
  match remaining with
  | O => (st, None)
  | S remaining' =>
      let fetched := net (List.length (calls st)) in
      let log := (calls st ++ [mkCall model attempt_no])%list in
      let '(message, flow) := attempt fetched (lastErrorMessage st) in
      let st' := mkLoop log message in
      match flow with
      | Return result => (st', Some result)
      | Break => (st', None)
      | Continue => attemptLoop net model remaining' (S attempt_no) st'
      end
  end.

(** [for (const model of models)] *)
Fixpoint modelLoop (net : Network) (models : list string) (maxRetries : nat)
    (st : LoopState) : LoopState * option AIAnalysisResult :=
  match models with
  | [] => (st, None)
  | model :: rest =>
      match attemptLoop net model (S maxRetries) 0 st with
      | (st', Some result) => (st', Some result)
      | (st', None) => modelLoop net rest maxRetries st'
      end
  end.

(** [requestGeminiAnalysis]: the result and the calls it made. *)
Definition requestGeminiAnalysis (net : Network) (maxRetries : nat)
  : AIAnalysisResult * list Call :=
  match modelLoop net GEMINI_MODEL_PREFERENCE maxRetries
                  (mkLoop [] (VStr EmptyString)) with
  | (st, Some result) => (result, calls st)
  | (st, None) =>
      (Error ("Analysis failed: "
              ++ ToString (or_else (lastErrorMessage st)
                             (VStr "Please check your internet connection"))),
       calls st)
  end.

(** [analyzeFood] *)
Definition analyzeFood (store : Exn (option string)) (net : Network)
  : AIAnalysisResult * list Call :=
  match getApiKey store with
  | None =>
      (Error "API key not configured. Please add your key in Settings.", [])
  | Some apiKey =>
      if (apiKey =? EmptyString)%string then
        (Error "API key not configured. Please add your key in Settings.", [])
      else if negb (isValidApiKeyFormat apiKey) then
        (Error "Invalid API key format.", [])
      else requestGeminiAnalysis net 2
  end.

(** ** Weekly summary *)





End Runtime.

(** ** The credential store

    [SecureStore] holds at most one text under [API_KEY_STORAGE]; the value
    of type [SecureStore] is what it holds. Each of its operations may
    throw; [throws] tells whether it does. *)

Definition SecureStore : Type := option string.

(** [SecureStore.getItemAsync(API_KEY_STORAGE)] *)
Definition getItemAsync (throws : bool) (store : SecureStore)
  : Exn (option string) :=
  if throws then Throw "Could not read the secure store" else Ok store.

(** [saveApiKey]: the store afterwards and the flag returned. *)
Definition saveApiKey (throws : bool) (key : string) (store : SecureStore)
  : SecureStore * bool :=
  if throws then (store, false) else (Some (trim key), true).

(** [deleteApiKey] *)
Definition deleteApiKey (throws : bool) (store : SecureStore)
  : SecureStore * bool :=
  if throws then (store, false) else (None, true).

(** The result of [validateApiKey]: [{ valid, error? }]. The [error] is
    typed as a string; it is whatever the response held at
    [error.message], so it is a [JsValue]. *)
Record Validation : Type := mkValidation {
  valid : bool;
  error : option JsValue
}.

(** [validateApiKey], from the outcome of its [fetch]. *)
Definition validateApiKey (fetched : Exn Response) : Validation :=
  let attempted :=
    bind fetched (fun response =>
      if ok response then Ok (mkValidation true None)
      else
        let errorData := catch_default (json response) (VObj []) in
        bind (member errorData "error") (fun error =>
          Ok (mkValidation false
                (Some (or_else (opt_member error "message")
                         (VStr ("API returned status "
                                ++ nat_to_string (status response))))))))
  in
  match attempted with
  | Ok v => v
  | Throw _ =>
      mkValidation false
        (Some (VStr "Network error - please check your connection"))
  end.

(** ** Messages for a not-food outcome *)

Definition defaultMessage : string :=
  "Hmm, that doesn't look like food! Try taking a photo of your meal.".

Definition unclearMessage : string :=
  "The image is a bit unclear. Try taking a clearer photo with better lighting.".

Definition personMessage : string :=
  "Nice photo, but I need to see the food! Try pointing the camera at your meal.".

Definition documentMessage : string :=
  "I see text/documents. I need an actual photo of food to analyze its nutrition.".

Definition animalMessage : string :=
  "Cute! But I can only analyze human food. Snap a pic of what you're eating!".

Definition emptyPlateMessage : string :=
  "Looks like an empty plate! Add some food and I'll analyze it for you.".

(** [getNotFoodMessage] *)
Definition getNotFoodMessage (reason : string) : string :=
  if (reason =? EmptyString)%string then defaultMessage
  else
    let lowerReason := toLowerCase reason in
    if includes lowerReason "blur" || includes lowerReason "unclear"
    then unclearMessage
    else if includes lowerReason "person" || includes lowerReason "selfie"
    then personMessage
    else if includes lowerReason "text" || includes lowerReason "document"
            || includes lowerReason "menu"
    then documentMessage
    else if includes lowerReason "animal" || includes lowerReason "pet"
    then animalMessage
    else if includes lowerReason "empty" || includes lowerReason "plate"
    then emptyPlateMessage
    else defaultMessage.

End Gemini.

(* ===================================================================== *)
(** * The daily ledger ([src/hooks/useStorage.ts]) *)
(* ===================================================================== *)

Module Storage.
Import JS Nutrition.
Local Open Scope string_scope.

Definition noTotals : NutritionTotals := mkTotals zero zero zero zero.

Definition initialDailyNutrition : DailyNutrition :=
  {| totals := noTotals; meals := []; waterIntake := Some zero |}.

(** [calculateMealTotals]: [meals.reduce] from the zero totals. *)
Definition calculateMealTotals (meals : list Meal) : NutritionTotals :=
  fold_left
    (fun acc meal =>
       {| calories := add (calories acc)
                          (or_zero (calories (nutrients (food meal))));
          protein := add (protein acc)
                         (or_zero (protein (nutrients (food meal))));
          carbs := add (carbs acc) (or_zero (carbs (nutrients (food meal))));
          fats := add (fats acc) (or_zero (fats (nutrients (food meal)))) |})
    meals noTotals.

(** What the environment supplies while the meal at a given index is
    normalized: the id [createMealId()] generates, the instant
    [new Date().toISOString()] reads, and the text
    [Math.random().toString(36).slice(2, 8)] yields. *)
Record Fresh : Type := mkFresh {
  createMealId : nat -> string;
  nowISOString : nat -> string;
  randomSuffix : nat -> string
}.

(** The helper [ensureNumber] of [normalizeMeal]. *)
Definition ensureNumber (value : JsValue) (fallback : number) : number :=
  match value with
  | VNum n => if Number_isFinite n then Math_max zero n else fallback
  | VStr s =>
      let parsed := StringToNumber s in
      if Number_isFinite parsed then Math_max zero parsed else fallback
  | _ => fallback
  end.

(** [typeof v === 'string' && v.trim()] as a condition. *)
Definition is_nonblank_string (v : JsValue) : option string :=
  match v with
  | VStr s => if (trim s =? EmptyString)%string then None else Some s
  | _ => None
  end.

Definition normalizeMeal (env : Fresh) (meal : JsValue) (index : nat) : Meal :=
  if negb (truthy meal) || negb (is_object_type meal) then
    {| food := {| nutrients := noTotals;
                  name := "Meal " ++ nat_to_string (index + 1);
                  serving_size := None;
                  fiber := None;
                  confidence := None;
                  notes := None |};
       meal_id := createMealId env index;
       timestamp := nowISOString env index;
       mealType := None;
       imageUri := None |}
  else
    let record := meal in
    let timestamp :=
      match is_nonblank_string (field record "timestamp") with
      | Some s => s
      | None => nowISOString env index
      end in
    let id :=
      match is_nonblank_string (field record "id") with
      | Some s => s
      | None =>
          timestamp ++ "-" ++ nat_to_string index ++ "-"
          ++ randomSuffix env index
      end in
    {| food := {|
         nutrients := {|
           calories := ensureNumber (field record "calories") zero;
           protein := ensureNumber (field record "protein") zero;
           carbs := ensureNumber (field record "carbs") zero;
           fats := ensureNumber (field record "fats") zero |};
         name :=
           match is_nonblank_string (field record "name") with
           | Some s => trim s
           | None => "Meal " ++ nat_to_string (index + 1)
           end;
         serving_size := string_or_undefined (field record "serving_size");
         fiber :=
           match field record "fiber" with
           | VUndefined => None
           | v => Some (ensureNumber v zero)
           end;
         confidence := confidence_of (field record "confidence");
         notes := string_or_undefined (field record "notes") |};
       meal_id := id;
       timestamp := timestamp;
       mealType := mealType_of (field record "mealType");
       imageUri := string_or_undefined (field record "imageUri") |}.

(** [array.map((x, index) => f(x, index))], counting from [index]. *)
Fixpoint map_indexed {A B : Type} (f : A -> nat -> B) (index : nat)
    (l : list A) : list B :=
  match l with
  | [] => []
  | x :: rest => f x index :: map_indexed f (S index) rest
  end.

(** The helper [ensureNumber] of [normalizeDailyNutrition], which has no
    case for strings and no default for its fallback. *)
Definition ensureNumberDaily (value : JsValue) (fallback : number) : number :=
  match value with
  | VNum n => if Number_isFinite n then Math_max zero n else fallback
  | _ => fallback
  end.

Definition normalizeDailyNutrition (env : Fresh) (input : JsValue)
  : DailyNutrition :=
  if negb (truthy input) || negb (is_object_type input) then
    initialDailyNutrition
  else
    let record := input in
    let mealsRaw :=
      match field record "meals" with
      | VArr items => items
      | _ => []
      end in
    let meals := map_indexed (normalizeMeal env) 0 mealsRaw in
    let totals := calculateMealTotals meals in
    {| totals := {|
         calories := ensureNumberDaily (field record "calories") (calories totals);
         protein := ensureNumberDaily (field record "protein") (protein totals);
         carbs := ensureNumberDaily (field record "carbs") (carbs totals);
         fats := ensureNumberDaily (field record "fats") (fats totals) |};
       meals := meals;
       waterIntake := Some (ensureNumberDaily (field record "waterIntake") zero) |}.

(** [load] of [useDailyNutrition]: the entry it hands to [setData].
    [stored] is the outcome of [AsyncStorage.getItem]; anything thrown in
    the [try] block yields the initial entry. *)
Definition load (JSON_parse : string -> Exn JsValue) (env : Fresh)
    (stored : Exn (option string)) : DailyNutrition :=
  catch_default
    (bind stored (fun stored =>
       match stored with
       | Some text =>
           if (text =? EmptyString)%string then Ok initialDailyNutrition
           else bind (JSON_parse text)
                     (fun parsed => Ok (normalizeDailyNutrition env parsed))
       | None => Ok initialDailyNutrition
       end))
    initialDailyNutrition.

(** ** Mutations

    Each is the entry [newData] the callback computes from the current
    [data] and passes to [save]. *)

(** [Omit<Meal, 'id' | 'timestamp'>] *)
Record NewMeal : Type := mkNewMeal {
  new_food : NutritionData;
  new_mealType : option MealType;
  new_imageUri : option string
}.

(** [addMeal]; [id] and [now] are what [createMealId()] and
    [new Date().toISOString()] give at the call. Returns [newData] and
    [newMeal]. *)
Definition addMeal (data : DailyNutrition) (meal : NewMeal)
    (id now : string) : DailyNutrition * Meal :=
  let newMeal :=
    {| food := new_food meal;
       meal_id := id;
       timestamp := now;
       mealType := new_mealType meal;
       imageUri := new_imageUri meal |} in
  let meals := (meals data ++ [newMeal])%list in
  let totals := calculateMealTotals meals in
  ({| totals := totals; meals := meals; waterIntake := waterIntake data |},
   newMeal).

(** [Partial<Meal>]: a property is absent ([None]) or carries a value. *)
Record MealUpdates : Type := mkUpdates {
  set_id : option string;
  set_timestamp : option string;
  set_name : option string;
  set_calories : option number;
  set_protein : option number;
  set_carbs : option number;
  set_fats : option number;
  set_serving_size : option (option string);
  set_fiber : option (option number);
  set_confidence : option (option Confidence);
  set_notes : option (option string);
  set_mealType : option (option MealType);
  set_imageUri : option (option string)
}.

Definition override {A : Type} (old : A) (new : option A) : A :=
  match new with Some v => v | None => old end.

(** [{ ...m, ...updates }] *)
Definition spread (m : Meal) (updates : MealUpdates) : Meal :=
  let f := food m in
  let n := nutrients f in
  {| food := {|
       nutrients := {|
         calories := override (calories n) (set_calories updates);
         protein := override (protein n) (set_protein updates);
         carbs := override (carbs n) (set_carbs updates);
         fats := override (fats n) (set_fats updates) |};
       name := override (name f) (set_name updates);
       serving_size := override (serving_size f) (set_serving_size updates);
       fiber := override (fiber f) (set_fiber updates);
       confidence := override (confidence f) (set_confidence updates);
       notes := override (notes f) (set_notes updates) |};
     meal_id := override (meal_id m) (set_id updates);
     timestamp := override (timestamp m) (set_timestamp updates);
     mealType := override (mealType m) (set_mealType updates);
     imageUri := override (imageUri m) (set_imageUri updates) |}.

Definition updateMeal (data : DailyNutrition) (mealId : string)
    (updates : MealUpdates) : DailyNutrition :=
  let meals :=
    map (fun m => if (meal_id m =? mealId)%string then spread m updates
                  else m)
        (meals data) in
  let totals := calculateMealTotals meals in
  {| totals := totals; meals := meals; waterIntake := waterIntake data |}.

Definition deleteMeal (data : DailyNutrition) (mealId : string)
  : DailyNutrition :=
  let meals :=
    filter (fun m => negb (meal_id m =? mealId)%string) (meals data) in
  let totals := calculateMealTotals meals in
  {| totals := totals; meals := meals; waterIntake := waterIntake data |}.

(** [addWater] *)
Definition addWater (data : DailyNutrition) (ml : number) : DailyNutrition :=
  {| totals := totals data;
     meals := meals data;
     waterIntake :=
       Some (add (match waterIntake data with
                  | Some w => or_zero w
                  | None => zero
                  end) ml) |}.

(** [save]: the [data] of the hook after [save(newData)]. When the write to
    [AsyncStorage] throws, the [catch] block logs and [setData] is not
    reached, so [data] stays as it was. [written] tells whether the write
    went through. *)
Definition save (written : bool) (data newData : DailyNutrition)
  : DailyNutrition :=
  if written then newData else data.

(** A mutation of the meal list, with the values the environment supplies
    to it. *)
Inductive Mutation : Type :=
  | AddMeal (meal : NewMeal) (id now : string)
  | UpdateMeal (mealId : string) (updates : MealUpdates)
  | DeleteMeal (mealId : string).

(** The entry [newData] a mutation computes from [data]. *)
Definition mutate (data : DailyNutrition) (op : Mutation) : DailyNutrition :=
  match op with
  | AddMeal meal id now => fst (addMeal data meal id now)
  | UpdateMeal mealId updates => updateMeal data mealId updates
  | DeleteMeal mealId => deleteMeal data mealId
  end.

(** The entries computed by a sequence of mutations, in order, each
    mutation paired with whether its write went through: a mutation works
    on the [data] the hook holds when it is called. *)
Fixpoint history (data : DailyNutrition) (ops : list (Mutation * bool))
  : list DailyNutrition :=
  match ops with
  | [] => []
  | (op, written) :: rest =>
      mutate data op :: history (save written data (mutate data op)) rest
  end.

(** ** What is written

    [save] writes [JSON.stringify(newData)] and [load] reads it back with
    [JSON.parse]. [written] is the value the two built-ins give for an
    entry: an object with the properties of the entry that are defined, a
    number that is not finite turned into [null]. *)

Definition written_number (n : number) : JsValue :=
  if Number_isFinite n then VNum n else VNull.

Definition optional {A : Type} (key : string) (f : A -> JsValue)
    (o : option A) : list (string * JsValue) :=
  match o with
  | Some a => [(key, f a)]
  | None => []
  end.

Definition confidence_text (c : Confidence) : string :=
  match c with high => "high" | medium => "medium" | low => "low" end.

Definition mealType_text (t : MealType) : string :=
  match t with
  | breakfast => "breakfast"
  | lunch => "lunch"
  | dinner => "dinner"
  | snack => "snack"
  end.

Definition written_meal (m : Meal) : JsValue :=
  let f := food m in
  let n := nutrients f in
  VObj ([("name", VStr (name f));
         ("calories", written_number (calories n));
         ("protein", written_number (protein n));
         ("carbs", written_number (carbs n));
         ("fats", written_number (fats n))]
        ++ optional "serving_size" VStr (serving_size f)
        ++ optional "fiber" written_number (fiber f)
        ++ optional "confidence" (fun c => VStr (confidence_text c))
                    (confidence f)
        ++ optional "notes" VStr (notes f)
        ++ optional "mealType" (fun t => VStr (mealType_text t)) (mealType m)
        ++ optional "imageUri" VStr (imageUri m)
        ++ [("id", VStr (meal_id m)); ("timestamp", VStr (timestamp m))])%list.

Definition written (e : DailyNutrition) : JsValue :=
  VObj ([("calories", written_number (calories (totals e)));
         ("protein", written_number (protein (totals e)));
         ("carbs", written_number (carbs (totals e)));
         ("fats", written_number (fats (totals e)));
         ("meals", VArr (map written_meal (meals e)))]
        ++ optional "waterIntake" written_number (waterIntake e))%list.

(** ** The week

    [AsyncStorage.getItem] is the outcome of a read for each key. A date is
    the number of its calendar day; [toDateString] gives the text of a day,
    and [date.setDate(date.getDate() - i)] is the day [i] days earlier. *)

Definition DAY_PREFIX : string := "nutrition_".

Section Week.

Variable JSON_parse : string -> Exn JsValue.
Variable toDateString : Z -> string.
Variable getItem : string -> Exn (option string).

(** The body of the loop of [load] in [useWeekData] for one [i]: the entry
    pushed onto [days], or what is thrown. *)
Definition weekDay (env : Fresh) (endDate : Z) (i : nat)
  : Exn DailyNutrition :=
  let key := DAY_PREFIX ++ toDateString (endDate - Z.of_nat i)%Z in
  bind (getItem key) (fun stored =>
    match stored with
    | Some text =>
        if (text =? EmptyString)%string then Ok initialDailyNutrition
        else bind (JSON_parse text)
                  (fun parsed => Ok (normalizeDailyNutrition env parsed))
    | None => Ok initialDailyNutrition
    end).

(** [for (let i = ...; i >= 0; i--)], from [i = count - 1] down to 0,
    pushing onto [days]. *)
Fixpoint weekLoop (env : nat -> Fresh) (endDate : Z) (count : nat)
    (days : list DailyNutrition) : Exn (list DailyNutrition) :=
  match count with
  | O => Ok days
  | S i =>
      bind (weekDay (env i) endDate i)
           (fun day => weekLoop env endDate i (days ++ [day])%list)
  end.

(** [load] of [useWeekData]: the new [weekData]. When something is thrown
    the [catch] block logs and [setWeekData] is not reached, so [weekData]
    stays as it was. *)
Definition loadWeek (env : nat -> Fresh) (endDate : Z)
    (weekData : list DailyNutrition) : list DailyNutrition :=
  catch_default (weekLoop env endDate 7 []) weekData.

(** [load] of [useDailyNutrition] for the day [date]. *)
Definition loadDay (env : Fresh) (date : Z) : DailyNutrition :=
  load JSON_parse env (getItem (DAY_PREFIX ++ toDateString date)).

End Week.

(** ** Goals *)

(** [defaultGoals] of [src/constants/theme.ts], as the object it is. *)
Definition defaultGoals : list (string * JsValue) :=
  [("calories", VNum (Fin 2000));
   ("protein", VNum (Fin 150));
   ("carbs", VNum (Fin 250));
   ("fats", VNum (Fin 65));
   ("waterGoal", VNum (Fin 2500))].

Fixpoint indexed_from (index : nat) (items : list JsValue)
  : list (string * JsValue) :=
  match items with
  | [] => []
  | x :: rest => (nat_to_string index, x) :: indexed_from (S index) rest
  end.

Fixpoint code_units (s : string) : list JsValue :=
  match s with
  | String c s' => VStr (String c EmptyString) :: code_units s'
  | EmptyString => []
  end.

(** The own enumerable properties a spread copies from a value. *)
Definition own_properties (v : JsValue) : list (string * JsValue) :=
  match v with
  | VObj fields => fields
  | VArr items => indexed_from 0 items
  | VStr s => indexed_from 0 (code_units s)
  | _ => []
  end.

(** [{ ...base, ...v }] *)
Definition spread_over (base : list (string * JsValue)) (v : JsValue)
  : list (string * JsValue) :=
  fold_left (fun acc kv => Json.obj_set acc (fst kv) (snd kv))
            (own_properties v) base.

(** [load] of [useGoals]: the new [goals]. [stored] is the outcome of
    [AsyncStorage.getItem]; with nothing stored, or when something is
    thrown, [goals] stays as it was. *)
Definition loadGoals (JSON_parse : string -> Exn JsValue)
    (stored : Exn (option string)) (goals : list (string * JsValue))
  : list (string * JsValue) :=
  catch_default
    (bind stored (fun stored =>
       match stored with
       | Some text =>
           if (text =? EmptyString)%string then Ok goals
           else bind (JSON_parse text)
                     (fun parsed => Ok (spread_over defaultGoals parsed))
       | None => Ok goals
       end))
    goals.

End Storage.

(* ===================================================================== *)
(** * Vocabulary of the properties *)
(* ===================================================================== *)

(** The notions the theorems are stated with, and the concrete inputs they
    are instantiated at. *)

Module Props.
Import JS Json Nutrition Gemini Storage.
Local Open Scope string_scope.

(** ** Ledger *)

(** The sum of a list of numbers, from 0, left to right. *)
Definition sum_list (l : list number) : number := fold_left add l zero.

(** The sum over the meals of one nutrient, each term read as
    [calculateMealTotals] reads it ([meal.calories || 0]). *)
Definition nutrient_sum (f : NutritionTotals -> number) (meals : list Meal)
  : number :=
  sum_list (map (fun m => or_zero (f (nutrients (food m)))) meals).

(** The plain sum, [sum(meal.calories for meal in meals)]. *)
Definition plain_sum (f : NutritionTotals -> number) (meals : list Meal)
  : number :=
  sum_list (map (fun m => f (nutrients (food m))) meals).

(** The totals of an entry are the sums over its meals. *)
Definition consistent (e : DailyNutrition) : Prop :=
  calories (totals e) = nutrient_sum calories (meals e)
  /\ protein (totals e) = nutrient_sum protein (meals e)
  /\ carbs (totals e) = nutrient_sum carbs (meals e)
  /\ fats (totals e) = nutrient_sum fats (meals e).

(** A meal whose four nutrients are numbers other than NaN. *)
Definition numeric_meal (m : Meal) : Prop :=
  calories (nutrients (food m)) <> NaN
  /\ protein (nutrients (food m)) <> NaN
  /\ carbs (nutrients (food m)) <> NaN
  /\ fats (nutrients (food m)) <> NaN.

(** The totals of an entry are the plain sums over its meals. *)
Definition plainly_consistent (e : DailyNutrition) : Prop :=
  calories (totals e) = plain_sum calories (meals e)
  /\ protein (totals e) = plain_sum protein (meals e)
  /\ carbs (totals e) = plain_sum carbs (meals e)
  /\ fats (totals e) = plain_sum fats (meals e).

(** An apple of 95 kcal and a rice bowl of 420 kcal, as [addMeal]
    receives them. *)
Definition apple : NewMeal :=
  {| new_food := {| nutrients := mkTotals (Fin 95) (Fin 0) (Fin 25) (Fin 0);
                    name := "Apple";
                    serving_size := None;
                    fiber := Some (Fin 4);
                    confidence := Some high;
                    notes := None |};
     new_mealType := Some snack;
     new_imageUri := None |}.

Definition rice : NewMeal :=
  {| new_food := {| nutrients := mkTotals (Fin 420) (Fin 18) (Fin 60) (Fin 9);
                    name := "Rice Bowl";
                    serving_size := Some "1 bowl";
                    fiber := None;
                    confidence := Some medium;
                    notes := None |};
     new_mealType := Some lunch;
     new_imageUri := None |}.

(** An edit that sets [calories] to 100 and nothing else. *)
Definition calories_100 : MealUpdates :=
  {| set_id := None; set_timestamp := None; set_name := None;
     set_calories := Some (Fin 100); set_protein := None;
     set_carbs := None; set_fats := None; set_serving_size := None;
     set_fiber := None; set_confidence := None; set_notes := None;
     set_mealType := None; set_imageUri := None |}.

Definition a_day : list (Mutation * bool) :=
  [ (AddMeal apple "m1" "2024-05-01T08:00:00.000Z", true);
    (AddMeal rice "m2" "2024-05-01T12:30:00.000Z", true);
    (UpdateMeal "m1" calories_100, true);
    (DeleteMeal "m2", true) ].

(** The entry the last mutation of [a_day] produces from the initial
    entry. *)
Definition after_a_day : DailyNutrition :=
  last (history initialDailyNutrition a_day) initialDailyNutrition.

(** The finite number a stored property holds, if it holds one. *)
Definition stored_finite (v : JsValue) : option number :=
  match v with
  | VNum n => if Number_isFinite n then Some n else None
  | _ => None
  end.

(** What [normalizeDailyNutrition] makes of one aggregate: the stored
    number floored at 0 when there is one, the sum over the meals
    otherwise. *)
Definition loaded_total (stored : JsValue) (sum : number) : number :=
  match stored_finite stored with
  | Some n => Math_max zero n
  | None => sum
  end.

Definition sample_env : Fresh :=
  {| createMealId := fun i => "meal-" ++ nat_to_string i;
     nowISOString := fun _ => "2024-05-01T12:00:00.000Z";
     randomSuffix := fun _ => "k3x9qa" |}.

(** A stored entry whose [calories] is 500 although its only meal has
    95. *)
Definition stale_entry_text : string :=
  requote "{'calories': 500, 'meals': [{'id': 'a', 'name': 'Apple', 'calories': 95}]}".

Definition stale_entry : JsValue :=
  VObj [("calories", VNum (Fin 500));
        ("meals", VArr [VObj [("id", VStr "a"); ("name", VStr "Apple");
                              ("calories", VNum (Fin 95))]])].

(** ** Normalizer *)

(** The fixed reason of a not-food outcome that supplies none. *)
Definition default_reason : string :=
  "This image does not appear to contain food".

(** Every numeric field of a record is at least 0. *)
Definition nonneg_fields (d : NutritionData) : Prop :=
  nonneg (calories (nutrients d))
  /\ nonneg (protein (nutrients d))
  /\ nonneg (carbs (nutrients d))
  /\ nonneg (fats (nutrients d))
  /\ (forall f, fiber d = Some f -> nonneg f).

Definition confidence_listed (d : NutritionData) : Prop :=
  confidence d = Some high \/ confidence d = Some medium
  \/ confidence d = Some low.

(** [{"name": " Rice Bowl ", "calories": "420 kcal", "protein": 18.4,
    "fiber": -3, "confidence": "certain"}] *)
Definition rice_bowl : JsValue :=
  VObj [("name", VStr " Rice Bowl "); ("calories", VStr "420 kcal");
        ("protein", VNum (Fin (184 # 10))); ("fiber", VNum (Fin (-3)));
        ("confidence", VStr "certain")].

Definition a_cat : JsValue :=
  VObj [("is_food", VBool false); ("reason", VStr "a cat")].

Definition no_reason : JsValue :=
  VObj [("is_food", VBool false); ("reason", VNum (Fin 7))].

(** An input other than text, or text made only of digits, [.] and [-]:
    the inputs on which stripping the other characters changes nothing. *)
Definition plain_input (v : JsValue) : Prop :=
  match v with
  | VStr s => keep_numeric_chars s = s
  | _ => True
  end.

(** ** Parser *)

(** The text the parser decodes: code-fence markers deleted, then
    trimmed. *)
Definition cleaned (text : string) : string :=
  trim (remove_all false "```" (remove_all true "```json" text)).

Definition empty_response : AIAnalysisResult :=
  Error "Empty response from AI".

Definition cannot_parse : AIAnalysisResult :=
  Error "Could not parse AI response as JSON".

(** A not-food answer wrapped in prose. *)
Definition noisy_text : string :=
  requote "Sure! Here is the analysis: {'is_food': false, 'reason': 'a cat'} Hope that helps!".

(** The same object inside a code fence with a language tag. *)
Definition fenced_text : string :=
  "```json" ++ String (ascii_of_nat 10)
    (requote "{'is_food': false, 'reason': 'a cat'}")
  ++ String (ascii_of_nat 10) "```".

(** A bare JSON answer for an apple. *)
Definition apple_text : string :=
  requote "{'is_food': true, 'name': 'Apple', 'calories': 95, 'protein': 0, 'carbs': 25, 'fats': 0, 'confidence': 'high'}".

(** A food answer wrapped in prose, with a unit in [calories]. *)
Definition rice_text : string :=
  requote "Sure! Here is the analysis: {'name': 'Rice Bowl', 'calories': '420 kcal', 'protein': 18} Hope that helps!".

Definition garbage_text : string := "I cannot process this image.".

(** ** Client *)

(** A status of the client-error range other than the rate-limit one. *)
Definition rejected (response : Response) : bool :=
  Nat.leb 400 (status response) && Nat.ltb (status response) 500
  && negb (Nat.eqb (status response) 429).

(** The models of the calls of a log. *)
Definition models_of (log : list Call) : list string := map call_model log.

Definition returns (fl : Flow) : bool :=
  match fl with Return _ => true | _ => false end.

(** A network on which every call is answered with status 403 and the
    body [null]. *)
Definition forbidden_null : Network :=
  fun _ => Ok {| status := 403; json := Ok VNull |}.

(** A network on which every call is answered with status 403 and the
    body [{"error": {"message": "API key not valid"}}]. *)
Definition forbidden : Network :=
  fun _ => Ok {| status := 403;
                 json := Ok (VObj [("error",
                           VObj [("message", VStr "API key not valid")])]) |}.

(** A network that cannot be reached. *)
Definition unreachable : Network :=
  fun _ => Throw "Network request failed".

(** A success response whose first candidate holds [text]. *)
Definition answer (text : string) : Response :=
  {| status := 200;
     json := Ok (VObj [("candidates",
               VArr [VObj [("content",
                 VObj [("parts", VArr [VObj [("text", VStr text)]])]);
                           ("finishReason", VStr "STOP")]])]) |}.

Definition server_error : Response :=
  {| status := 500; json := Throw "Unexpected end of input" |}.

(** A network whose first two calls fail with status 500 and whose third
    call answers with [fenced_text]. *)
Definition third_time_lucky : Network :=
  fun i => if Nat.ltb i 2 then Ok server_error else Ok (answer fenced_text).

(** A network on which the first model fails with status 500 on its three
    attempts and the next call answers with [apple_text]. *)
Definition first_model_down : Network :=
  fun i => if Nat.ltb i 3 then Ok server_error else Ok (answer apple_text).

(** A network whose first call is refused with status 403 and whose next
    call answers with [apple_text]. *)
Definition first_model_forbidden : Network :=
  fun i => if Nat.eqb i 0 then forbidden 0 else Ok (answer apple_text).

Definition rendered (v : JsValue) : string :=
  match v with VStr s => s | _ => "[object]" end.


Section Decoder.

Variable JSON_parse : string -> Exn JsValue.

(** One decoding attempt: [JSON.parse] and then [handleParsedResponse]. *)
Definition decode (s : string) : Exn AIAnalysisResult :=
  bind (JSON_parse s) handleParsedResponse.

(** The second attempt of the parser on a cleaned text, after the first
    one threw. *)
Definition brace_scan (clean : string) : Exn AIAnalysisResult :=
  match indexOf clean "{", lastIndexOf clean "}" with
  | Some firstBrace, Some lastBrace =>
      if Nat.ltb firstBrace lastBrace then
        try_catch (decode (substring clean firstBrace (lastBrace + 1)))
                  (fun _ => Ok cannot_parse)
      else Ok cannot_parse
  | _, _ => Ok cannot_parse
  end.

(** The outcome the parser yields in an attempt, when the attempt gets as
    far as the parser: the response is a success, its body is JSON, and
    the text found in it is truthy. *)
Definition parser_outcome (fetched : Exn Response)
  : option AIAnalysisResult :=
  match fetched with
  | Ok response =>
      if ok response then
        match json response with
        | Ok data =>
            match textResponse_of data with
            | Ok text =>
                if truthy text then
                  match parseAIResponse JSON_parse text with
                  | Ok r => Some r
                  | Throw _ => None
                  end
                else None
            | Throw _ => None
            end
        | Throw _ => None
        end
      else None
  | Throw _ => None
  end.

(** How an attempt ends, whatever [lastErrorMessage] was. *)
Definition flow_of (fetched : Exn Response) : Flow :=
  snd (attempt JSON_parse fetched VUndefined).

(** None of the first [n] calls ends in a [return]. *)
Definition no_return_before (net : Network) (n : nat) : Prop :=
  forall i, i < n -> returns (flow_of (net i)) = false.

(** What a loop leaves behind: with a result, the last call made is the
    first one that ended in a [return], and it returned that result;
    without one, no call made so far ended in a [return]. *)
Definition settled (net : Network) (st : LoopState)
    (res : option AIAnalysisResult) : Prop :=
  match res with
  | Some r =>
      exists n, List.length (calls st) = S n
                /\ no_return_before net n
                /\ flow_of (net n) = Return r
  | None => no_return_before net (List.length (calls st))
  end.

(** In a log, a call that ended in a [break] is followed only by calls to
    other models. *)
Definition abandoned_after_break (net : Network) (log : list Call) : Prop :=
  forall i j ci cj,
    i < j ->
    nth_error log i = Some ci -> nth_error log j = Some cj ->
    flow_of (net i) = Break ->
    call_model ci <> call_model cj.

End Decoder.

End Props.

(* ===================================================================== *)
(** * The screen that drives the service and the ledger ([src/README.md]) *)
(* ===================================================================== *)

(** The callers of the service and of the ledger hook in the application
    component, without what they do to the display. *)

Module App.
Import JS Nutrition Gemini Storage.
Local Open Scope string_scope.

(** [mealTypeConfig[t].timeRange] of [src/constants/theme.ts]: the hours
    of a meal type, first included, last excluded; [snack] has none. *)
Definition timeRange (t : MealType) : option (nat * nat) :=
  match t with
  | breakfast => Some (5, 11)
  | lunch => Some (11, 15)
  | dinner => Some (17, 22)
  | snack => None
  end.

(** [suggestMealType], from the hour [new Date().getHours()] gives. *)
Definition suggestMealType (hour : nat) : MealType :=
  if Nat.leb 5 hour && Nat.ltb hour 11 then breakfast
  else if Nat.leb 11 hour && Nat.ltb hour 15 then lunch
  else if Nat.leb 17 hour && Nat.ltb hour 22 then dinner
  else snack.

(** The [mealType] that [handleAddManualMeal] works out for itself. *)
Definition manualMealType (hour : nat) : MealType :=
  let mealType := snack in
  if Nat.leb 5 hour && Nat.ltb hour 11 then breakfast
  else if Nat.leb 11 hour && Nat.ltb hour 15 then lunch
  else if Nat.leb 17 hour && Nat.ltb hour 22 then dinner
  else mealType.

(** ** Entering the key *)

(** How [handleComplete] of the onboarding screen ends: it calls
    [onComplete], or shows an error and returns, or is left by what
    [setOnboardingComplete] throws. *)
Inductive Completion : Type :=
  | Completed
  | Refused (shown : JsValue)
  | Rejected.

Definition formatError : string :=
  "Invalid API key format. Should start with "
  ++ String (ascii_of_nat 34) "AIza" ++ String (ascii_of_nat 34) EmptyString.

(** [handleComplete]: the credential store afterwards and how it ends.
    [fetched] is the outcome of the [fetch] of [validateApiKey];
    [save_throws] and [flag_throws] tell whether the write of the key and
    the write of the onboarding flag throw. *)
Definition handleComplete (apiKey : string) (fetched : Exn Response)
    (save_throws flag_throws : bool) (store : SecureStore)
  : SecureStore * Completion :=
  if (trim apiKey =? EmptyString)%string then
    (store, Refused (VStr "Please enter your API key"))
  else if negb (isValidApiKeyFormat apiKey) then
    (store, Refused (VStr formatError))
  else
    let validation := validateApiKey fetched in
    if negb (valid validation) then
      (store,
       Refused (or_else (match error validation with
                         | Some e => e
                         | None => VUndefined
                         end)
                        (VStr "Invalid API key")))
    else
      let '(store', saved) := saveApiKey save_throws apiKey store in
      if negb saved then (store', Refused (VStr "Failed to save API key"))
      else if flag_throws then (store', Rejected)
      else (store', Completed).

(** [handleSaveKey] of the settings screen with [handleApiKeyUpdate]: the
    credential store afterwards and the new [hasApiKey]; [None] when the
    entry is blank and nothing happens. *)
Definition handleSaveKey (apiKey : string) (save_throws read_throws : bool)
    (store : SecureStore) : SecureStore * option bool :=
  if (trim apiKey =? EmptyString)%string then (store, None)
  else
    let key := trim apiKey in
    let store' :=
      if (key =? EmptyString)%string then store
      else fst (saveApiKey save_throws key store) in
    let currentKey := getApiKey (getItemAsync read_throws store') in
    (store',
     Some (match currentKey with
           | Some k => negb (k =? EmptyString)%string
           | None => false
           end)).

(** ** Analysing a photo *)

(** What [analyzeFoodImage] shows. *)
Inductive Alert : Type :=
  | AnalysisError (message : string)
  | NotFoodAlert (message : string)
  | Added (name : string).

(** The meal [analyzeFoodImage] hands to [addMeal]:
    [{ ...result.data, mealType: suggestMealType() }]. *)
Definition acceptedMeal (data : NutritionData) (hour : nat) : NewMeal :=
  {| new_food := data;
     new_mealType := Some (suggestMealType hour);
     new_imageUri := None |}.

(** [analyzeFoodImage]: the entry [addMeal] computes, if it is reached,
    and the alert shown. [store] and [net] are what [analyzeFood] meets;
    [hour], [id] and [now] what the clock and [createMealId] give. *)
Definition analyzeFoodImage (JSON_parse : string -> Exn JsValue)
    (ToString : JsValue -> string)
    (store : Exn (option string)) (net : Network)
    (hour : nat) (id now : string) (data : DailyNutrition)
  : option DailyNutrition * Alert :=
  match fst (analyzeFood JSON_parse ToString store net) with
  | Error message => (None, AnalysisError message)
  | NotFood reason => (None, NotFoodAlert (getNotFoodMessage reason))
  | Food result =>
      (Some (fst (addMeal data (acceptedMeal result hour) id now)),
       Added (name result))
  end.

(** ** Progress towards a goal *)

(** The numeric [*]. *)
Definition times (a b : number) : number :=
  match a, b with
  | NaN, _ | _, NaN => NaN
  | Fin p, Fin q => Fin (Qred (p * q))
  | Fin p, PosInf | PosInf, Fin p =>
      if Qeq_bool p 0 then NaN else if Qle_bool 0 p then PosInf else NegInf
  | Fin p, NegInf | NegInf, Fin p =>
      if Qeq_bool p 0 then NaN else if Qle_bool 0 p then NegInf else PosInf
  | PosInf, PosInf | NegInf, NegInf => PosInf
  | PosInf, NegInf | NegInf, PosInf => NaN
  end.

(** The sign of a finite divisor. [number] does not tell the two zeros
    apart, and a division is the one place where they differ, so
    [minus_zero] tells whether a divisor that is zero is the negative
    zero. *)
Definition negative_divisor (minus_zero : bool) (q : Q) : bool :=
  if Qeq_bool q 0 then minus_zero else negb (Qle_bool 0 q).

(** The numeric [/]. A dividend that is zero counts as the positive zero:
    its sign only shows in the sign of a zero or NaN result. *)
Definition divide (minus_zero : bool) (a b : number) : number :=
  match a, b with
  | NaN, _ | _, NaN => NaN
  | Fin p, Fin q =>
      if Qeq_bool q 0 then
        if Qeq_bool p 0 then NaN
        else if xorb (Qle_bool 0 p) minus_zero then PosInf else NegInf
      else Fin (Qred (p / q))
  | Fin _, PosInf | Fin _, NegInf => zero
  | PosInf, Fin q => if negative_divisor minus_zero q then NegInf else PosInf
  | NegInf, Fin q => if negative_divisor minus_zero q then PosInf else NegInf
  | _, _ => NaN
  end.

(** [Math.min] of two arguments. *)
Definition Math_min (a b : number) : number :=
  match a, b with
  | NaN, _ | _, NaN => NaN
  | NegInf, _ | _, NegInf => NegInf
  | PosInf, x => x
  | x, PosInf => x
  | Fin p, Fin q => if Qle_bool p q then Fin p else Fin q
  end.

(** [getProgress]; [minus_zero] tells whether a [goal] that is zero is
    the negative zero. *)
Definition getProgress (minus_zero : bool) (current goal : number) : number :=
  Math_min (times (divide minus_zero current goal) (Fin 100)) (Fin 100).

End App.

(* ===================================================================== *)
(** * Vocabulary of the further properties *)
(* ===================================================================== *)

Module Terms.
Import JS Json Nutrition Gemini Storage App Props.
Local Open Scope string_scope.

(** ** Text *)

(** A text with a code unit that is not white space. *)
Fixpoint has_visible (s : string) : bool :=
  match s with
  | String c s' => negb (is_space c) || has_visible s'
  | EmptyString => false
  end.

(** ** Texts, by position

    What the string operations of the parser and of the messages are to
    do, said with [++] and the positions of a text, apart from the
    functions of [JS]. *)

(** [p] occurs in [s]. *)
Definition occurs (p s : string) : Prop := exists a b, s = a ++ p ++ b.

(** The white space [trim] removes, by code unit. *)
Definition white (c : ascii) : Prop :=
  In (nat_of_ascii c) [9; 10; 11; 12; 13; 32; 160].

Fixpoint blank (s : string) : Prop :=
  match s with
  | String c s' => white c /\ blank s'
  | EmptyString => True
  end.

(** [t] neither begins nor ends with white space. *)
Definition tight (t : string) : Prop :=
  (forall c r, t = String c r -> ~ white c)
  /\ (forall r c, t = r ++ String c EmptyString -> ~ white c).

(** [t] is [s] without the white space at its two ends. *)
Definition trimmed (s t : string) : Prop :=
  exists a b, s = a ++ t ++ b /\ blank a /\ blank b /\ tight t.

(** A code fence. *)
Definition fence (m : string) : Prop := m = "```".

(** A code fence with the language tag [json], in any case. *)
Definition tagged_fence (m : string) : Prop :=
  exists j s o n,
    m = "```" ++ String j (String s (String o (String n EmptyString)))
    /\ (j = "j" \/ j = "J")%char /\ (s = "s" \/ s = "S")%char
    /\ (o = "o" \/ o = "O")%char /\ (n = "n" \/ n = "N")%char.

(** [t] is [s] with its markers deleted, scanning from the left: where a
    marker begins it is deleted and the scan goes on behind it; a code
    unit is kept only where no marker begins. *)
Inductive without_markers (marker : string -> Prop)
  : string -> string -> Prop :=
  | scan_end : without_markers marker EmptyString EmptyString
  | scan_keep (c : ascii) (s t : string) :
      (forall m rest, marker m -> String c s <> m ++ rest) ->
      without_markers marker s t ->
      without_markers marker (String c s) (String c t)
  | scan_drop (m s t : string) :
      marker m ->
      without_markers marker s t ->
      without_markers marker (m ++ s) t.

(** [clean] is [text] stripped of code-fence markers, with and then
    without the language tag, and of the white space at its ends. *)
Definition stripped (text clean : string) : Prop :=
  exists t1 t2,
    without_markers tagged_fence text t1
    /\ without_markers fence t1 t2
    /\ trimmed t2 clean.

(** [i] is the first position of [s] that holds [c]; [j] is the last
    one; no position holds [c]. *)
Definition first_at (c : ascii) (s : string) (i : nat) : Prop :=
  String.get i s = Some c /\ forall k, k < i -> String.get k s <> Some c.

Definition last_at (c : ascii) (s : string) (j : nat) : Prop :=
  String.get j s = Some c /\ forall k, j < k -> String.get k s <> Some c.

Definition absent (c : ascii) (s : string) : Prop :=
  forall k, String.get k s <> Some c.

(** [t] is the text of [s] from position [i] to position [j], both
    included. *)
Definition slice (s : string) (i j : nat) (t : string) : Prop :=
  exists a b,
    s = a ++ t ++ b /\ String.length a = i /\ String.length (a ++ t) = S j.

(** ** Keywords *)

(** [c] is the small letter [k] or its capital. *)
Definition letter_of (k c : ascii) : Prop :=
  c = k \/ nat_of_ascii c + 32 = nat_of_ascii k.

(** [m] spells the word [kw], in any case. *)
Fixpoint spelled (kw m : string) : Prop :=
  match kw, m with
  | EmptyString, EmptyString => True
  | String k kw', String c m' => letter_of k c /\ spelled kw' m'
  | _, _ => False
  end.

(** [reason] holds the word [kw], in any case. *)
Definition mentions (kw reason : string) : Prop :=
  exists a m b, reason = a ++ m ++ b /\ spelled kw m.

(** A word of small ASCII letters. *)
Fixpoint small_letters (kw : string) : Prop :=
  match kw with
  | String k kw' =>
      97 <= nat_of_ascii k <= 122 /\ small_letters kw'
  | EmptyString => True
  end.

(** The keywords of [getNotFoodMessage] with their messages, in the order
    the function tests them. *)
Definition notFoodTable : list (list string * string) :=
  [ (["blur"; "unclear"], unclearMessage);
    (["person"; "selfie"], personMessage);
    (["text"; "document"; "menu"], documentMessage);
    (["animal"; "pet"], animalMessage);
    (["empty"; "plate"], emptyPlateMessage) ].

(** [message] is the message of the first row of [table] one of whose
    keywords [reason] holds, and the default message when there is no
    such row. *)
Fixpoint first_row (table : list (list string * string))
    (reason message : string) : Prop :=
  match table with
  | [] => message = defaultMessage
  | (keywords, m) :: rest =>
      (Exists (fun kw => mentions kw reason) keywords /\ message = m)
      \/ (Forall (fun kw => ~ mentions kw reason) keywords
          /\ first_row rest reason message)
  end.

(** ** Records *)

(** A number a ledger stores as it is: finite and at least 0. *)
Definition storable (n : number) : Prop :=
  exists q, n = Fin q /\ (0 <= q)%Q.

(** A whole number that is at least 0. *)
Definition whole (n : number) : Prop := nonneg n /\ is_integer n.

(** A food record as the normalizer makes them: a name that is trimmed and
    not empty, whole nutrients, a confidence. *)
Definition well_formed (d : NutritionData) : Prop :=
  name d <> EmptyString
  /\ trim (name d) = name d
  /\ whole (calories (nutrients d))
  /\ whole (protein (nutrients d))
  /\ whole (carbs (nutrients d))
  /\ whole (fats (nutrients d))
  /\ (forall f, fiber d = Some f -> whole f)
  /\ confidence_listed d.

(** A food record that is read back from storage as it was written. *)
Definition storable_food (d : NutritionData) : Prop :=
  trim (name d) <> EmptyString
  /\ trim (name d) = name d
  /\ storable (calories (nutrients d))
  /\ storable (protein (nutrients d))
  /\ storable (carbs (nutrients d))
  /\ storable (fats (nutrients d))
  /\ (forall f, fiber d = Some f -> storable f).

Definition storable_meal (m : Meal) : Prop :=
  trim (meal_id m) <> EmptyString
  /\ trim (timestamp m) <> EmptyString
  /\ storable_food (food m).

Definition storable_entry (e : DailyNutrition) : Prop :=
  Forall storable_meal (meals e)
  /\ storable (calories (totals e))
  /\ storable (protein (totals e))
  /\ storable (carbs (totals e))
  /\ storable (fats (totals e))
  /\ exists w, waterIntake e = Some w /\ storable w.

(** A total that is read back as it is written: a finite number at least
    0, or the sum [calculateMealTotals] gives over the meals, which the
    loader falls back to. *)
Definition settled_total (f : NutritionTotals -> number)
    (e : DailyNutrition) : Prop :=
  storable (f (totals e)) \/ f (totals e) = f (calculateMealTotals (meals e)).

(** An entry as the loader and the mutations leave it: storable meals, a
    storable intake, settled totals. *)
Definition kept_entry (e : DailyNutrition) : Prop :=
  Forall storable_meal (meals e)
  /\ settled_total calories e
  /\ settled_total protein e
  /\ settled_total carbs e
  /\ settled_total fats e
  /\ exists w, waterIntake e = Some w /\ storable w.

(** [l'] is [l] without the meals of id [id], the others in their
    order. *)
Inductive without_id (id : string) : list Meal -> list Meal -> Prop :=
  | without_nil : without_id id [] []
  | without_drop (m : Meal) (l l' : list Meal) :
      meal_id m = id -> without_id id l l' -> without_id id (m :: l) l'
  | without_keep (m : Meal) (l l' : list Meal) :
      meal_id m <> id -> without_id id l l' ->
      without_id id (m :: l) (m :: l').

(** An environment whose generated ids and instants are not blank. *)
Definition env_ok (env : Fresh) : Prop :=
  forall i, trim (createMealId env i) <> EmptyString
            /\ trim (nowISOString env i) <> EmptyString.

(** The updates of an edit keep a meal storable. *)
Definition storable_updates (u : MealUpdates) : Prop :=
  (forall s, set_id u = Some s -> trim s <> EmptyString)
  /\ (forall s, set_timestamp u = Some s -> trim s <> EmptyString)
  /\ (forall s, set_name u = Some s -> trim s <> EmptyString /\ trim s = s)
  /\ (forall n, set_calories u = Some n -> storable n)
  /\ (forall n, set_protein u = Some n -> storable n)
  /\ (forall n, set_carbs u = Some n -> storable n)
  /\ (forall n, set_fats u = Some n -> storable n)
  /\ (forall n, set_fiber u = Some (Some n) -> storable n).

Definition storable_mutation (op : Mutation) : Prop :=
  match op with
  | AddMeal meal id now =>
      storable_food (new_food meal)
      /\ trim id <> EmptyString /\ trim now <> EmptyString
  | UpdateMeal _ updates => storable_updates updates
  | DeleteMeal _ => True
  end.

(** The ids of the meals of an entry, in order. *)
Definition ids (e : DailyNutrition) : list string := map meal_id (meals e).

(** ** Logs *)

(** The calls of [count] attempts on [model], numbered from 0. *)
Definition attempts_on (model : string) (count : nat) : list Call :=
  map (mkCall model) (seq 0 count).

(** The log of a run that made [counts] attempts on the first models of
    [models], in order. *)
Fixpoint log_of (models : list string) (counts : list nat) : list Call :=
  match models, counts with
  | model :: models', count :: counts' =>
      (attempts_on model count ++ log_of models' counts')%list
  | _, _ => []
  end.


(** The fixed messages of [getNotFoodMessage]. *)
Definition notFoodMessages : list string :=
  [defaultMessage; unclearMessage; personMessage; documentMessage;
   animalMessage; emptyPlateMessage].

(** ** Inputs *)

Definition good_key : string := "  AIzaSyA-1234567890abcdefghijklmnop ".

Definition salad : NutritionData :=
  {| nutrients := mkTotals (Fin 320) (Fin 12) (Fin 30) (Fin 18);
     name := "Greek Salad";
     serving_size := Some "1 bowl";
     fiber := Some (Fin 6);
     confidence := Some medium;
     notes := None |}.

(** The entry of [a_day] after its first two mutations. *)
Definition two_meals : DailyNutrition :=
  mutate (mutate initialDailyNutrition
            (AddMeal apple "m1" "2024-05-01T08:00:00.000Z"))
         (AddMeal rice "m2" "2024-05-01T12:30:00.000Z").

(** A meal of [salad], as [addMeal] receives it. *)
Definition salad_meal : NewMeal :=
  {| new_food := salad; new_mealType := Some dinner; new_imageUri := None |}.

(** An entry that is not blank and has not the format of a key. *)
Definition bad_key : string := " my gemini key ".

(** The response of a [fetch] that succeeded. *)
Definition accepted : Response := {| status := 200; json := Ok (VObj []) |}.

(** Days as texts, and a storage that holds [stale_entry_text] for day 10
    and nothing for any other day. *)
Definition day_text (day : Z) : string :=
  "Day " ++ nat_to_string (Z.to_nat day).

Definition week_store (key : string) : Exn (option string) :=
  if (key =? "nutrition_Day 10")%string then Ok (Some stale_entry_text)
  else Ok None.

(** Stored goals that set two of the five keys. *)
Definition goals_text : string :=
  requote "{'calories': 1800, 'waterGoal': 3000}".

End Terms.

(* ===================================================================== *)
(** * Properties of the ledger *)
(* ===================================================================== *)

Module LedgerProofs.
Import JS Json Nutrition Storage Props.

Lemma fold_left_map {A B C : Type} (g : C -> B -> C) (h : A -> B)
    (l : list A) (c : C) :
  fold_left g (map h l) c = fold_left (fun acc x => g acc (h x)) l c.
Proof.
  revert c. induction l as [|x l IH]; intros c; simpl; [reflexivity|].
  apply IH.
Qed.

(** The reduction of [calculateMealTotals] from any accumulator runs the
    four sums side by side. *)
Lemma totals_fold (l : list Meal) (acc : NutritionTotals) :
  fold_left
    (fun acc meal =>
       {| calories := add (calories acc)
                          (or_zero (calories (nutrients (food meal))));
          protein := add (protein acc)
                         (or_zero (protein (nutrients (food meal))));
          carbs := add (carbs acc) (or_zero (carbs (nutrients (food meal))));
          fats := add (fats acc) (or_zero (fats (nutrients (food meal)))) |})
    l acc
  = {| calories :=
         fold_left (fun a m => add a (or_zero (calories (nutrients (food m)))))
                   l (calories acc);
       protein :=
         fold_left (fun a m => add a (or_zero (protein (nutrients (food m)))))
                   l (protein acc);
       carbs :=
         fold_left (fun a m => add a (or_zero (carbs (nutrients (food m)))))
                   l (carbs acc);
       fats :=
         fold_left (fun a m => add a (or_zero (fats (nutrients (food m)))))
                   l (fats acc) |}.
Proof.
  revert acc. induction l as [|m l IH]; intros acc; simpl.
  - destruct acc; reflexivity.
  - rewrite IH. reflexivity.
Qed.

Lemma calculateMealTotals_sums (l : list Meal) :
  calculateMealTotals l
  = {| calories := nutrient_sum calories l;
       protein := nutrient_sum protein l;
       carbs := nutrient_sum carbs l;
       fats := nutrient_sum fats l |}.
Proof.
  unfold calculateMealTotals, nutrient_sum, sum_list.
  rewrite totals_fold, !fold_left_map. reflexivity.
Qed.

Lemma recomputed_consistent (l : list Meal) (w : option number) :
  consistent {| totals := calculateMealTotals l; meals := l;
                waterIntake := w |}.
Proof.
  unfold consistent; simpl. rewrite calculateMealTotals_sums; simpl.
  repeat split.
Qed.

Lemma mutate_consistent (data : DailyNutrition) (op : Mutation) :
  consistent (mutate data op)
  /\ waterIntake (mutate data op) = waterIntake data.
Proof.
  destruct op; simpl; split;
    solve [apply recomputed_consistent | reflexivity].
Qed.

(** Reading a term with [|| 0] changes the sum only at a NaN term. *)
Lemma add_or_zero (a x : number) : x <> NaN -> add a (or_zero x) = add a x.
Proof.
  intros Hx. unfold or_zero, number_truthy.
  destruct x as [q| | |]; try reflexivity; [|contradiction].
  destruct (Qeq_bool q 0) eqn:E; [|reflexivity].
  apply Qeq_bool_eq in E.
  destruct a as [p| | |]; try reflexivity.
  cbn [negb add zero]. f_equal. apply Qred_complete. rewrite E. reflexivity.
Qed.

Lemma nutrient_sum_plain (f : NutritionTotals -> number) (l : list Meal) :
  Forall (fun m => f (nutrients (food m)) <> NaN) l ->
  nutrient_sum f l = plain_sum f l.
Proof.
  unfold nutrient_sum, plain_sum, sum_list. rewrite !fold_left_map.
  generalize zero. induction l as [|m l IH]; intros a H; simpl.
  - reflexivity.
  - inversion H as [|? ? Hm Hl]; subst.
    rewrite add_or_zero by exact Hm. apply IH, Hl.
Qed.

Lemma consistent_plainly (e : DailyNutrition) :
  consistent e -> Forall numeric_meal (meals e) -> plainly_consistent e.
Proof.
  intros (Hc & Hp & Hb & Hf) Hm. unfold plainly_consistent.
  rewrite Hc, Hp, Hb, Hf.
  repeat split; apply nutrient_sum_plain;
    (eapply Forall_impl; [|exact Hm]); intros m (H1 & H2 & H3 & H4);
    assumption.
Qed.

(** C1. Take any entry and any sequence of [addMeal], [updateMeal] and
    [deleteMeal] mutations, each applied to the entry the hook holds after
    the ones before it, whether or not their writes went through. The entry
    every mutation produces has its [calories] equal to the sum of the
    calories of its meals, as [calculateMealTotals] adds them up, likewise
    its [protein], [carbs] and [fats], and it carries the [waterIntake] of
    the entry the sequence started from. Where no meal of the entry has NaN
    for a nutrient, these sums are the plain sums of the nutrient over the
    meals. *)
Theorem mutations_keep_totals_consistent
    (data : DailyNutrition) (ops : list (Mutation * bool)) :
  Forall (fun e => consistent e
                   /\ totals e = calculateMealTotals (meals e)
                   /\ waterIntake e = waterIntake data
                   /\ (Forall numeric_meal (meals e) ->
                       plainly_consistent e))
         (history data ops).
Proof.
  revert data. induction ops as [|[op written] ops IH]; intros data; simpl.
  - constructor.
  - destruct (mutate_consistent data op) as [Hc Hw].
    constructor.
    + split; [exact Hc|]. split; [destruct op; reflexivity|].
      split; [exact Hw|]. apply consistent_plainly, Hc.
    + specialize (IH (save written data (mutate data op))).
      rewrite Forall_forall in IH |- *. intros e He.
      destruct (IH e He) as (H1 & H2 & H3 & H4).
      split; [exact H1|]. split; [exact H2|]. split; [|exact H4].
      rewrite H3. destruct written; [exact Hw | reflexivity].
Qed.

(** The entry the hook holds stays consistent through any sequence of
    mutations once it is consistent, and is consistent after any mutation
    whose write went through. *)
Lemma save_consistent (data : DailyNutrition) (op : Mutation)
    (written : bool) :
  consistent data \/ written = true ->
  consistent (save written data (mutate data op)).
Proof.
  intros H. destruct written; cbn [save].
  - apply mutate_consistent.
  - destruct H as [H|H]; [exact H | discriminate].
Qed.

(** After the four mutations of [a_day] on the initial entry, one meal of
    100 kcal is left and the totals are its nutrients. *)
Lemma mutations_keep_totals_consistent_witness :
  plainly_consistent after_a_day /\ calories (totals after_a_day) = Fin 100.
Proof.
  split; [|vm_compute; reflexivity].
  pose proof (mutations_keep_totals_consistent initialDailyNutrition a_day)
    as H.
  rewrite Forall_forall in H.
  assert (Hin : In after_a_day (history initialDailyNutrition a_day)).
  { right. right. right. left. reflexivity. }
  destruct (H after_a_day Hin) as (_ & _ & _ & Hplain). apply Hplain.
  repeat constructor; vm_compute; discriminate.
Defined.

(** ** Loading *)

Local Open Scope string_scope.

Lemma ensureNumberDaily_loaded (v : JsValue) (sum : number) :
  ensureNumberDaily v sum = loaded_total v sum.
Proof.
  unfold ensureNumberDaily, loaded_total, stored_finite.
  destruct v as [| | |n| | |]; try reflexivity.
  destruct (Number_isFinite n); reflexivity.
Qed.

(** On a value that is not a non-null object every property reads as
    [undefined]. *)
Lemma field_of_non_object (v : JsValue) (key : string) :
  negb (truthy v) || negb (is_object_type v) = true ->
  field v key = VUndefined.
Proof.
  destruct v; simpl; intros H; try reflexivity; discriminate.
Qed.

(** C2, as the code has it. For every stored value, each aggregate of the
    entry [normalizeDailyNutrition] produces is the sum over the entry's
    normalized meals exactly when the stored value holds no finite number
    under that aggregate; when it holds one, the aggregate is that number
    floored at 0, whatever the meals add up to. *)
Theorem loaded_totals_prefer_stored (env : Fresh) (input : JsValue) :
  let e := normalizeDailyNutrition env input in
  calories (totals e)
    = loaded_total (field input "calories") (nutrient_sum calories (meals e))
  /\ protein (totals e)
    = loaded_total (field input "protein") (nutrient_sum protein (meals e))
  /\ carbs (totals e)
    = loaded_total (field input "carbs") (nutrient_sum carbs (meals e))
  /\ fats (totals e)
    = loaded_total (field input "fats") (nutrient_sum fats (meals e)).
Proof.
  unfold normalizeDailyNutrition.
  destruct (negb (truthy input) || negb (is_object_type input)) eqn:E.
  - cbv zeta. rewrite !(field_of_non_object _ _ E).
    repeat split.
  - cbv zeta. cbn [totals meals calories protein carbs fats].
    rewrite !ensureNumberDaily_loaded, calculateMealTotals_sums.
    repeat split.
Qed.

(** C2 fails as stated: loading the stored text [stale_entry_text] gives an
    entry with one meal of 95 kcal and a [calories] total of 500. *)
Lemma loaded_totals_can_differ_from_meals :
  Json.parse stale_entry_text = Ok stale_entry
  /\ let e := load Json.parse sample_env (Ok (Some stale_entry_text)) in
     e = normalizeDailyNutrition sample_env stale_entry
     /\ map (fun m => calories (nutrients (food m))) (meals e) = [Fin 95]
     /\ calories (totals e) = Fin 500
     /\ nutrient_sum calories (meals e) = Fin 95
     /\ ~ num_eq (calories (totals e)) (nutrient_sum calories (meals e))
     /\ ~ consistent e.
Proof.
  assert (P : Json.parse stale_entry_text = Ok stale_entry)
    by (vm_compute; reflexivity).
  split; [exact P|].
  assert (L : load Json.parse sample_env (Ok (Some stale_entry_text))
              = normalizeDailyNutrition sample_env stale_entry).
  { unfold load. cbn [bind catch_default].
    rewrite P. vm_compute. reflexivity. }
  cbv zeta. rewrite L.
  split; [reflexivity|].
  split; [vm_compute; reflexivity|].
  split; [vm_compute; reflexivity|].
  split; [vm_compute; reflexivity|].
  split.
  - vm_compute. discriminate.
  - intros [H _]. vm_compute in H. discriminate.
Qed.

End LedgerProofs.

(* ===================================================================== *)
(** * Properties of the response normalizer *)
(* ===================================================================== *)

Module NormalizerProofs.
Import JS Json Nutrition Gemini Props.
Local Open Scope string_scope.

Lemma clamp_round_nonneg (n : number) :
  Number_isFinite n = true -> nonneg (Math_max zero (Math_round n)).
Proof.
  destruct n as [q| | |]; try discriminate. intros _.
  unfold Math_round, Math_max, zero.
  destruct (Qle_bool 0 (inject_Z (Qfloor (q + (1 # 2))))) eqn:E; simpl.
  - apply Qle_bool_iff, E.
  - apply Qle_refl.
Qed.

Lemma clamp_round_integer (n : number) :
  Number_isFinite n = true -> is_integer (Math_max zero (Math_round n)).
Proof.
  destruct n as [q| | |]; try discriminate. intros _.
  unfold Math_round, Math_max, zero.
  destruct (Qle_bool 0 (inject_Z (Qfloor (q + (1 # 2))))); cbn [is_integer].
  - rewrite Qfloor_Z. reflexivity.
  - reflexivity.
Qed.

Lemma toNumber_nonneg (v : JsValue) : nonneg (toNumber v zero).
Proof.
  unfold toNumber. destruct v as [| | |n|s| |]; try apply Qle_refl.
  - destruct (Number_isFinite n) eqn:E;
      [apply clamp_round_nonneg, E | apply Qle_refl].
  - destruct (Number_isFinite (StringToNumber (keep_numeric_chars s))) eqn:E;
      [apply clamp_round_nonneg, E | apply Qle_refl].
Qed.

(** The normalizer yields whole numbers. *)
Lemma toNumber_integer (v : JsValue) : is_integer (toNumber v zero).
Proof.
  unfold toNumber. destruct v as [| | |n|s| |]; try reflexivity.
  - destruct (Number_isFinite n) eqn:E;
      [apply clamp_round_integer, E | reflexivity].
  - destruct (Number_isFinite (StringToNumber (keep_numeric_chars s))) eqn:E;
      [apply clamp_round_integer, E | reflexivity].
Qed.

Lemma field_is_string_object (v : JsValue) (key s : string) :
  field v key = VStr s -> exists fields, v = VObj fields.
Proof.
  destruct v; simpl; try discriminate. intros _. eexists; reflexivity.
Qed.

Lemma field_is_bool_object (v : JsValue) (key : string) (b : bool) :
  field v key = VBool b -> exists fields, v = VObj fields.
Proof.
  destruct v; simpl; try discriminate. intros _. eexists; reflexivity.
Qed.

Lemma nonempty_length (s : string) : s <> EmptyString -> Nat.ltb 0 (String.length s) = true.
Proof. destruct s; [congruence | reflexivity]. Qed.

Lemma nonempty_eqb (s : string) : s <> EmptyString -> (s =? EmptyString)%string = false.
Proof. intros H. apply String.eqb_neq, H. Qed.

Lemma trim_nonempty (s : string) : trim s <> EmptyString -> s <> EmptyString.
Proof. intros H E. subst s. apply H. reflexivity. Qed.

Lemma normalized_record (fields : list (string * JsValue)) (s : string) :
  obj_get fields "name" = VStr s -> trim s <> EmptyString ->
  exists d, normalizeNutritionData (VObj fields) = Some d
            /\ name d = trim s /\ nonneg_fields d /\ confidence_listed d.
Proof.
  intros Hname Htrim. unfold normalizeNutritionData.
  cbn [truthy is_object_type negb orb field]. rewrite Hname.
  rewrite (nonempty_length _ Htrim), (nonempty_eqb _ Htrim).
  eexists. split; [reflexivity|]. split; [reflexivity|]. split.
  - unfold nonneg_fields. cbn [nutrients calories protein carbs fats fiber].
    repeat split; try apply toNumber_nonneg.
    intros f Hf.
    assert (E : exists v, f = toNumber v zero).
    { destruct (obj_get fields "fiber") as [| |b|n|t|l|o];
        [discriminate Hf | ..];
        match type of Hf with Some (toNumber ?v _) = _ => exists v end;
        congruence. }
    destruct E as [v ->]. apply toNumber_nonneg.
  - unfold confidence_listed. cbn [confidence].
    destruct (confidence_of (obj_get fields "confidence")) as [[| |]|]; auto.
Qed.

(** C3. Whenever the [name] of the input is text that is not empty once
    trimmed, and its [is_food] is not [false], [handleParsedResponse]
    returns a food outcome; in its record [calories], [protein], [carbs],
    [fats], and [fiber] when present, are at least 0, and [confidence] is
    one of [high], [medium], [low]. *)
Theorem named_input_is_food (parsed : JsValue) (s : string) :
  field parsed "name" = VStr s ->
  trim s <> EmptyString ->
  field parsed "is_food" <> VBool false ->
  exists d, handleParsedResponse parsed = Ok (Food d)
            /\ name d = trim s /\ nonneg_fields d /\ confidence_listed d.
Proof.
  intros Hname Htrim Hflag.
  destruct (field_is_string_object _ _ _ Hname) as [fields ->].
  cbn [field] in Hname, Hflag.
  destruct (normalized_record fields s Hname Htrim) as (d & Hd & Hrest).
  exists d. split; [|exact Hrest].
  unfold handleParsedResponse. cbn [member bind field].
  assert (F : is_false (obj_get fields "is_food") = false).
  { destruct (obj_get fields "is_food") as [| |[|]| | | |];
      try reflexivity. congruence. }
  rewrite F, Hname, Hd.
  replace (truthy (VStr s)) with true.
  - rewrite orb_true_r. reflexivity.
  - cbn [truthy]. rewrite (nonempty_eqb s (trim_nonempty s Htrim)).
    reflexivity.
Qed.

Lemma named_input_is_food_witness :
  exists d, handleParsedResponse rice_bowl = Ok (Food d)
            /\ name d = trim " Rice Bowl "
            /\ nonneg_fields d /\ confidence_listed d.
Proof.
  apply (named_input_is_food rice_bowl " Rice Bowl ").
  - reflexivity.
  - vm_compute. discriminate.
  - vm_compute. discriminate.
Defined.

(** C8. Whenever the [is_food] of the input is [false],
    [handleParsedResponse] returns a not-food outcome: its reason is the
    input's [reason] when that is text, and the fixed default otherwise. *)
Theorem explicit_not_food (parsed : JsValue) :
  field parsed "is_food" = VBool false ->
  (forall s, field parsed "reason" = VStr s ->
             handleParsedResponse parsed = Ok (NotFood s))
  /\ ((forall s, field parsed "reason" <> VStr s) ->
      handleParsedResponse parsed = Ok (NotFood default_reason)).
Proof.
  intros Hflag.
  destruct (field_is_bool_object _ _ _ Hflag) as [fields ->].
  cbn [field] in *.
  unfold handleParsedResponse. cbn [member bind field]. rewrite Hflag.
  cbn [is_false]. split.
  - intros s Hs. rewrite Hs. reflexivity.
  - intros Hs. destruct (obj_get fields "reason") as [| | | |s| |];
      try reflexivity.
    exfalso. apply (Hs s). reflexivity.
Qed.

Lemma explicit_not_food_witness :
  handleParsedResponse a_cat = Ok (NotFood "a cat")
  /\ handleParsedResponse no_reason = Ok (NotFood default_reason).
Proof.
  split.
  - apply (proj1 (explicit_not_food a_cat eq_refl) "a cat"). reflexivity.
  - apply (proj2 (explicit_not_food no_reason eq_refl)).
    intros s. vm_compute. discriminate.
Defined.

End NormalizerProofs.

(* ===================================================================== *)
(** * The string operations against what they are to do *)
(* ===================================================================== *)

(** [trim], the two deletions of the parser, [indexOf], [lastIndexOf],
    [substring] and [includes] on a lower-case form, each against its
    description in [Terms]. *)

Module TextSpecProofs.
Import JS Props Terms.
Local Open Scope string_scope.

(** ** Appending *)

Lemma str_app_nil (s : string) : s ++ EmptyString = s.
Proof. induction s as [|c s IH]; cbn; [|rewrite IH]; reflexivity. Qed.

Lemma str_app_length (a b : string) :
  String.length (a ++ b) = String.length a + String.length b.
Proof. induction a as [|x a IH]; cbn; [|rewrite IH]; reflexivity. Qed.

Lemma str_app_empty (a b : string) :
  a ++ b = EmptyString -> a = EmptyString /\ b = EmptyString.
Proof. destruct a; cbn; [auto | discriminate]. Qed.

(** ** White space *)

Lemma is_space_white (c : ascii) : is_space c = true <-> white c.
Proof.
  unfold is_space, white. cbn [In]. split.
  - intros H.
    repeat (apply orb_prop in H as [H|H]);
      apply Nat.eqb_eq in H; rewrite H; tauto.
  - intros H.
    repeat (destruct H as [H|H]; [rewrite <- H; reflexivity|]).
    contradiction.
Qed.

Lemma not_white_space (c : ascii) : ~ white c -> is_space c = false.
Proof.
  intros H. destruct (is_space c) eqn:E; [|reflexivity].
  exfalso. apply H, is_space_white, E.
Qed.

Lemma trimStart_blank (a u : string) :
  blank a -> trimStart (a ++ u) = trimStart u.
Proof.
  induction a as [|c a IH]; cbn [append blank trimStart]; [reflexivity|].
  intros [Hc Ha]. rewrite (proj2 (is_space_white c) Hc). apply IH, Ha.
Qed.

Lemma trimEnd_blank (b : string) : blank b -> trimEnd b = EmptyString.
Proof.
  induction b as [|c b IH]; cbn [blank trimEnd]; [reflexivity|].
  intros [Hc Hb]. rewrite (IH Hb), (proj2 (is_space_white c) Hc).
  reflexivity.
Qed.

Lemma trimEnd_app_blank (t b : string) :
  blank b -> trimEnd (t ++ b) = trimEnd t.
Proof.
  intros Hb. induction t as [|c t IH]; cbn [append trimEnd].
  - apply trimEnd_blank, Hb.
  - rewrite IH. reflexivity.
Qed.

Lemma trimEnd_tight (t : string) :
  (forall r c, t = r ++ String c EmptyString -> ~ white c) ->
  trimEnd t = t.
Proof.
  induction t as [|c t IH]; intros H; cbn [trimEnd]; [reflexivity|].
  rewrite IH.
  - destruct t as [|d t].
    + rewrite (not_white_space c (H EmptyString c eq_refl)). reflexivity.
    + rewrite andb_false_r. reflexivity.
  - intros r d E. apply (H (String c r) d). rewrite E. reflexivity.
Qed.

(** [trimStart] takes a blank start away and leaves a text that does not
    begin with white space. *)
Lemma trimStart_split (s : string) :
  exists a,
    s = a ++ trimStart s /\ blank a
    /\ forall c r, trimStart s = String c r -> ~ white c.
Proof.
  induction s as [|c s (a & Hs & Ha & Hfirst)]; cbn [trimStart].
  - exists EmptyString. split; [reflexivity|]. split; [exact I|].
    discriminate.
  - destruct (is_space c) eqn:E.
    + exists (String c a). cbn [append blank]. rewrite <- Hs.
      split; [reflexivity|].
      split; [split; [apply is_space_white, E | exact Ha]|].
      exact Hfirst.
    + exists EmptyString. split; [reflexivity|]. split; [exact I|].
      intros d r H. injection H as <- _. intros W.
      apply is_space_white in W. congruence.
Qed.

(** [trimEnd] takes a blank end away and leaves a text that does not end
    with white space. *)
Lemma trimEnd_split (s : string) :
  exists b,
    s = trimEnd s ++ b /\ blank b
    /\ forall r c, trimEnd s = r ++ String c EmptyString -> ~ white c.
Proof.
  induction s as [|c s (b & Hs & Hb & Hlast)]; cbn [trimEnd].
  - exists EmptyString. split; [reflexivity|]. split; [exact I|].
    intros r c H. symmetry in H. apply str_app_empty in H as [_ H].
    discriminate H.
  - destruct (is_space c && (trimEnd s =? EmptyString)) eqn:E.
    + apply andb_prop in E as [Ec Et]. apply String.eqb_eq in Et.
      exists (String c s). cbn [append blank]. split; [reflexivity|].
      split.
      * split; [apply is_space_white, Ec|].
        rewrite Hs, Et. exact Hb.
      * intros r d H. symmetry in H. apply str_app_empty in H as [_ H].
        discriminate H.
    + exists b. cbn [append]. rewrite <- Hs.
      split; [reflexivity|]. split; [exact Hb|].
      intros r d H. destruct r as [|x r]; cbn [append] in H.
      * injection H as -> Ht. rewrite Ht in E. cbn in E.
        rewrite andb_true_r in E. intros W.
        apply is_space_white in W. congruence.
      * injection H as _ Ht. apply (Hlast r d Ht).
Qed.

Lemma trim_trimmed (s : string) : trimmed s (trim s).
Proof.
  destruct (trimStart_split s) as (a & Hs & Ha & Hfirst).
  destruct (trimEnd_split (trimStart s)) as (b & Ht & Hb & Hlast).
  exists a, b. unfold trim. split; [rewrite <- Ht; exact Hs|].
  split; [exact Ha|]. split; [exact Hb|]. split; [|exact Hlast].
  intros c r H. apply (Hfirst c (r ++ b)). rewrite Ht, H. reflexivity.
Qed.

Lemma trimmed_trim (s t : string) : trimmed s t -> t = trim s.
Proof.
  intros (a & b & -> & Ha & Hb & Hfirst & Hlast). unfold trim.
  rewrite (trimStart_blank a _ Ha).
  destruct t as [|c r].
  - cbn [append].
    rewrite <- (str_app_nil b), (trimStart_blank b EmptyString Hb).
    reflexivity.
  - cbn [append trimStart].
    rewrite (not_white_space c (Hfirst c r eq_refl)).
    change (String c (r ++ b)) with (String c r ++ b).
    rewrite (trimEnd_app_blank _ b Hb). symmetry.
    apply trimEnd_tight, Hlast.
Qed.

(** ** Deleting markers *)

Section Scan.

Variable ci : bool.
Variable p : string.
Variable marker : string -> Prop.

Hypothesis marker_length :
  forall m, marker m -> String.length m = String.length p.
Hypothesis pattern_not_empty : 1 <= String.length p.
Hypothesis matches_marker :
  forall s, matches_at ci p s = true
            <-> exists m rest, s = m ++ rest /\ marker m.

Lemma skip_app (a s : string) :
  remove_all_from ci p (String.length a) (a ++ s)
  = remove_all_from ci p 0 s.
Proof.
  induction a as [|c a IH]; cbn [append String.length remove_all_from].
  - destruct s; reflexivity.
  - exact IH.
Qed.

Lemma remove_marker (m s : string) :
  marker m -> remove_all ci p (m ++ s) = remove_all ci p s.
Proof.
  intros Hm. pose proof (marker_length m Hm) as Hl.
  destruct m as [|c m]; cbn [String.length] in Hl; [lia|].
  unfold remove_all. cbn [append remove_all_from].
  change (String c (m ++ s)) with (String c m ++ s).
  rewrite (proj2 (matches_marker (String c m ++ s)))
    by (exists (String c m), s; auto).
  replace (String.length p - 1) with (String.length m) by lia.
  apply skip_app.
Qed.

Lemma remove_kept (c : ascii) (s : string) :
  (forall m rest, marker m -> String c s <> m ++ rest) ->
  remove_all ci p (String c s) = String c (remove_all ci p s).
Proof.
  intros H. unfold remove_all. cbn [remove_all_from].
  destruct (matches_at ci p (String c s)) eqn:E; [|reflexivity].
  exfalso. apply matches_marker in E as (m & rest & E & Hm).
  apply (H m rest Hm E).
Qed.

(** What the spec deletes is what [remove_all] deletes. *)
Lemma scan_is_remove_all (s t : string) :
  without_markers marker s t -> t = remove_all ci p s.
Proof.
  induction 1 as [|c s t Hno _ IH|m s t Hm _ IH].
  - reflexivity.
  - rewrite (remove_kept c s Hno), IH. reflexivity.
  - rewrite (remove_marker m s Hm). exact IH.
Qed.

Lemma remove_all_scans_bounded (n : nat) :
  forall s, String.length s <= n ->
            without_markers marker s (remove_all ci p s).
Proof.
  induction n as [|n IH]; intros s Hn.
  - destruct s; cbn in Hn; [apply scan_end | lia].
  - destruct s as [|c s]; [apply scan_end|]. cbn [String.length] in Hn.
    destruct (matches_at ci p (String c s)) eqn:E.
    + apply matches_marker in E as (m & rest & E & Hm).
      rewrite E, (remove_marker m rest Hm).
      apply scan_drop; [exact Hm|]. apply IH.
      pose proof (marker_length m Hm) as Hl.
      assert (L : String.length (String c s) = String.length (m ++ rest))
        by (rewrite E; reflexivity).
      rewrite str_app_length in L. cbn [String.length] in L. lia.
    + assert (Hno : forall m rest, marker m -> String c s <> m ++ rest).
      { intros m rest Hm Heq.
        assert (X : matches_at ci p (String c s) = true)
          by (apply matches_marker; exists m, rest; auto).
        congruence. }
      rewrite (remove_kept c s Hno).
      apply scan_keep; [exact Hno | apply IH; lia].
Qed.

Lemma remove_all_scans (s : string) :
  without_markers marker s (remove_all ci p s).
Proof. apply (remove_all_scans_bounded (String.length s)). lia. Qed.

End Scan.

(** *** The two markers of the parser *)

Lemma matches_exactly (p s : string) :
  matches_at false p s = true <-> exists rest, s = p ++ rest.
Proof.
  revert s. induction p as [|a p IH]; intros s; cbn [matches_at append].
  - split; [intros _; exists s; reflexivity | reflexivity].
  - destruct s as [|b s].
    + split; [discriminate | intros [rest H]; discriminate H].
    + rewrite andb_true_iff, Ascii.eqb_eq, IH. split.
      * intros [-> [rest ->]]. exists rest. reflexivity.
      * intros [rest H]. injection H as -> ->. split; [reflexivity|].
        exists rest. reflexivity.
Qed.

Lemma matches_fence (s : string) :
  matches_at false "```" s = true
  <-> exists m rest, s = m ++ rest /\ fence m.
Proof.
  rewrite matches_exactly. unfold fence. split.
  - intros [rest ->]. exists "```", rest. auto.
  - intros (m & rest & -> & ->). exists rest. reflexivity.
Qed.

Lemma upper_backtick (c : ascii) :
  Ascii.eqb (to_upper "`") (to_upper c) = true <-> c = "`"%char.
Proof.
  split; [|intros ->; reflexivity].
  destruct c as [[] [] [] [] [] [] [] []]; vm_compute; intros H;
    try discriminate H; reflexivity.
Qed.

Lemma upper_j (c : ascii) :
  Ascii.eqb (to_upper "j") (to_upper c) = true
  <-> (c = "j" \/ c = "J")%char.
Proof.
  split; [|intros [->| ->]; reflexivity].
  destruct c as [[] [] [] [] [] [] [] []]; vm_compute; intros H;
    try discriminate H; auto.
Qed.

Lemma upper_s (c : ascii) :
  Ascii.eqb (to_upper "s") (to_upper c) = true
  <-> (c = "s" \/ c = "S")%char.
Proof.
  split; [|intros [->| ->]; reflexivity].
  destruct c as [[] [] [] [] [] [] [] []]; vm_compute; intros H;
    try discriminate H; auto.
Qed.

Lemma upper_o (c : ascii) :
  Ascii.eqb (to_upper "o") (to_upper c) = true
  <-> (c = "o" \/ c = "O")%char.
Proof.
  split; [|intros [->| ->]; reflexivity].
  destruct c as [[] [] [] [] [] [] [] []]; vm_compute; intros H;
    try discriminate H; auto.
Qed.

Lemma upper_n (c : ascii) :
  Ascii.eqb (to_upper "n") (to_upper c) = true
  <-> (c = "n" \/ c = "N")%char.
Proof.
  split; [|intros [->| ->]; reflexivity].
  destruct c as [[] [] [] [] [] [] [] []]; vm_compute; intros H;
    try discriminate H; auto.
Qed.

Lemma matches_tagged_fence (s : string) :
  matches_at true "```json" s = true
  <-> exists m rest, s = m ++ rest /\ tagged_fence m.
Proof.
  split.
  - destruct s as [|c1 [|c2 [|c3 [|c4 [|c5 [|c6 [|c7 rest]]]]]]];
      cbn [matches_at]; rewrite ?andb_false_r; try discriminate.
    rewrite !andb_true_iff, !upper_backtick, upper_j, upper_s, upper_o,
      upper_n.
    intros (-> & -> & -> & Hj & Hs & Ho & Hn & _).
    exists (String "`" (String "`" (String "`"
              (String c4 (String c5 (String c6 (String c7 EmptyString))))))),
           rest.
    split; [reflexivity|]. exists c4, c5, c6, c7. auto.
  - intros (m & rest & -> & j & s' & o & n & -> & Hj & Hs & Ho & Hn).
    cbn [append matches_at].
    rewrite !andb_true_iff, !upper_backtick, upper_j, upper_s, upper_o,
      upper_n.
    auto 10.
Qed.

Lemma tagged_fence_length (m : string) :
  tagged_fence m -> String.length m = String.length "```json".
Proof. intros (j & s & o & n & -> & _). reflexivity. Qed.

Lemma fence_length (m : string) :
  fence m -> String.length m = String.length "```".
Proof. intros ->. reflexivity. Qed.

(** The text the parser decodes is the stripped text, and no other text
    is. *)
Lemma cleaned_stripped (text : string) : stripped text (cleaned text).
Proof.
  exists (remove_all true "```json" text),
         (remove_all false "```" (remove_all true "```json" text)).
  split; [|split].
  - apply remove_all_scans;
      [apply tagged_fence_length | cbn; lia | apply matches_tagged_fence].
  - apply remove_all_scans;
      [apply fence_length | cbn; lia | apply matches_fence].
  - apply trim_trimmed.
Qed.

Lemma stripped_cleaned (text clean : string) :
  stripped text clean -> clean = cleaned text.
Proof.
  intros (t1 & t2 & H1 & H2 & H3). unfold cleaned.
  apply (scan_is_remove_all true "```json" tagged_fence
           tagged_fence_length ltac:(cbn; lia) matches_tagged_fence)
    in H1.
  apply (scan_is_remove_all false "```" fence
           fence_length ltac:(cbn; lia) matches_fence) in H2.
  subst t1 t2. apply trimmed_trim, H3.
Qed.

(** ** Positions *)

Lemma absent_tail (c d : ascii) (s : string) :
  absent c (String d s) -> absent c s.
Proof. intros H k. apply (H (S k)). Qed.

Lemma absent_indexOf (s : string) (c : ascii) :
  absent c s <-> indexOf s c = None.
Proof.
  induction s as [|d s IH]; cbn [indexOf].
  - split; [reflexivity | intros _ k; discriminate].
  - destruct (Ascii.eqb d c) eqn:E.
    + apply Ascii.eqb_eq in E. subst d. split; [|discriminate].
      intros H. exfalso. apply (H 0). reflexivity.
    + apply Ascii.eqb_neq in E. split.
      * intros H. rewrite (proj1 IH (absent_tail c d s H)). reflexivity.
      * destruct (indexOf s c); [discriminate|]. intros _ [|k]; cbn.
        -- congruence.
        -- apply (proj2 IH eq_refl).
Qed.

Lemma first_at_indexOf (s : string) (c : ascii) (i : nat) :
  first_at c s i <-> indexOf s c = Some i.
Proof.
  revert i. induction s as [|d s IH]; intros i; cbn [indexOf].
  - split; [intros [H _]; discriminate H | discriminate].
  - destruct (Ascii.eqb d c) eqn:E.
    + apply Ascii.eqb_eq in E. subst d. split.
      * intros [_ H]. destruct i as [|i]; [reflexivity|].
        exfalso. apply (H 0); [lia | reflexivity].
      * intros H. injection H as <-. split; [reflexivity|].
        intros k Hk. lia.
    + apply Ascii.eqb_neq in E. split.
      * intros [Hg Hb]. destruct i as [|i].
        { cbn in Hg. congruence. }
        assert (F : first_at c s i).
        { split; [exact Hg|]. intros k Hk. apply (Hb (S k)). lia. }
        rewrite (proj1 (IH i) F). reflexivity.
      * destruct (indexOf s c) as [i'|] eqn:Ei; [|discriminate].
        intros H. injection H as <-.
        destruct (proj2 (IH i') eq_refl) as [Hg Hb].
        split; [exact Hg|]. intros [|k] Hk; cbn.
        -- congruence.
        -- apply Hb. lia.
Qed.

Lemma absent_lastIndexOf (s : string) (c : ascii) :
  absent c s <-> lastIndexOf s c = None.
Proof.
  induction s as [|d s IH]; cbn [lastIndexOf].
  - split; [reflexivity | intros _ k; discriminate].
  - split.
    + intros H. rewrite (proj1 IH (absent_tail c d s H)).
      destruct (Ascii.eqb d c) eqn:E; [|reflexivity].
      apply Ascii.eqb_eq in E. subst d.
      exfalso. apply (H 0). reflexivity.
    + destruct (lastIndexOf s c); [discriminate|].
      destruct (Ascii.eqb d c) eqn:E; [discriminate|].
      apply Ascii.eqb_neq in E. intros _ [|k]; cbn.
      * congruence.
      * apply (proj2 IH eq_refl).
Qed.

Lemma last_at_lastIndexOf (s : string) (c : ascii) (j : nat) :
  last_at c s j <-> lastIndexOf s c = Some j.
Proof.
  revert j. induction s as [|d s IH]; intros j; cbn [lastIndexOf].
  - split; [intros [H _]; discriminate H | discriminate].
  - split.
    + intros [Hg Ha]. destruct j as [|j].
      * cbn in Hg. injection Hg as ->.
        assert (A : absent c s).
        { intros k. apply (Ha (S k)). lia. }
        rewrite (proj1 (absent_lastIndexOf s c) A), Ascii.eqb_refl.
        reflexivity.
      * assert (L : last_at c s j).
        { split; [exact Hg|]. intros k Hk. apply (Ha (S k)). lia. }
        rewrite (proj1 (IH j) L). reflexivity.
    + destruct (lastIndexOf s c) as [j'|] eqn:Ej.
      * intros H. injection H as <-.
        destruct (proj2 (IH j') eq_refl) as [Hg Ha].
        split; [exact Hg|]. intros [|k] Hk; [lia|]. cbn. apply Ha. lia.
      * destruct (Ascii.eqb d c) eqn:E; [|discriminate].
        apply Ascii.eqb_eq in E. subst d. intros H. injection H as <-.
        split; [reflexivity|]. intros [|k] Hk; [lia|]. cbn.
        apply (proj2 (absent_lastIndexOf s c) Ej).
Qed.

Lemma substring_prefix (t b : string) :
  String.substring 0 (String.length t) (t ++ b) = t.
Proof.
  induction t as [|c t IH]; cbn [String.length append String.substring].
  - destruct b; reflexivity.
  - rewrite IH. reflexivity.
Qed.

Lemma substring_middle (a t b : string) :
  String.substring (String.length a) (String.length t) (a ++ t ++ b) = t.
Proof.
  induction a as [|c a IH]; cbn [String.length append String.substring].
  - apply substring_prefix.
  - exact IH.
Qed.

Lemma slice_substring (s : string) (i j : nat) (t : string) :
  slice s i j t -> substring s i (j + 1) = t.
Proof.
  intros (a & b & -> & Hi & Hj). unfold substring.
  rewrite str_app_length in Hj.
  replace (j + 1 - i) with (String.length t) by lia.
  rewrite <- Hi. apply substring_middle.
Qed.

(** ** Keywords *)

Lemma prefix_app (p s : string) :
  prefix p s = true <-> exists b, s = p ++ b.
Proof.
  revert s. induction p as [|a p IH]; intros s; cbn [append].
  - split; [intros _; exists s; reflexivity | destruct s; reflexivity].
  - destruct s as [|c s]; cbn [prefix].
    + split; [discriminate | intros [b H]; discriminate H].
    + destruct (ascii_dec a c) as [->|Hne].
      * rewrite IH. split.
        -- intros [b ->]. exists b. reflexivity.
        -- intros [b H]. injection H as ->. exists b. reflexivity.
      * split; [discriminate|]. intros [b H]. injection H as <- _.
        contradiction.
Qed.

Lemma includes_occurs (s p : string) : includes s p = true <-> occurs p s.
Proof.
  unfold occurs. induction s as [|c s IH]; cbn [includes].
  - rewrite orb_false_r, prefix_app. split.
    + intros [b H]. exists EmptyString, b. exact H.
    + intros (a & b & H). symmetry in H.
      apply str_app_empty in H as [-> H]. exists b. symmetry. exact H.
  - rewrite orb_true_iff, prefix_app, IH. split.
    + intros [[b H] | (a & b & H)].
      * exists EmptyString, b. exact H.
      * exists (String c a), b. rewrite H. reflexivity.
    + intros ([|d a] & b & H); cbn [append] in H.
      * left. exists b. exact H.
      * right. injection H as _ H. exists a, b. exact H.
Qed.

Lemma toLowerCase_app (a b : string) :
  toLowerCase (a ++ b) = toLowerCase a ++ toLowerCase b.
Proof.
  induction a as [|c a IH]; cbn [append toLowerCase];
    [|rewrite IH]; reflexivity.
Qed.

Lemma toLowerCase_split (s x y : string) :
  toLowerCase s = x ++ y ->
  exists a b, s = a ++ b /\ toLowerCase a = x /\ toLowerCase b = y.
Proof.
  revert s. induction x as [|k x IH]; intros s H; cbn [append] in H.
  - exists EmptyString, s. auto.
  - destruct s as [|c s]; cbn [toLowerCase] in H; [discriminate|].
    injection H as Hk H. destruct (IH s H) as (a & b & -> & Ha & Hb).
    exists (String c a), b. cbn [append toLowerCase].
    rewrite Hk, Ha. auto.
Qed.

Lemma to_lower_letter (k c : ascii) :
  97 <= nat_of_ascii k <= 122 -> (to_lower c = k <-> letter_of k c).
Proof.
  intros Hk. unfold to_lower, letter_of.
  pose proof (nat_ascii_bounded c) as Hb.
  destruct ((Nat.leb 65 (nat_of_ascii c) && Nat.leb (nat_of_ascii c) 90)
            || (Nat.leb 192 (nat_of_ascii c)
                && Nat.leb (nat_of_ascii c) 222
                && negb (Nat.eqb (nat_of_ascii c) 215))) eqn:E.
  - assert (R : (65 <= nat_of_ascii c <= 90)
                \/ (192 <= nat_of_ascii c <= 222)).
    { apply orb_prop in E as [E|E].
      - apply andb_prop in E as [E1 E2].
        apply Nat.leb_le in E1, E2. lia.
      - apply andb_prop in E as [E _]. apply andb_prop in E as [E1 E2].
        apply Nat.leb_le in E1, E2. lia. }
    split.
    + intros H. right. rewrite <- H, nat_ascii_embedding; lia.
    + intros [-> | H]; [lia|].
      rewrite H. apply ascii_nat_embedding.
  - split; [auto|]. intros [H | H]; [exact H|]. exfalso.
    assert (X : Nat.leb 65 (nat_of_ascii c) && Nat.leb (nat_of_ascii c) 90
                = true).
    { apply andb_true_intro. split; apply Nat.leb_le; lia. }
    rewrite X in E. discriminate E.
Qed.

Lemma toLowerCase_spelled (kw m : string) :
  small_letters kw -> (toLowerCase m = kw <-> spelled kw m).
Proof.
  revert m. induction kw as [|k kw IH]; intros m Hkw;
    destruct m as [|c m]; cbn [toLowerCase spelled];
    try (split; [discriminate | contradiction]).
  - split; auto.
  - destruct Hkw as [Hk Hkw]. rewrite <- (to_lower_letter k c Hk).
    rewrite <- (IH m Hkw). split.
    + intros H. injection H as -> ->. auto.
    + intros [-> ->]. reflexivity.
Qed.

(** [includes] on the lower-case form of a text finds a word of small
    letters exactly where the text holds the word in some case. *)
Lemma includes_mentions (kw s : string) :
  small_letters kw ->
  (includes (toLowerCase s) kw = true <-> mentions kw s).
Proof.
  intros Hkw. rewrite includes_occurs. unfold occurs, mentions. split.
  - intros (x & y & H).
    destruct (toLowerCase_split s x (kw ++ y) H) as (a & r & -> & _ & Hr).
    destruct (toLowerCase_split r kw y Hr) as (m & b & -> & Hm & _).
    exists a, m, b. split; [reflexivity|].
    apply (toLowerCase_spelled kw m Hkw), Hm.
  - intros (a & m & b & -> & Hm).
    apply (toLowerCase_spelled kw m Hkw) in Hm.
    exists (toLowerCase a), (toLowerCase b).
    rewrite !toLowerCase_app, Hm. reflexivity.
Qed.

Lemma includes_found (kw s : string) :
  small_letters kw -> includes (toLowerCase s) kw = true -> mentions kw s.
Proof. intros H. apply (includes_mentions kw s H). Qed.

Lemma mentions_includes (kw s : string) :
  small_letters kw -> mentions kw s -> includes (toLowerCase s) kw = true.
Proof. intros H. apply (includes_mentions kw s H). Qed.

End TextSpecProofs.

(* ===================================================================== *)
(** * Properties of the response parser *)
(* ===================================================================== *)

Module ParserProofs.
Import JS Json Nutrition Gemini Props Terms TextSpecProofs.
Local Open Scope string_scope.

Section Decoder.

Variable JSON_parse : string -> Exn JsValue.

Lemma parse_text (text : string) :
  text <> EmptyString ->
  parseAIResponse JSON_parse (VStr text)
  = try_catch (decode JSON_parse (cleaned text)) (fun _ => brace_scan JSON_parse (cleaned text)).
Proof.
  intros H. unfold parseAIResponse.
  rewrite (proj2 (String.eqb_neq text EmptyString) H). reflexivity.
Qed.

Lemma brace_scan_returns (clean : string) :
  exists r, brace_scan JSON_parse clean = Ok r.
Proof.
  unfold brace_scan.
  destruct (indexOf clean "{") as [i|]; [|eexists; reflexivity].
  destruct (lastIndexOf clean "}") as [j|]; [|eexists; reflexivity].
  destruct (Nat.ltb i j); [|eexists; reflexivity].
  destruct (decode JSON_parse (substring clean i (j + 1))); eexists; reflexivity.
Qed.

(** The parser returns on every argument, text or not. *)
Lemma parseAIResponse_returns (v : JsValue) :
  exists r, parseAIResponse JSON_parse v = Ok r.
Proof.
  destruct v as [| | | |text| |]; try (eexists; reflexivity).
  destruct (string_dec text EmptyString) as [->|H]; [eexists; reflexivity|].
  rewrite (parse_text text H).
  destruct (decode JSON_parse (cleaned text)); [eexists; reflexivity|].
  apply brace_scan_returns.
Qed.

(** Whatever makes the first attempt throw, a failed decode or a decoded
    [null], the parser goes on to the brace scan. *)
Lemma first_attempt_throws (text e : string) :
  text <> EmptyString -> decode JSON_parse (cleaned text) = Throw e ->
  parseAIResponse JSON_parse (VStr text) = brace_scan JSON_parse (cleaned text).
Proof.
  intros H D. rewrite (parse_text text H), D. reflexivity.
Qed.

Lemma decode_failure (s e : string) :
  JSON_parse s = Throw e -> decode JSON_parse s = Throw e.
Proof. intros H. unfold decode. rewrite H. reflexivity. Qed.

(** C4. [parseAIResponse] returns an outcome on every argument and never
    throws. On the empty text, and on an argument that is not text, the
    outcome is an error. Otherwise there is exactly one stripped text:
    the text with every code fence with the tag [json], in any case,
    deleted, then every code fence left deleted, then the white space at
    its two ends taken away. The stripped text is decoded, and the
    outcome of a successful first attempt is returned. When the decode
    fails, and the first position that holds an opening brace comes
    before the last position that holds a closing brace, the text from
    the one to the other, both included, is decoded, and the outcome of a
    successful second attempt is returned. When one of the braces is
    absent, or the closing one does not come after the opening one, or the
    second attempt fails too, the outcome is an error. *)
Theorem parseAIResponse_contract (raw : JsValue) :
  (exists r, parseAIResponse JSON_parse raw = Ok r)
  /\ ((forall text, raw <> VStr text) \/ raw = VStr EmptyString ->
      parseAIResponse JSON_parse raw = Ok empty_response)
  /\ (forall text, raw = VStr text -> text <> EmptyString ->
      exists clean,
        stripped text clean
        /\ (forall other, stripped text other -> other = clean)
        /\ (forall r, decode JSON_parse clean = Ok r ->
                      parseAIResponse JSON_parse raw = Ok r)
        /\ (forall e, JSON_parse clean = Throw e ->
            (forall i j sub,
               first_at "{" clean i -> last_at "}" clean j -> i < j ->
               slice clean i j sub ->
               forall r,
                 decode JSON_parse sub = Ok r ->
                 parseAIResponse JSON_parse raw = Ok r)
            /\ (absent "{" clean
                \/ absent "}" clean
                \/ (exists i j,
                      first_at "{" clean i
                      /\ last_at "}" clean j
                      /\ (j <= i
                          \/ exists sub e',
                               slice clean i j sub
                               /\ decode JSON_parse sub = Throw e')) ->
                parseAIResponse JSON_parse raw = Ok cannot_parse))).
Proof.
  split; [apply parseAIResponse_returns|].
  split.
  { intros [H | ->]; [|reflexivity].
    destruct raw as [| | | |text| |]; try reflexivity.
    exfalso. apply (H text). reflexivity. }
  intros text -> H. exists (cleaned text).
  split; [apply cleaned_stripped|].
  split; [intros other Ho; apply stripped_cleaned, Ho|].
  split.
  { intros r D. rewrite (parse_text text H), D. reflexivity. }
  intros e D.
  rewrite (first_attempt_throws text e H (decode_failure _ _ D)).
  unfold brace_scan. split.
  { intros i j sub Hi Hj Hij Hs r D2.
    rewrite (proj1 (first_at_indexOf _ _ _) Hi),
            (proj1 (last_at_lastIndexOf _ _ _) Hj),
            (proj2 (Nat.ltb_lt i j) Hij),
            (slice_substring _ _ _ _ Hs), D2.
    reflexivity. }
  intros [Hi | [Hj | (i & j & Hi & Hj & Hc)]].
  - rewrite (proj1 (absent_indexOf _ _) Hi). reflexivity.
  - rewrite (proj1 (absent_lastIndexOf _ _) Hj).
    destruct (indexOf (cleaned text) "{"); reflexivity.
  - rewrite (proj1 (first_at_indexOf _ _ _) Hi),
            (proj1 (last_at_lastIndexOf _ _ _) Hj).
    destruct Hc as [Hle | (sub & e' & Hs & D2)].
    + rewrite (proj2 (Nat.ltb_ge i j) Hle). reflexivity.
    + rewrite (slice_substring _ _ _ _ Hs), D2.
      destruct (Nat.ltb i j); reflexivity.
Qed.

(** A decoded value makes [handleParsedResponse] throw only when it is
    [null] or [undefined]. *)
Lemma handleParsedResponse_throws (v : JsValue) (e : string) :
  handleParsedResponse v = Throw e -> v = VNull \/ v = VUndefined.
Proof.
  destruct v; auto; unfold handleParsedResponse; cbn [member bind];
    intros H;
    repeat match type of H with
           | context [if ?c then _ else _] => destruct c
           | context [match ?c with Some _ => _ | None => _ end] => destruct c
           end; discriminate.
Qed.

End Decoder.

(** The fenced text is stripped down to the object inside the fence. *)
Example fence_is_stripped :
  cleaned fenced_text = requote "{'is_food': false, 'reason': 'a cat'}"
  /\ stripped fenced_text (requote "{'is_food': false, 'reason': 'a cat'}").
Proof.
  assert (E : cleaned fenced_text
              = requote "{'is_food': false, 'reason': 'a cat'}")
    by (vm_compute; reflexivity).
  split; [exact E|]. rewrite <- E. apply cleaned_stripped.
Qed.

(** The contract decoded with [Json]. At the fenced text [fenced_text]
    the stripped text decodes at once. At the wrapped text [noisy_text]
    the direct decode fails, the braces are at 28 and 64, and the text
    between them decodes to a not-food outcome. *)
Lemma parseAIResponse_contract_witness :
  parseAIResponse Json.parse (VStr fenced_text) = Ok (NotFood "a cat")
  /\ parseAIResponse Json.parse (VStr noisy_text) = Ok (NotFood "a cat")
  /\ parseAIResponse Json.parse (VNum (Fin 7)) = Ok empty_response.
Proof.
  split; [|split].
  - destruct (proj2 (proj2 (parseAIResponse_contract Json.parse
                              (VStr fenced_text)))
                fenced_text eq_refl ltac:(vm_compute; discriminate))
      as (clean & Hs & _ & Hfirst & _).
    apply Hfirst. rewrite (stripped_cleaned _ _ Hs).
    vm_compute. reflexivity.
  - destruct (proj2 (proj2 (parseAIResponse_contract Json.parse
                              (VStr noisy_text)))
                noisy_text eq_refl ltac:(vm_compute; discriminate))
      as (clean & Hs & _ & _ & Hscan).
    pose proof (stripped_cleaned _ _ Hs) as E. subst clean.
    destruct (Hscan "JSON Parse error: Unexpected token"
                    ltac:(vm_compute; reflexivity)) as (Hyes & _).
    apply (Hyes 28 64 (requote "{'is_food': false, 'reason': 'a cat'}")).
    + apply first_at_indexOf. vm_compute. reflexivity.
    + apply last_at_lastIndexOf. vm_compute. reflexivity.
    + lia.
    + exists "Sure! Here is the analysis: ", " Hope that helps!".
      split; [vm_compute; reflexivity | split; reflexivity].
    + vm_compute. reflexivity.
  - apply (proj1 (proj2 (parseAIResponse_contract Json.parse
                           (VNum (Fin 7))))).
    left. discriminate.
Defined.

End ParserProofs.

(* ===================================================================== *)
(** * Properties of the inference client *)
(* ===================================================================== *)

Module ClientProofs.
Import JS Json Nutrition Gemini Props.
Local Open Scope string_scope.

Section Runtime.

Variable JSON_parse : string -> Exn JsValue.
Variable ToString : JsValue -> string.

(** ** One attempt *)

Lemma attempt_flow (fetched : Exn Response) (last : JsValue) :
  snd (attempt JSON_parse fetched last) = flow_of JSON_parse fetched.
Proof.
  unfold flow_of, attempt, attemptTry, bind.
  destruct fetched as [response|e]; [|reflexivity].
  destruct (negb (ok response)).
  - destruct (member (catch_default (json response) (VObj [])) "error");
      [|reflexivity].
    match goal with |- context [if ?c then _ else _] => destruct c end;
      reflexivity.
  - destruct (json response) as [data|e]; [|reflexivity].
    destruct (textResponse_of data) as [text|e]; [|reflexivity].
    destruct (negb (truthy text)); [reflexivity|].
    destruct (parseAIResponse JSON_parse text) as [[d|reason|message]|e];
      reflexivity.
Qed.


(** An attempt ends in a [return] only with a parser outcome that is not
    an error. *)
Lemma returned_parser_outcome (fetched : Exn Response)
    (r : AIAnalysisResult) :
  flow_of JSON_parse fetched = Return r ->
  parser_outcome JSON_parse fetched = Some r /\ is_error r = false.
Proof.
  unfold parser_outcome, flow_of, attempt, attemptTry, bind.
  destruct fetched as [response|e]; [|discriminate].
  destruct (ok response); cbn [negb].
  - destruct (json response) as [data|e]; [|discriminate].
    destruct (textResponse_of data) as [text|e]; [|discriminate].
    destruct (truthy text); [|discriminate]. cbn [negb].
    destruct (parseAIResponse JSON_parse text) as [[d|reason|message]|e];
      cbn [snd]; intros H; try discriminate H;
      injection H as <-; split; reflexivity.
  - destruct (member (catch_default (json response) (VObj [])) "error");
      [|discriminate].
    match goal with |- context [if ?c then _ else _] => destruct c end;
      discriminate.
Qed.

(** ** The loops *)

Lemma no_return_before_step (net : Network) (n : nat) :
  no_return_before JSON_parse net n ->
  returns (flow_of JSON_parse (net n)) = false ->
  no_return_before JSON_parse net (S n).
Proof.
  intros H Hn i Hi. destruct (Nat.eq_dec i n) as [->|Hne];
    [exact Hn | apply H; lia].
Qed.

Lemma attemptLoop_settled (net : Network) (model : string)
    (remaining : nat) :
  forall (a : nat) (st : LoopState),
    no_return_before JSON_parse net (List.length (calls st)) ->
    settled JSON_parse net (fst (attemptLoop JSON_parse net model remaining a st))
                (snd (attemptLoop JSON_parse net model remaining a st)).
Proof.
  induction remaining as [|remaining IH]; intros a st Hst.
  - exact Hst.
  - cbn [attemptLoop].
    pose proof (attempt_flow (net (List.length (calls st)))
                             (lastErrorMessage st)) as Hflow.
    destruct (attempt JSON_parse (net (List.length (calls st)))
                      (lastErrorMessage st)) as [message flow].
    cbn [snd] in Hflow.
    destruct flow as [r| |]; cbn [fst snd].
    + exists (List.length (calls st)). cbn [calls].
      rewrite length_app, Nat.add_1_r. auto.
    + apply IH. cbn [calls]. rewrite length_app, Nat.add_1_r.
      apply no_return_before_step; [exact Hst|].
      rewrite <- Hflow. reflexivity.
    + cbn [settled calls]. rewrite length_app, Nat.add_1_r.
      apply no_return_before_step; [exact Hst|].
      rewrite <- Hflow. reflexivity.
Qed.

Lemma modelLoop_settled (net : Network) (maxRetries : nat)
    (models : list string) :
  forall st : LoopState,
    no_return_before JSON_parse net (List.length (calls st)) ->
    settled JSON_parse net (fst (modelLoop JSON_parse net models maxRetries st))
                (snd (modelLoop JSON_parse net models maxRetries st)).
Proof.
  induction models as [|model rest IH]; intros st Hst.
  - exact Hst.
  - cbn [modelLoop].
    pose proof (attemptLoop_settled net model (S maxRetries) 0 st Hst) as H.
    destruct (attemptLoop JSON_parse net model (S maxRetries) 0 st)
      as [st' [r|]]; cbn [fst snd] in H |- *.
    + exact H.
    + apply IH, H.
Qed.

Lemma request_settled (net : Network) (maxRetries : nat) :
  let run := modelLoop JSON_parse net GEMINI_MODEL_PREFERENCE maxRetries
                       (mkLoop [] (VStr EmptyString)) in
  settled JSON_parse net (fst run) (snd run)
  /\ snd (requestGeminiAnalysis JSON_parse ToString net maxRetries)
     = calls (fst run)
  /\ (forall r, snd run = Some r ->
        fst (requestGeminiAnalysis JSON_parse ToString net maxRetries) = r).
Proof.
  cbv zeta. split.
  - apply modelLoop_settled. intros i Hi. inversion Hi.
  - unfold requestGeminiAnalysis.
    destruct (modelLoop JSON_parse net GEMINI_MODEL_PREFERENCE maxRetries
                        (mkLoop [] (VStr EmptyString))) as [st [r|]];
      cbn [fst snd]; split; try reflexivity.
    + intros r' H. injection H as ->. reflexivity.
    + discriminate.
Qed.


(** ** Client errors *)

Lemma rejected_not_ok (response : Response) :
  rejected response = true -> ok response = false.
Proof.
  unfold rejected, ok. intros H.
  apply andb_prop in H as [H _]. apply andb_prop in H as [H _].
  apply Nat.leb_le in H.
  destruct (Nat.leb (status response) 299) eqn:E.
  - apply Nat.leb_le in E. lia.
  - apply andb_false_r.
Qed.

(** What the comment at the [break] describes: a response of the
    client-error range other than 429, whose error body is not [null],
    ends the attempt loop of the current model with that call. *)
Lemma rejected_ends_attempts (net : Network) (model : string)
    (remaining a : nat) (st : LoopState) (response : Response) :
  net (List.length (calls st)) = Ok response ->
  rejected response = true ->
  json response <> Ok VNull -> json response <> Ok VUndefined ->
  exists message,
    attemptLoop JSON_parse net model (S remaining) a st
    = (mkLoop (calls st ++ [mkCall model a]) message, None).
Proof.
  intros Hnet Hrej Hnull Hundef. cbn [attemptLoop]. rewrite Hnet.
  unfold attempt, attemptTry. cbn [bind].
  rewrite (rejected_not_ok _ Hrej). cbn [negb].
  assert (M : exists v,
             member (catch_default (json response) (VObj [])) "error" = Ok v).
  { destruct (json response) as [[| | | | | |]|e]; cbn [catch_default member];
      try (eexists; reflexivity); congruence. }
  destruct M as [v ->]. cbn [bind].
  unfold rejected in Hrej. rewrite Hrej.
  eexists. reflexivity.
Qed.

Lemma rejected_breaks (response : Response) :
  rejected response = true ->
  json response <> Ok VNull -> json response <> Ok VUndefined ->
  flow_of JSON_parse (Ok response) = Break.
Proof.
  intros Hrej Hnull Hundef. unfold flow_of, attempt, attemptTry.
  cbn [bind]. rewrite (rejected_not_ok _ Hrej). cbn [negb].
  assert (M : exists v,
             member (catch_default (json response) (VObj [])) "error" = Ok v).
  { destruct (json response) as [[| | | | | |]|e]; cbn [catch_default member];
      try (eexists; reflexivity); congruence. }
  destruct M as [v ->]. cbn [bind].
  unfold rejected in Hrej. rewrite Hrej. reflexivity.
Qed.

(** The calls one attempt loop adds: all to its model, and all but the
    last ended in a [continue]. *)
Lemma attemptLoop_calls (net : Network) (model : string) (remaining : nat) :
  forall (a : nat) (st : LoopState),
  exists new,
    calls (fst (attemptLoop JSON_parse net model remaining a st))
    = (calls st ++ new)%list
    /\ Forall (fun c => call_model c = model) new
    /\ (forall k, S k < List.length new ->
          flow_of JSON_parse (net (List.length (calls st) + k)) = Continue).
Proof.
  induction remaining as [|remaining IH]; intros a st.
  - exists []. cbn. rewrite app_nil_r.
    split; [reflexivity|]. split; [constructor|]. intros k Hk. inversion Hk.
  - cbn [attemptLoop].
    pose proof (attempt_flow (net (List.length (calls st)))
                             (lastErrorMessage st)) as Hflow.
    destruct (attempt JSON_parse (net (List.length (calls st)))
                      (lastErrorMessage st)) as [message flow].
    cbn [snd] in Hflow.
    destruct flow as [r| |]; cbn [fst calls];
      try (exists [mkCall model a]; split; [reflexivity|];
           split; [repeat constructor|]; intros k Hk; cbn in Hk; lia).
    destruct (IH (S a) (mkLoop (calls st ++ [mkCall model a])%list message))
      as (new & Hcalls & Hmodel & Hcont).
    exists (mkCall model a :: new). rewrite Hcalls. cbn [calls].
    rewrite <- app_assoc. split; [reflexivity|].
    split; [constructor; [reflexivity | exact Hmodel]|].
    intros [|k] Hk.
    + rewrite Nat.add_0_r. symmetry. exact Hflow.
    + cbn [List.length] in Hk.
      specialize (Hcont k ltac:(lia)). cbn [calls] in Hcont.
      rewrite length_app in Hcont. cbn [List.length] in Hcont.
      replace (List.length (calls st) + S k)
        with (List.length (calls st) + 1 + k) by lia.
      exact Hcont.
Qed.

Lemma modelLoop_abandons (net : Network) (maxRetries : nat)
    (models : list string) :
  forall st : LoopState,
    NoDup models ->
    (forall c, In c (calls st) -> ~ In (call_model c) models) ->
    abandoned_after_break JSON_parse net (calls st) ->
    abandoned_after_break JSON_parse net
      (calls (fst (modelLoop JSON_parse net models maxRetries st))).
Proof.
  induction models as [|model rest IH]; intros st Hnd Hold Hst.
  - exact Hst.
  - cbn [modelLoop].
    destruct (attemptLoop_calls net model (S maxRetries) 0 st)
      as (new & Hcalls & Hmodel & Hcont).
    inversion Hnd as [|? ? Hnotin Hnd']; subst.
    assert (Hseg : abandoned_after_break JSON_parse net
                     (calls (fst (attemptLoop JSON_parse net model
                                              (S maxRetries) 0 st)))).
    { rewrite Hcalls. intros i j ci cj Hij Hi Hj Hbreak.
      assert (Hlen : j < List.length (calls st ++ new)%list)
        by (apply nth_error_Some; congruence).
      rewrite length_app in Hlen.
      destruct (Nat.lt_ge_cases i (List.length (calls st)))
        as [Hiold|Hinew].
      - rewrite nth_error_app1 in Hi by lia.
        destruct (Nat.lt_ge_cases j (List.length (calls st)))
          as [Hjold|Hjnew].
        + rewrite nth_error_app1 in Hj by lia.
          exact (Hst i j ci cj Hij Hi Hj Hbreak).
        + rewrite nth_error_app2 in Hj by lia.
          apply nth_error_In in Hi, Hj.
          rewrite Forall_forall in Hmodel. rewrite (Hmodel cj Hj).
          intros E. apply (Hold ci Hi). rewrite E. left. reflexivity.
      - exfalso.
        specialize (Hcont (i - List.length (calls st)) ltac:(lia)).
        replace (List.length (calls st) + (i - List.length (calls st)))
          with i in Hcont by lia.
        rewrite Hcont in Hbreak. discriminate. }
    destruct (attemptLoop JSON_parse net model (S maxRetries) 0 st)
      as [st' [r|]]; cbn [fst] in *.
    + exact Hseg.
    + apply IH; [exact Hnd' | | exact Hseg].
      rewrite Hcalls. intros c Hc Hin. apply in_app_or in Hc as [Hc|Hc].
      * apply (Hold c Hc). right. exact Hin.
      * rewrite Forall_forall in Hmodel. rewrite (Hmodel c Hc) in Hin.
        contradiction.
Qed.

Lemma models_distinct : NoDup GEMINI_MODEL_PREFERENCE.
Proof.
  unfold GEMINI_MODEL_PREFERENCE.
  repeat constructor; cbn; intuition discriminate.
Qed.

(** What the comment at the [break] describes, over a whole run: after a
    call answered with a status of the client-error range other than 429
    and an error body that is not [null], no later call goes to the same
    model. *)
Lemma rejected_model_not_called_again
    (net : Network) (maxRetries i j : nat) (response : Response)
    (ci cj : Call) :
  let log := snd (requestGeminiAnalysis JSON_parse ToString net maxRetries) in
  i < j ->
  nth_error log i = Some ci -> nth_error log j = Some cj ->
  net i = Ok response -> rejected response = true ->
  json response <> Ok VNull -> json response <> Ok VUndefined ->
  call_model ci <> call_model cj.
Proof.
  cbv zeta. destruct (request_settled net maxRetries) as (_ & -> & _).
  intros Hij Hi Hj Hnet Hrej Hnull Hundef.
  refine (modelLoop_abandons net maxRetries GEMINI_MODEL_PREFERENCE
            (mkLoop [] (VStr EmptyString)) models_distinct _ _ i j ci cj Hij Hi Hj _).
  - intros c [].
  - intros i' j' ci' cj' _ Hi'. destruct i'; discriminate Hi'.
  - rewrite Hnet. apply rejected_breaks; assumption.
Qed.

(** C5 fails on a response of status 403 whose body is the JSON text
    [null]: reading [errData.error] throws, the [catch] block has no
    [break], and the same model is called again. On the network
    [forbidden_null] the first model is called three times, and so is each
    of the others. *)
Theorem rejected_with_null_body_is_retried :
  (exists response,
     forbidden_null 0 = Ok response
     /\ status response = 403 /\ rejected response = true)
  /\ firstn 3 (snd (requestGeminiAnalysis JSON_parse ToString
                                          forbidden_null 2))
     = [mkCall "gemini-2.0-flash" 0; mkCall "gemini-2.0-flash" 1;
        mkCall "gemini-2.0-flash" 2]
  /\ List.length (snd (requestGeminiAnalysis JSON_parse ToString
                                             forbidden_null 2)) = 15.
Proof.
  split; [eexists; repeat split|].
  split; vm_compute; reflexivity.
Qed.

(** With an error body that is an object the same status moves on to the
    next model at once: one call per model. *)
Lemma rejected_with_error_body_moves_on :
  models_of (snd (requestGeminiAnalysis JSON_parse ToString forbidden 2))
  = GEMINI_MODEL_PREFERENCE.
Proof. vm_compute. reflexivity. Qed.

(** ** Credential *)

(** C7. When the credential store yields no key, or a key that
    [isValidApiKeyFormat] refuses, [analyzeFood] returns an error outcome
    and makes no call. *)
Theorem analyzeFood_needs_valid_key
    (store : Exn (option string)) (net : Network) :
  (getApiKey store = None
   \/ exists key, getApiKey store = Some key
                  /\ isValidApiKeyFormat key = false) ->
  exists message,
    analyzeFood JSON_parse ToString store net = (Error message, []).
Proof.
  unfold analyzeFood. intros [H | (key & H & Hbad)]; rewrite H.
  - eexists; reflexivity.
  - destruct (key =? EmptyString)%string; [eexists; reflexivity|].
    rewrite Hbad. eexists; reflexivity.
Qed.

(** ** Weekly summary *)



End Runtime.

(** ** Instances *)


Lemma analyzeFood_needs_valid_key_witness :
  (exists message,
     analyzeFood Json.parse rendered (Ok None) third_time_lucky
     = (Error message, []))
  /\ (exists message,
        analyzeFood Json.parse rendered (Ok (Some "AIza-too-short"))
                    third_time_lucky
        = (Error message, [])).
Proof.
  split.
  - apply (analyzeFood_needs_valid_key Json.parse rendered (Ok None)).
    left. reflexivity.
  - apply (analyzeFood_needs_valid_key Json.parse rendered
             (Ok (Some "AIza-too-short"))).
    right. exists "AIza-too-short". split; reflexivity.
Defined.


End ClientProofs.

(* ===================================================================== *)
(** * The two numeric coercions *)
(* ===================================================================== *)

Module CoercionProofs.
Import JS Json Nutrition Props.
Local Open Scope string_scope.

Lemma num_eq_trans (a b c : number) : num_eq a b -> num_eq b c -> num_eq a c.
Proof.
  destruct a, b, c; simpl; try tauto. apply Qeq_trans.
Qed.

Lemma floor_half_nonneg (q : Q) : (0 <= q)%Q -> (0 <= Qfloor (q + (1 # 2)))%Z.
Proof.
  intros H. change 0%Z with (Qfloor 0). apply Qfloor_resp_le.
  apply Qle_trans with q; [exact H|].
  rewrite <- (Qplus_0_r q) at 1. apply Qplus_le_r. discriminate.
Qed.

Lemma floor_half_nonpos (q : Q) : (q < 0)%Q -> (Qfloor (q + (1 # 2)) <= 0)%Z.
Proof.
  intros H.
  assert (L : (Qfloor (q + (1 # 2)) < 1)%Z).
  { rewrite Zlt_Qlt. apply Qle_lt_trans with (q + (1 # 2))%Q.
    - apply Qfloor_le.
    - apply Qlt_trans with (0 + (1 # 2))%Q.
      + apply Qplus_lt_l. exact H.
      + reflexivity. }
  lia.
Qed.

(** Flooring at 0 and rounding commute. *)
Lemma clamp_round_commute (q : Q) :
  num_eq (Math_max zero (Math_round (Fin q)))
         (Math_round (Math_max zero (Fin q))).
Proof.
  unfold Math_max, Math_round, zero.
  destruct (Qle_bool 0 q) eqn:E.
  - apply Qle_bool_iff in E. pose proof (floor_half_nonneg q E) as F.
    destruct (Qle_bool 0 (inject_Z (Qfloor (q + (1 # 2))))) eqn:G.
    + apply Qeq_refl.
    + exfalso. apply not_true_iff_false in G. apply G.
      apply Qle_bool_iff. change 0%Q with (inject_Z 0).
      rewrite <- Zle_Qle. exact F.
  - assert (L : (q < 0)%Q).
    { apply Qnot_le_lt. intros C. apply Qle_bool_iff in C. congruence. }
    pose proof (floor_half_nonpos q L) as F.
    destruct (Qle_bool 0 (inject_Z (Qfloor (q + (1 # 2))))) eqn:G.
    + apply Qle_bool_iff in G. change 0%Q with (inject_Z 0) in G.
      rewrite <- Zle_Qle in G.
      assert (Z0 : Qfloor (q + (1 # 2)) = 0%Z) by lia.
      rewrite Z0. reflexivity.
    + reflexivity.
Qed.

(** Rounding leaves an integer as it is. *)
Lemma round_integer (n : number) : is_integer n -> num_eq (Math_round n) n.
Proof.
  destruct n as [q| | |]; cbn [Math_round num_eq is_integer]; try tauto.
  intros H.
  assert (E : (q + (1 # 2) == inject_Z (Qfloor q) + (1 # 2))%Q)
    by (rewrite H; reflexivity).
  assert (F : forall z : Z, Qfloor (inject_Z z + (1 # 2)) = z).
  { intros z. unfold Qfloor, inject_Z, Qplus. cbn [Qnum Qden].
    rewrite Z.mul_1_r, Pos.mul_1_l.
    replace (z * 2 + 1)%Z with (1 + z * 2)%Z by lia.
    rewrite Z.div_add by lia. reflexivity. }
  rewrite (Qfloor_comp _ _ E), F. exact H.
Qed.

Lemma coerced_pair (v : JsValue) :
  plain_input v ->
  (exists q, Gemini.toNumber v zero = Math_max zero (Math_round (Fin q))
             /\ Storage.ensureNumber v zero = Math_max zero (Fin q))
  \/ (Gemini.toNumber v zero = zero /\ Storage.ensureNumber v zero = zero).
Proof.
  intros Hp. unfold Gemini.toNumber, Storage.ensureNumber.
  destruct v as [| | |n|s| |]; try (right; split; reflexivity).
  - destruct n as [q| | |]; cbn [Number_isFinite];
      try (right; split; reflexivity).
    left. exists q. split; reflexivity.
  - cbn [plain_input] in Hp. rewrite Hp.
    destruct (StringToNumber s) as [q| | |]; cbn [Number_isFinite];
      try (right; split; reflexivity).
    left. exists q. split; reflexivity.
Qed.

(** C9, as the code has it. The two coercions are different functions:
    only the normalizer rounds, and only the normalizer deletes the
    characters other than digits, [.] and [-] from a text before
    converting it. On every input other than text, and on text made only
    of those characters, the normalizer's result is the storage-side
    result rounded to the nearest integer; so the two agree there whenever
    the storage-side result is an integer, and both give 0 on an input that
    is neither a number nor text. *)
Theorem coercions_agree_up_to_rounding (v : JsValue) :
  plain_input v ->
  num_eq (Gemini.toNumber v zero)
         (Math_round (Storage.ensureNumber v zero))
  /\ (is_integer (Storage.ensureNumber v zero) ->
      num_eq (Gemini.toNumber v zero) (Storage.ensureNumber v zero))
  /\ match v with
     | VNum _ | VStr _ => True
     | _ => Gemini.toNumber v zero = zero
            /\ Storage.ensureNumber v zero = zero
     end.
Proof.
  intros Hp.
  assert (R : num_eq (Gemini.toNumber v zero)
                     (Math_round (Storage.ensureNumber v zero))).
  { destruct (coerced_pair v Hp) as [(q & -> & ->) | [-> ->]].
    - apply clamp_round_commute.
    - reflexivity. }
  split; [exact R|]. split.
  - intros Hi. eapply num_eq_trans; [exact R|]. apply round_integer, Hi.
  - destruct v; try exact I; split; reflexivity.
Qed.

Lemma coercions_agree_up_to_rounding_witness :
  num_eq (Gemini.toNumber (VStr "42") zero)
         (Storage.ensureNumber (VStr "42") zero)
  /\ num_eq (Gemini.toNumber (VNum (Fin (5 # 2))) zero)
            (Math_round (Storage.ensureNumber (VNum (Fin (5 # 2))) zero)).
Proof.
  split.
  - apply (proj1 (proj2 (coercions_agree_up_to_rounding (VStr "42")
                           eq_refl))).
    reflexivity.
  - apply (proj1 (coercions_agree_up_to_rounding (VNum (Fin (5 # 2))) I)).
Defined.

(** C9 fails as stated. On the number 1.5 the normalizer gives 2 and the
    storage side 1.5; on the text [420 kcal] the normalizer gives 420 and
    the storage side 0; on the text [1e3] the normalizer gives 13 and the
    storage side 1000. *)
Lemma coercions_differ :
  (Gemini.toNumber (VNum (Fin (3 # 2))) zero = Fin 2
   /\ Storage.ensureNumber (VNum (Fin (3 # 2))) zero = Fin (3 # 2)
   /\ ~ num_eq (Gemini.toNumber (VNum (Fin (3 # 2))) zero)
               (Storage.ensureNumber (VNum (Fin (3 # 2))) zero))
  /\ (Gemini.toNumber (VStr "420 kcal") zero = Fin 420
      /\ Storage.ensureNumber (VStr "420 kcal") zero = Fin 0
      /\ ~ num_eq (Gemini.toNumber (VStr "420 kcal") zero)
                  (Storage.ensureNumber (VStr "420 kcal") zero))
  /\ (Gemini.toNumber (VStr "1e3") zero = Fin 13
      /\ Storage.ensureNumber (VStr "1e3") zero = Fin 1000).
Proof.
  repeat split; try (vm_compute; reflexivity);
    vm_compute; discriminate.
Qed.

End CoercionProofs.

(* ===================================================================== *)
(** * Scenarios *)
(* ===================================================================== *)

(** The embedding run on concrete texts and networks, with [Json.parse]
    as the decoder. *)

Module Scenarios.
Import JS Json Nutrition Gemini Storage Props.
Local Open Scope string_scope.

Example clean_json :
  parseAIResponse Json.parse (VStr apple_text)
  = Ok (Food {| nutrients := mkTotals (Fin 95) (Fin 0) (Fin 25) (Fin 0);
                name := "Apple";
                serving_size := None;
                fiber := None;
                confidence := Some high;
                notes := None |}).
Proof. vm_compute. reflexivity. Qed.

Example fenced_json :
  parseAIResponse Json.parse (VStr fenced_text) = Ok (NotFood "a cat").
Proof. vm_compute. reflexivity. Qed.

Example noisy_wrapper :
  Json.parse (cleaned rice_text) = Throw "JSON Parse error: Unexpected token"
  /\ parseAIResponse Json.parse (VStr rice_text)
     = Ok (Food {| nutrients := mkTotals (Fin 420) (Fin 18) (Fin 0) (Fin 0);
                   name := "Rice Bowl";
                   serving_size := None;
                   fiber := None;
                   confidence := Some medium;
                   notes := None |}).
Proof. split; vm_compute; reflexivity. Qed.

Example unparseable_garbage :
  parseAIResponse Json.parse (VStr garbage_text) = Ok cannot_parse.
Proof. vm_compute. reflexivity. Qed.

(** A decoded [null] makes [handleParsedResponse] throw inside the first
    [try]; the parser ends in the error of the brace scan. *)
Example decoded_null :
  Json.parse "null" = Ok VNull
  /\ handleParsedResponse VNull
     = Throw "Cannot read properties of null (reading 'is_food')"
  /\ parseAIResponse Json.parse (VStr "null") = Ok cannot_parse.
Proof. repeat split; vm_compute; reflexivity. Qed.

Example model_fallback :
  requestGeminiAnalysis Json.parse rendered first_model_down 2
  = (Food {| nutrients := mkTotals (Fin 95) (Fin 0) (Fin 25) (Fin 0);
             name := "Apple";
             serving_size := None;
             fiber := None;
             confidence := Some high;
             notes := None |},
     [mkCall "gemini-2.0-flash" 0; mkCall "gemini-2.0-flash" 1;
      mkCall "gemini-2.0-flash" 2; mkCall "gemini-2.0-flash-lite" 0]).
Proof. vm_compute. reflexivity. Qed.

Example rejection_skips_attempts :
  snd (requestGeminiAnalysis Json.parse rendered first_model_forbidden 2)
  = [mkCall "gemini-2.0-flash" 0; mkCall "gemini-2.0-flash-lite" 0].
Proof. vm_compute. reflexivity. Qed.

Example no_network :
  requestGeminiAnalysis Json.parse rendered unreachable 0
  = (Error "Analysis failed: No internet connection. Please check your network.",
     map (fun m => mkCall m 0) GEMINI_MODEL_PREFERENCE).
Proof. vm_compute. reflexivity. Qed.

Example stored_meal_coercion :
  map (fun m => (name (food m), calories (nutrients (food m)), meal_id m))
      (meals (normalizeDailyNutrition sample_env
                (VObj [("meals",
                   VArr [VObj [("calories", VStr "420 kcal")];
                         VNull;
                         VObj [("id", VStr "x"); ("name", VStr " Tea ");
                               ("calories", VNum (Fin (3 # 2)))]])])))
  = [("Meal 1", Fin 0, "2024-05-01T12:00:00.000Z-0-k3x9qa");
     ("Meal 2", Fin 0, "meal-1");
     ("Tea", Fin (3 # 2), "x")].
Proof. vm_compute. reflexivity. Qed.

End Scenarios.

(* ===================================================================== *)
(** * Text *)
(* ===================================================================== *)

(** Facts about [trim] that the proofs below use. *)

Module TextProofs.
Import JS Terms.
Local Open Scope string_scope.

Lemma trimStart_idem (s : string) : trimStart (trimStart s) = trimStart s.
Proof.
  induction s as [|c s IH]; [reflexivity|]. cbn [trimStart].
  destruct (is_space c) eqn:E; [exact IH|]. cbn [trimStart]. rewrite E.
  reflexivity.
Qed.

Lemma trimEnd_idem (s : string) : trimEnd (trimEnd s) = trimEnd s.
Proof.
  induction s as [|c s IH]; [reflexivity|]. cbn [trimEnd].
  destruct (is_space c && (trimEnd s =? EmptyString)%string) eqn:E;
    [reflexivity|].
  cbn [trimEnd]. rewrite IH, E. reflexivity.
Qed.

(** Trimming the end leaves a start that is not white space alone. *)
Lemma trimStart_trimEnd (s : string) :
  trimStart s = s -> trimStart (trimEnd s) = trimEnd s.
Proof.
  destruct s as [|c s]; [reflexivity|]. cbn [trimStart trimEnd].
  destruct (is_space c) eqn:E.
  - intros H. exfalso.
    assert (L : String.length (trimStart s) <= String.length s).
    { clear. induction s as [|d s IH]; cbn [trimStart]; [lia|].
      destruct (is_space d); cbn [String.length]; lia. }
    rewrite H in L. cbn [String.length] in L. lia.
  - intros _. cbn [andb trimStart]. rewrite E. reflexivity.
Qed.

Lemma trim_idem (s : string) : trim (trim s) = trim s.
Proof.
  unfold trim.
  rewrite (trimStart_trimEnd (trimStart s) (trimStart_idem s)).
  apply trimEnd_idem.
Qed.

Lemma trimStart_visible (s : string) :
  has_visible (trimStart s) = has_visible s.
Proof.
  induction s as [|c s IH]; [reflexivity|]. cbn [trimStart has_visible].
  destruct (is_space c) eqn:E; cbn [negb orb]; [exact IH|].
  cbn [has_visible]. rewrite E. reflexivity.
Qed.

Lemma trimEnd_empty (s : string) :
  (trimEnd s =? EmptyString)%string = negb (has_visible s).
Proof.
  induction s as [|c s IH]; [reflexivity|]. cbn [trimEnd has_visible].
  destruct (is_space c) eqn:E; cbn [negb orb andb].
  - rewrite IH. destruct (has_visible s); reflexivity.
  - reflexivity.
Qed.

(** A text trims to the empty text exactly when it is all white space. *)
Lemma trim_empty (s : string) :
  trim s = EmptyString <-> has_visible s = false.
Proof.
  unfold trim. rewrite <- String.eqb_eq, trimEnd_empty, trimStart_visible.
  destruct (has_visible s); cbn; split; congruence.
Qed.

Lemma has_visible_app (s t : string) :
  has_visible (s ++ t) = has_visible s || has_visible t.
Proof.
  induction s as [|c s IH]; [reflexivity|]. cbn [append has_visible].
  rewrite IH, orb_assoc. reflexivity.
Qed.

Lemma trim_app_nonblank (s t : string) :
  trim s <> EmptyString -> trim (s ++ t) <> EmptyString.
Proof.
  rewrite !trim_empty, has_visible_app.
  destruct (has_visible s); cbn; congruence.
Qed.

End TextProofs.

(* ===================================================================== *)
(** * Outcomes of the analysis *)
(* ===================================================================== *)

(** What a food outcome and a result that is not an error carry. *)

Module OutcomeProofs.
Import JS Json Nutrition Gemini Props Terms TextProofs.
Local Open Scope string_scope.

Lemma member_field (v : JsValue) (key : string) :
  v <> VNull -> v <> VUndefined -> member v key = Ok (field v key).
Proof. destruct v; intros H1 H2; try reflexivity; congruence. Qed.

Lemma unnamed_not_normalized (parsed : JsValue) :
  (forall s, field parsed "name" = VStr s -> trim s = EmptyString) ->
  normalizeNutritionData parsed = None.
Proof.
  intros H. unfold normalizeNutritionData.
  destruct (negb (truthy parsed) || negb (is_object_type parsed));
    [reflexivity|].
  destruct (field parsed "name") as [| | | |s| |]; try reflexivity.
  rewrite (H s eq_refl). reflexivity.
Qed.

(** X1. An input that is not [null] or [undefined], whose [is_food] is not [false] and
    whose [name] is not text with something left after trimming, gives an
    error outcome: the one for invalid data when [is_food] is [true] or the
    name is truthy, the one for an unexpected format otherwise. *)
Theorem unnamed_input_is_error (parsed : JsValue) :
  parsed <> VNull -> parsed <> VUndefined ->
  field parsed "is_food" <> VBool false ->
  (forall s, field parsed "name" = VStr s -> trim s = EmptyString) ->
  handleParsedResponse parsed
  = Ok (Error (if is_true (field parsed "is_food")
                  || truthy (field parsed "name")
               then "Invalid nutrition data in response"
               else "Unexpected response format from AI")).
Proof.
  intros Hnull Hundef Hflag Hname. unfold handleParsedResponse.
  rewrite !(member_field parsed _ Hnull Hundef). cbn [bind].
  assert (F : is_false (field parsed "is_food") = false).
  { destruct (field parsed "is_food") as [| |[|]| | | |];
      try reflexivity. congruence. }
  rewrite F.
  rewrite (unnamed_not_normalized parsed Hname).
  destruct (is_true (field parsed "is_food") || truthy (field parsed "name"));
    reflexivity.
Qed.

Lemma unnamed_input_is_error_witness :
  handleParsedResponse (VObj [("is_food", VBool true); ("name", VStr "   ")])
  = Ok (Error "Invalid nutrition data in response")
  /\ handleParsedResponse (VObj [("calories", VNum (Fin 95))])
     = Ok (Error "Unexpected response format from AI").
Proof.
  split.
  - apply (unnamed_input_is_error
             (VObj [("is_food", VBool true); ("name", VStr "   ")]));
      try discriminate.
    intros s H. injection H as <-. reflexivity.
  - apply (unnamed_input_is_error (VObj [("calories", VNum (Fin 95))]));
      try discriminate.
Defined.

Lemma toNumber_whole (v : JsValue) : whole (toNumber v zero).
Proof.
  split; [apply NormalizerProofs.toNumber_nonneg
         | apply NormalizerProofs.toNumber_integer].
Qed.

Lemma normalized_well_formed (v : JsValue) (d : NutritionData) :
  normalizeNutritionData v = Some d -> well_formed d.
Proof.
  unfold normalizeNutritionData.
  destruct (negb (truthy v) || negb (is_object_type v)); [discriminate|].
  destruct (field v "name") as [| | | |s| |]; try discriminate.
  destruct (Nat.ltb 0 (String.length (trim s))) eqn:L; [|discriminate].
  destruct (trim s =? EmptyString)%string eqn:E; [discriminate|].
  intros H. injection H as <-. unfold well_formed.
  cbn [name nutrients calories protein carbs fats fiber].
  split; [apply String.eqb_neq, E|].
  split; [apply trim_idem|].
  repeat (split; [apply toNumber_whole|]).
  split.
  - intros f Hf.
    assert (X : exists w, f = toNumber w zero).
    { exists (field v "fiber").
      destruct (field v "fiber"); [discriminate Hf | ..];
        injection Hf as <-; reflexivity. }
    destruct X as [w ->]. apply toNumber_whole.
  - unfold confidence_listed. cbn [confidence].
    destruct (confidence_of (field v "confidence")) as [[| |]|]; auto.
Qed.

Lemma handled_food (v : JsValue) (d : NutritionData) :
  handleParsedResponse v = Ok (Food d) -> normalizeNutritionData v = Some d.
Proof.
  unfold handleParsedResponse.
  destruct (member v "is_food") as [flag|e]; [|discriminate]. cbn [bind].
  destruct (is_false flag).
  - destruct (member v "reason"); discriminate.
  - destruct (member v "name") as [n|e]; [|discriminate]. cbn [bind].
    destruct (is_true flag || truthy n); [|discriminate].
    destruct (normalizeNutritionData v); [|discriminate].
    intros H. injection H as <-. reflexivity.
Qed.

Section Runtime.

Variable JSON_parse : string -> Exn JsValue.
Variable ToString : JsValue -> string.

Lemma decoded_food (s : string) (d : NutritionData) :
  decode JSON_parse s = Ok (Food d) -> well_formed d.
Proof.
  unfold decode. destruct (JSON_parse s) as [v|e]; [|discriminate].
  cbn [bind]. intros H. apply (normalized_well_formed v), handled_food, H.
Qed.

Lemma parsed_food (text : JsValue) (d : NutritionData) :
  parseAIResponse JSON_parse text = Ok (Food d) -> well_formed d.
Proof.
  destruct text as [| | | |text| |]; try discriminate.
  destruct (string_dec text EmptyString) as [->|H]; [discriminate|].
  rewrite (ParserProofs.parse_text JSON_parse text H).
  destruct (decode JSON_parse (cleaned text)) as [r|e] eqn:D; cbn [try_catch].
  - intros E. injection E as ->. apply (decoded_food _ _ D).
  - unfold brace_scan.
    destruct (indexOf (cleaned text) "{") as [i|]; [|discriminate].
    destruct (lastIndexOf (cleaned text) "}") as [j|]; [|discriminate].
    destruct (Nat.ltb i j); [|discriminate].
    destruct (decode JSON_parse (substring (cleaned text) i (j + 1)))
      as [r|e'] eqn:D2; cbn [try_catch]; [|discriminate].
    intros E. injection E as ->. apply (decoded_food _ _ D2).
Qed.

(** A result is what the last call returned. *)
Lemma result_returned (net : Network) (maxRetries : nat)
    (r : AIAnalysisResult) :
  snd (modelLoop JSON_parse net GEMINI_MODEL_PREFERENCE maxRetries
                 (mkLoop [] (VStr EmptyString))) = Some r ->
  exists n,
    List.length
      (snd (requestGeminiAnalysis JSON_parse ToString net maxRetries)) = S n
    /\ flow_of JSON_parse (net n) = Return r.
Proof.
  destruct (ClientProofs.request_settled JSON_parse ToString net maxRetries)
    as (Hs & Hlog & _).
  rewrite Hlog. intros H. rewrite H in Hs. destruct Hs as (n & Hn & _ & Hr).
  exists n. split; assumption.
Qed.

Lemma request_food_well_formed (net : Network) (maxRetries : nat)
    (d : NutritionData) :
  fst (requestGeminiAnalysis JSON_parse ToString net maxRetries) = Food d ->
  well_formed d.
Proof.
  intros H.
  destruct (snd (modelLoop JSON_parse net GEMINI_MODEL_PREFERENCE maxRetries
                           (mkLoop [] (VStr EmptyString)))) as [r|] eqn:E.
  - destruct (result_returned net maxRetries r E) as (n & _ & Hr).
    assert (Hrd : r = Food d).
    { unfold requestGeminiAnalysis in H.
      destruct (modelLoop JSON_parse net GEMINI_MODEL_PREFERENCE maxRetries
                          (mkLoop [] (VStr EmptyString))) as [st res].
      cbn [fst snd] in *. subst res. exact H. }
    subst r.
    destruct (ClientProofs.returned_parser_outcome JSON_parse _ _ Hr)
      as [Hp _].
    unfold parser_outcome in Hp.
    destruct (net n) as [response|e]; [|discriminate].
    destruct (ok response); [|discriminate].
    destruct (json response) as [data|e]; [|discriminate].
    destruct (textResponse_of data) as [text|e]; [|discriminate].
    destruct (truthy text); [|discriminate].
    destruct (parseAIResponse JSON_parse text) as [r|e] eqn:P;
      [|discriminate].
    injection Hp as ->. apply (parsed_food text d P).
  - exfalso. unfold requestGeminiAnalysis in H.
    destruct (modelLoop JSON_parse net GEMINI_MODEL_PREFERENCE maxRetries
                        (mkLoop [] (VStr EmptyString))) as [st res].
    cbn [fst snd] in *. subst res. discriminate H.
Qed.

(** X2. A result of [requestGeminiAnalysis] that is not an error is the
    outcome the parser gave for the last call of the run. *)
Theorem result_is_last_outcome (net : Network) (maxRetries : nat) :
  is_error (fst (requestGeminiAnalysis JSON_parse ToString net maxRetries))
  = false ->
  exists n,
    List.length
      (snd (requestGeminiAnalysis JSON_parse ToString net maxRetries)) = S n
    /\ parser_outcome JSON_parse (net n)
       = Some (fst (requestGeminiAnalysis JSON_parse ToString net
                                          maxRetries)).
Proof.
  intros He.
  destruct (snd (modelLoop JSON_parse net GEMINI_MODEL_PREFERENCE maxRetries
                           (mkLoop [] (VStr EmptyString)))) as [r|] eqn:E.
  - destruct (result_returned net maxRetries r E) as (n & Hn & Hr).
    exists n. split; [exact Hn|].
    replace (fst (requestGeminiAnalysis JSON_parse ToString net maxRetries))
      with r.
    + apply (ClientProofs.returned_parser_outcome JSON_parse), Hr.
    + unfold requestGeminiAnalysis.
      destruct (modelLoop JSON_parse net GEMINI_MODEL_PREFERENCE maxRetries
                          (mkLoop [] (VStr EmptyString))) as [st res].
      cbn [fst snd] in *. subst res. reflexivity.
  - exfalso. unfold requestGeminiAnalysis in He.
    destruct (modelLoop JSON_parse net GEMINI_MODEL_PREFERENCE maxRetries
                        (mkLoop [] (VStr EmptyString))) as [st res].
    cbn [fst snd] in *. subst res. discriminate He.
Qed.

(** X3. Whatever the key, the network and the responses, a food outcome
    of [analyzeFood] carries a well-formed record: a name that is trimmed
    and not empty, nutrients that are whole numbers at least 0, a
    confidence. *)
Theorem analyzed_food_is_well_formed
    (store : Exn (option string)) (net : Network) (d : NutritionData) :
  fst (analyzeFood JSON_parse ToString store net) = Food d ->
  well_formed d.
Proof.
  unfold analyzeFood.
  destruct (getApiKey store) as [key|]; [|discriminate].
  destruct (key =? EmptyString)%string; [discriminate|].
  destruct (negb (isValidApiKeyFormat key)); [discriminate|].
  apply request_food_well_formed.
Qed.

End Runtime.

Lemma result_is_last_outcome_witness :
  exists n,
    List.length
      (snd (requestGeminiAnalysis Json.parse rendered first_model_down 2))
    = S n
    /\ parser_outcome Json.parse (first_model_down n)
       = Some (fst (requestGeminiAnalysis Json.parse rendered
                                          first_model_down 2)).
Proof.
  apply (result_is_last_outcome Json.parse rendered first_model_down 2).
  vm_compute. reflexivity.
Defined.

Lemma analyzed_food_is_well_formed_witness :
  well_formed {| nutrients := mkTotals (Fin 95) (Fin 0) (Fin 25) (Fin 0);
                 name := "Apple";
                 serving_size := None;
                 fiber := None;
                 confidence := Some high;
                 notes := None |}.
Proof.
  apply (analyzed_food_is_well_formed Json.parse rendered
           (Ok (Some good_key)) first_model_down).
  vm_compute. reflexivity.
Defined.

End OutcomeProofs.

(* ===================================================================== *)
(** * The call log *)
(* ===================================================================== *)

(** Which calls a run of the analysis loop makes. *)

Module LogProofs.
Import JS Json Nutrition Gemini Props Terms TextProofs.
Local Open Scope string_scope.

Lemma log_of_nil_counts (models : list string) : log_of models [] = [].
Proof. destruct models; reflexivity. Qed.

Lemma log_of_length (bound : nat) (models : list string) :
  forall counts,
    Forall (fun k => 1 <= k <= bound) counts ->
    List.length counts <= List.length models ->
    List.length counts <= List.length (log_of models counts)
    /\ List.length (log_of models counts) <= List.length counts * bound.
Proof.
  induction models as [|m models IH]; intros counts Hc Hl.
  - destruct counts; cbn in *; lia.
  - destruct counts as [|k counts]; [cbn; lia|].
    inversion Hc as [|? ? Hk Hc']; subst. cbn [List.length] in Hl.
    destruct (IH counts Hc' ltac:(lia)) as [H1 H2].
    cbn [log_of List.length]. unfold attempts_on.
    rewrite length_app, length_map, length_seq. lia.
Qed.

Lemma log_of_models (models : list string) :
  forall counts,
    Forall (fun k => 1 <= k) counts ->
    List.length counts = List.length models ->
    forall m, In m models -> In m (models_of (log_of models counts)).
Proof.
  induction models as [|m0 models IH]; intros counts Hc Hl m Hin.
  - inversion Hin.
  - destruct counts as [|k counts]; [discriminate|].
    inversion Hc as [|? ? Hk Hc']; subst. cbn [List.length] in Hl.
    cbn [log_of]. unfold models_of. rewrite map_app. apply in_or_app.
    destruct Hin as [->|Hin].
    + left. destruct k as [|k]; [lia|]. left. reflexivity.
    + right. apply (IH counts Hc' ltac:(lia) m Hin).
Qed.

Section Runtime.

Variable JSON_parse : string -> Exn JsValue.
Variable ToString : JsValue -> string.

(** The calls an attempt loop adds: consecutive attempts on its model. *)
Lemma attemptLoop_attempts (net : Network) (model : string)
    (remaining : nat) :
  forall (a : nat) (st : LoopState),
  exists k,
    k <= remaining /\ (1 <= remaining -> 1 <= k)
    /\ calls (fst (attemptLoop JSON_parse net model remaining a st))
       = (calls st ++ map (mkCall model) (seq a k))%list.
Proof.
  induction remaining as [|remaining IH]; intros a st.
  - exists 0. cbn. rewrite app_nil_r. repeat split; lia.
  - cbn [attemptLoop].
    destruct (attempt JSON_parse (net (List.length (calls st)))
                      (lastErrorMessage st)) as [message flow].
    destruct flow as [r| |]; cbn [fst calls];
      try (exists 1; repeat split; lia).
    destruct (IH (S a) (mkLoop (calls st ++ [mkCall model a])%list message))
      as (k & Hk & _ & Hcalls).
    exists (S k). rewrite Hcalls. cbn [calls seq map].
    rewrite <- app_assoc. repeat split; lia.
Qed.

Lemma modelLoop_shape (net : Network) (maxRetries : nat)
    (models : list string) :
  forall st : LoopState,
  exists counts,
    List.length counts <= List.length models
    /\ (models <> [] -> counts <> [])
    /\ Forall (fun k => 1 <= k <= S maxRetries) counts
    /\ calls (fst (modelLoop JSON_parse net models maxRetries st))
       = (calls st ++ log_of models counts)%list
    /\ (snd (modelLoop JSON_parse net models maxRetries st) = None ->
        List.length counts = List.length models).
Proof.
  induction models as [|model rest IH]; intros st.
  - exists []. cbn. rewrite app_nil_r. repeat split; auto; congruence.
  - cbn [modelLoop].
    destruct (attemptLoop_attempts net model (S maxRetries) 0 st)
      as (k & Hk & Hk1 & Hcalls).
    specialize (Hk1 ltac:(lia)).
    destruct (attemptLoop JSON_parse net model (S maxRetries) 0 st)
      as [st' [r|]]; cbn [fst snd] in *.
    + exists [k]. cbn [log_of List.length]. rewrite log_of_nil_counts, app_nil_r.
      split; [lia|]. split; [discriminate|].
      split; [constructor; [lia | constructor]|].
      split; [exact Hcalls|discriminate].
    + destruct (IH st') as (counts & Hl & _ & Hc & Hlog & Hnone).
      exists (k :: counts). cbn [log_of List.length].
      split; [lia|]. split; [discriminate|].
      split; [constructor; [lia | exact Hc]|].
      split.
      * rewrite Hlog, Hcalls, <- app_assoc. reflexivity.
      * intros H. rewrite (Hnone H). reflexivity.
Qed.

(** X4. The calls of a run of [requestGeminiAnalysis] go through the
    models in the order of preference, without skipping one; each model
    gets between 1 and [maxRetries + 1] attempts, numbered from 0. So a
    run makes at least one call and at most [5 * (maxRetries + 1)]. *)
Theorem calls_follow_preference (net : Network) (maxRetries : nat) :
  exists counts,
    1 <= List.length counts <= 5
    /\ Forall (fun k => 1 <= k <= S maxRetries) counts
    /\ snd (requestGeminiAnalysis JSON_parse ToString net maxRetries)
       = log_of GEMINI_MODEL_PREFERENCE counts
    /\ 1 <= List.length
              (snd (requestGeminiAnalysis JSON_parse ToString net
                                          maxRetries))
       <= 5 * S maxRetries.
Proof.
  destruct (ClientProofs.request_settled JSON_parse ToString net maxRetries)
    as (_ & Hlog & _).
  destruct (modelLoop_shape net maxRetries GEMINI_MODEL_PREFERENCE
                            (mkLoop [] (VStr EmptyString)))
    as (counts & Hl & Hne & Hc & Hcalls & _).
  exists counts. rewrite Hlog, Hcalls. cbn [calls app].
  cbn [GEMINI_MODEL_PREFERENCE List.length] in Hl.
  assert (H1 : 1 <= List.length counts).
  { destruct counts; [exfalso; apply Hne; [discriminate|reflexivity]|].
    cbn; lia. }
  split; [lia|]. split; [exact Hc|]. split; [reflexivity|].
  destruct (log_of_length (S maxRetries) GEMINI_MODEL_PREFERENCE counts Hc Hl)
    as [H2 H3].
  split; [lia|]. nia.
Qed.

(** X5. [requestGeminiAnalysis] gives an error only after it has called
    every model of the list, and the message of that error begins with
    [Analysis failed: ]. *)
Theorem error_after_every_model (net : Network) (maxRetries : nat) :
  is_error (fst (requestGeminiAnalysis JSON_parse ToString net maxRetries))
  = true ->
  (forall model,
     In model GEMINI_MODEL_PREFERENCE ->
     In model
        (models_of (snd (requestGeminiAnalysis JSON_parse ToString net
                                               maxRetries))))
  /\ exists detail,
       fst (requestGeminiAnalysis JSON_parse ToString net maxRetries)
       = Error ("Analysis failed: " ++ detail).
Proof.
  destruct (ClientProofs.request_settled JSON_parse ToString net maxRetries)
    as (Hs & Hlog & _).
  destruct (modelLoop_shape net maxRetries GEMINI_MODEL_PREFERENCE
                            (mkLoop [] (VStr EmptyString)))
    as (counts & Hl & _ & Hc & Hcalls & Hnone).
  rewrite Hlog, Hcalls. unfold requestGeminiAnalysis.
  destruct (modelLoop JSON_parse net GEMINI_MODEL_PREFERENCE maxRetries
                      (mkLoop [] (VStr EmptyString))) as [st [r|]];
    cbn [fst snd] in *.
  - destruct Hs as (n & _ & _ & Hlast).
    destruct (ClientProofs.returned_parser_outcome JSON_parse _ _ Hlast)
      as [_ He].
    intros H. congruence.
  - intros _. split; [|eexists; reflexivity].
    intros model Hin. cbn [app].
    apply log_of_models; [|apply Hnone; reflexivity|exact Hin].
    eapply Forall_impl; [|exact Hc]. cbn. intros; lia.
Qed.

End Runtime.

Lemma error_after_every_model_witness :
  In "gemini-2.5-flash-lite"
     (models_of (snd (requestGeminiAnalysis Json.parse rendered
                                            unreachable 2))).
Proof.
  apply (proj1 (error_after_every_model Json.parse rendered unreachable 2
                  eq_refl)).
  right. right. right. right. left. reflexivity.
Defined.

End LogProofs.

(* ===================================================================== *)
(** * Weekly insight, key validation and messages *)
(* ===================================================================== *)

Module WeeklyProofs.
Import JS Json Nutrition Gemini Props Terms TextProofs TextSpecProofs.
Local Open Scope string_scope.





(** ** Key validation *)

Lemma or_else_truthy (a b : JsValue) :
  truthy b = true -> truthy (or_else a b) = true.
Proof.
  intros H. unfold or_else. destruct (truthy a) eqn:E; assumption.
Qed.

(** The two ways [validateApiKey] ends. *)
Lemma validation_cases (fetched : Exn Response) :
  (validateApiKey fetched = mkValidation true None
   /\ exists response, fetched = Ok response /\ ok response = true)
  \/ (exists e,
        validateApiKey fetched = mkValidation false (Some e)
        /\ truthy e = true
        /\ forall response, fetched = Ok response -> ok response = false).
Proof.
  unfold validateApiKey, bind.
  destruct fetched as [response|e].
  - destruct (ok response) eqn:E.
    + left. split; [reflexivity|]. exists response. auto.
    + right.
      destruct (member (catch_default (json response) (VObj [])) "error")
        as [err|e]; eexists; (split; [reflexivity|]);
        (split; [try (apply or_else_truthy); reflexivity|]);
        intros r Hr; injection Hr as <-; exact E.
  - right. eexists. split; [reflexivity|]. split; [reflexivity|].
    intros r Hr. discriminate Hr.
Qed.

(** X7. [validateApiKey] reports a valid key exactly when the [fetch]
    answered with a success status, and then without an error. Whenever it
    reports an invalid key it gives an error that is truthy, so a caller
    never needs a message of its own. *)
Theorem validation_outcomes (fetched : Exn Response) :
  (valid (validateApiKey fetched) = true <->
   exists response, fetched = Ok response /\ ok response = true)
  /\ (valid (validateApiKey fetched) = true ->
      error (validateApiKey fetched) = None)
  /\ (valid (validateApiKey fetched) = false ->
      exists e, error (validateApiKey fetched) = Some e
                /\ truthy e = true).
Proof.
  destruct (validation_cases fetched)
    as [(-> & response & Hf & Hok) | (e & -> & He & Hnot)];
    cbn [valid error].
  - split; [|split; [reflexivity | discriminate]].
    split; [intros _; exists response; auto | reflexivity].
  - split; [|split; [discriminate|]].
    + split; [discriminate|].
      intros (response & Hf & Hok). rewrite (Hnot response Hf) in Hok.
      discriminate Hok.
    + intros _. exists e. split; [reflexivity | exact He].
Qed.

(** ** Not-food messages *)

Lemma notFood_message_listed (reason : string) :
  In (getNotFoodMessage reason) notFoodMessages.
Proof.
  unfold getNotFoodMessage, notFoodMessages.
  repeat match goal with
         | |- context [if ?c then _ else _] => destruct c
         end; cbn; auto 10.
Qed.

Ltac small := vm_compute; lia.

Ltac keyword_found E :=
  left; split; [|reflexivity];
  repeat first
    [ apply Exists_cons_hd; apply includes_found; [small | exact E]
    | apply Exists_cons_tl ].

Ltac keywords_absent :=
  right; split;
  [ repeat constructor; intros X;
    (apply mentions_includes in X; [congruence | small]) |].

(** X8. [getNotFoodMessage] always gives one of its six fixed messages,
    and the default one for an empty reason. For a reason that is not
    empty it gives the message of the first row of its table one of whose
    keywords the reason holds, in whatever case the reason spells it:
    [blur] or [unclear], then [person] or [selfie], then [text],
    [document] or [menu], then [animal] or [pet], then [empty] or
    [plate]; and the default message when the reason holds none. *)
Theorem notFood_message_fixed_and_caseless (reason : string) :
  In (getNotFoodMessage reason) notFoodMessages
  /\ getNotFoodMessage EmptyString = defaultMessage
  /\ (reason <> EmptyString ->
      first_row notFoodTable reason (getNotFoodMessage reason)).
Proof.
  split; [apply notFood_message_listed|]. split; [reflexivity|].
  intros Hne. unfold getNotFoodMessage.
  rewrite (proj2 (String.eqb_neq _ _) Hne). cbv zeta.
  cbn [first_row notFoodTable].
  destruct (includes (toLowerCase reason) "blur") eqn:K1; cbn [orb];
    [keyword_found K1|].
  destruct (includes (toLowerCase reason) "unclear") eqn:K2;
    [keyword_found K2|].
  keywords_absent.
  destruct (includes (toLowerCase reason) "person") eqn:K3; cbn [orb];
    [keyword_found K3|].
  destruct (includes (toLowerCase reason) "selfie") eqn:K4;
    [keyword_found K4|].
  keywords_absent.
  destruct (includes (toLowerCase reason) "text") eqn:K5; cbn [orb];
    [keyword_found K5|].
  destruct (includes (toLowerCase reason) "document") eqn:K6; cbn [orb];
    [keyword_found K6|].
  destruct (includes (toLowerCase reason) "menu") eqn:K7;
    [keyword_found K7|].
  keywords_absent.
  destruct (includes (toLowerCase reason) "animal") eqn:K8; cbn [orb];
    [keyword_found K8|].
  destruct (includes (toLowerCase reason) "pet") eqn:K9;
    [keyword_found K9|].
  keywords_absent.
  destruct (includes (toLowerCase reason) "empty") eqn:K10; cbn [orb];
    [keyword_found K10|].
  destruct (includes (toLowerCase reason) "plate") eqn:K11;
    [keyword_found K11|].
  keywords_absent. reflexivity.
Qed.

(** A reason in capitals that holds a keyword of the first row and one of
    the second gets the message of the first. *)
Lemma notFood_message_fixed_and_caseless_witness :
  getNotFoodMessage "A BLURRY selfie" = unclearMessage.
Proof.
  destruct (proj2 (proj2 (notFood_message_fixed_and_caseless
                            "A BLURRY selfie")) ltac:(discriminate))
    as [[_ H] | [Hno _]].
  - exact H.
  - exfalso. inversion Hno as [|? ? Hb _]. apply Hb.
    exists "A ", "BLUR", "RY selfie". split; [reflexivity|].
    cbn [spelled]. repeat split; right; reflexivity.
Defined.

End WeeklyProofs.

(* ===================================================================== *)
(** * Round trip through storage *)
(* ===================================================================== *)

Module StorageProofs.
Import JS Json Nutrition Gemini Storage Props Terms TextProofs.
Local Open Scope string_scope.

(** ** Numbers that are stored as they are *)

Lemma storable_zero : storable zero.
Proof. exists 0%Q. split; [reflexivity | apply Qle_refl]. Qed.

Lemma clamp_storable (q : Q) : (0 <= q)%Q -> Math_max zero (Fin q) = Fin q.
Proof.
  intros H. unfold Math_max, zero.
  rewrite (proj2 (Qle_bool_iff 0 q) H). reflexivity.
Qed.

Lemma clamped_is_storable (n : number) :
  Number_isFinite n = true -> storable (Math_max zero n).
Proof.
  destruct n as [q| | |]; try discriminate. intros _.
  unfold Math_max, zero. destruct (Qle_bool 0 q) eqn:E.
  - exists q. split; [reflexivity | apply Qle_bool_iff, E].
  - apply storable_zero.
Qed.

Lemma ensureNumber_written (n : number) :
  storable n -> ensureNumber (written_number n) zero = n.
Proof.
  intros (q & -> & H). cbn. apply clamp_storable, H.
Qed.

Lemma ensureNumberDaily_written (n fallback : number) :
  storable n -> ensureNumberDaily (written_number n) fallback = n.
Proof.
  intros (q & -> & H). cbn. apply clamp_storable, H.
Qed.

Lemma ensureNumber_storable (v : JsValue) : storable (ensureNumber v zero).
Proof.
  unfold ensureNumber. destruct v as [| | |n|s| |]; try apply storable_zero.
  - destruct (Number_isFinite n) eqn:E;
      [apply clamped_is_storable, E | apply storable_zero].
  - destruct (Number_isFinite (StringToNumber s)) eqn:E;
      [apply clamped_is_storable, E | apply storable_zero].
Qed.

Lemma ensureNumberDaily_storable (v : JsValue) (fallback : number) :
  storable fallback -> storable (ensureNumberDaily v fallback).
Proof.
  intros H. unfold ensureNumberDaily. destruct v as [| | |n| | |]; auto.
  destruct (Number_isFinite n) eqn:E; [apply clamped_is_storable, E | auto].
Qed.

Lemma storable_nonneg (n : number) : storable n -> nonneg n.
Proof. intros (q & -> & H). exact H. Qed.

(** A sum of numbers that are at least 0 is at least 0, finite or not;
    no step of what follows asks a sum to be finite. *)
Lemma nonneg_add (a b : number) : nonneg a -> nonneg b -> nonneg (add a b).
Proof.
  destruct a as [p| | |], b as [q| | |]; cbn [nonneg add]; try tauto.
  intros Hp Hq. rewrite Qred_correct.
  replace 0%Q with (0 + 0)%Q by reflexivity.
  apply Qplus_le_compat; assumption.
Qed.

Lemma nonneg_or_zero (n : number) : nonneg n -> nonneg (or_zero n).
Proof.
  intros H. unfold or_zero. destruct (number_truthy n);
    [exact H | apply Qle_refl].
Qed.

Lemma storable_not_NaN (n : number) : storable n -> n <> NaN.
Proof. intros (q & -> & _). discriminate. Qed.

Lemma nutrient_sum_nonneg (f : NutritionTotals -> number)
    (l : list Meal) :
  Forall (fun m => storable (f (nutrients (food m)))) l ->
  nonneg (nutrient_sum f l).
Proof.
  unfold nutrient_sum, sum_list. rewrite LedgerProofs.fold_left_map.
  assert (Hz : nonneg zero) by apply Qle_refl.
  revert Hz. generalize zero.
  induction l as [|m l IH]; intros acc Hacc H; cbn [fold_left].
  - exact Hacc.
  - inversion H as [|? ? Hm Hl]; subst. apply IH; [|exact Hl].
    apply nonneg_add; [exact Hacc|].
    apply nonneg_or_zero, storable_nonneg, Hm.
Qed.

Lemma totals_nonneg (l : list Meal) :
  Forall storable_meal l ->
  nonneg (calories (calculateMealTotals l))
  /\ nonneg (protein (calculateMealTotals l))
  /\ nonneg (carbs (calculateMealTotals l))
  /\ nonneg (fats (calculateMealTotals l)).
Proof.
  intros H. rewrite LedgerProofs.calculateMealTotals_sums.
  cbn [calories protein carbs fats].
  repeat split; apply nutrient_sum_nonneg;
    (eapply Forall_impl; [|exact H]);
    intros m (_ & _ & _ & _ & H1 & H2 & H3 & H4 & _); assumption.
Qed.

(** A total that is at least 0 is read back: as the number written when
    it is finite, and as the fallback when it is not and [null] was
    written for it. *)
Lemma total_reads_back (t fallback : number) :
  nonneg t -> (Number_isFinite t = false -> fallback = t) ->
  ensureNumberDaily (written_number t) fallback = t.
Proof.
  destruct t as [q| | |]; cbn [nonneg]; intros Hn Hf; try contradiction.
  - cbn. apply clamp_storable, Hn.
  - cbn. apply Hf. reflexivity.
Qed.

(** ** Reading back what was written *)

Lemma nonblank_written (s : string) :
  trim s <> EmptyString -> is_nonblank_string (VStr s) = Some s.
Proof.
  intros H. cbn. rewrite (proj2 (String.eqb_neq _ _) H). reflexivity.
Qed.

Lemma confidence_written (c : Confidence) :
  confidence_of (VStr (confidence_text c)) = Some c.
Proof. destruct c; reflexivity. Qed.

Lemma mealType_written (t : MealType) :
  mealType_of (VStr (mealType_text t)) = Some t.
Proof. destruct t; reflexivity. Qed.

Lemma written_number_defined (n : number) : written_number n <> VUndefined.
Proof. unfold written_number. destruct (Number_isFinite n); discriminate. Qed.

Lemma normalizeMeal_written (env : Fresh) (m : Meal) (index : nat) :
  storable_meal m -> normalizeMeal env (written_meal m) index = m.
Proof.
  destruct m as [[[c p b f] nm ss fi co no] id ts mt im].
  intros (Hid & Hts & Hnm & Htrim & Hc & Hp & Hb & Hf & Hfi).
  cbn [food meal_id timestamp name nutrients calories protein carbs fats
       fiber] in *.
  unfold normalizeMeal, written_meal.
  cbn [truthy is_object_type negb orb food nutrients name serving_size fiber
       confidence notes meal_id timestamp mealType imageUri calories protein
       carbs fats].
  assert (Hfi' : forall n, fi = Some n ->
                   ensureNumber (written_number n) zero = n
                   /\ exists q, written_number n = VNum (Fin q)).
  { intros n Hn. split; [apply ensureNumber_written, Hfi, Hn|].
    destruct (Hfi n Hn) as (q & -> & _). exists q. reflexivity. }
  destruct ss as [ss|], fi as [fi|], co as [co|], no as [no|], mt as [mt|],
           im as [im|];
    cbn [optional app field obj_get String.eqb Ascii.eqb Bool.eqb];
    rewrite ?nonblank_written by assumption;
    rewrite ?Htrim, ?ensureNumber_written by assumption;
    rewrite ?confidence_written, ?mealType_written;
    cbn [string_or_undefined];
    try (destruct (Hfi' fi eq_refl) as (E1 & q & E2); rewrite E2;
         rewrite E2 in E1; rewrite E1);
    reflexivity.
Qed.

Lemma meals_written (env : Fresh) (l : list Meal) :
  forall index,
    Forall storable_meal l ->
    map_indexed (normalizeMeal env) index (map written_meal l) = l.
Proof.
  induction l as [|m l IH]; intros index H; [reflexivity|].
  inversion H as [|? ? Hm Hl]; subst. cbn [map map_indexed].
  rewrite (normalizeMeal_written env m index Hm), (IH (S index) Hl).
  reflexivity.
Qed.

Lemma settled_reads_back (f : NutritionTotals -> number)
    (e : DailyNutrition) :
  Forall storable_meal (meals e) ->
  (nonneg (f (calculateMealTotals (meals e)))) ->
  settled_total f e ->
  ensureNumberDaily (written_number (f (totals e)))
                    (f (calculateMealTotals (meals e)))
  = f (totals e).
Proof.
  intros Hms Hsum [Hs | Heq].
  - apply ensureNumberDaily_written, Hs.
  - apply total_reads_back; [rewrite Heq; exact Hsum|].
    intros _. symmetry. exact Heq.
Qed.

Lemma kept_reads_back (env : Fresh) (e : DailyNutrition) :
  kept_entry e -> normalizeDailyNutrition env (written e) = e.
Proof.
  intros (Hms & Hc & Hp & Hb & Hf & (w' & Hw & Hw')).
  destruct (totals_nonneg _ Hms) as (Nc & Np & Nb & Nf).
  pose proof (settled_reads_back calories e Hms Nc Hc) as Rc.
  pose proof (settled_reads_back protein e Hms Np Hp) as Rp.
  pose proof (settled_reads_back carbs e Hms Nb Hb) as Rb.
  pose proof (settled_reads_back fats e Hms Nf Hf) as Rf.
  destruct e as [[c p b f] ms w].
  cbn [totals meals waterIntake calories protein carbs fats] in *.
  subst w. unfold normalizeDailyNutrition, written.
  cbn [truthy is_object_type negb orb totals meals waterIntake calories
       protein carbs fats optional app field obj_get String.eqb Ascii.eqb
       Bool.eqb].
  rewrite (meals_written env ms 0 Hms).
  rewrite Rc, Rp, Rb, Rf.
  rewrite (ensureNumberDaily_written w' zero Hw'). reflexivity.
Qed.

Lemma storable_kept (e : DailyNutrition) : storable_entry e -> kept_entry e.
Proof.
  intros (Hms & Hc & Hp & Hb & Hf & Hw). unfold kept_entry, settled_total.
  auto 10.
Qed.

Lemma written_reads_back (env : Fresh) (e : DailyNutrition) :
  storable_entry e -> normalizeDailyNutrition env (written e) = e.
Proof. intros H. apply kept_reads_back, storable_kept, H. Qed.

(** ** Concrete entries *)

Ltac concrete_number :=
  eexists; split; [reflexivity | unfold Qle; cbn; lia].

Ltac concrete_text := vm_compute; discriminate.

Ltac concrete_food :=
  unfold storable_food; cbn [name nutrients calories protein carbs fats fiber];
  split; [concrete_text|]; split; [reflexivity|];
  repeat (split; [concrete_number|]);
  intros f Hf; try discriminate Hf; injection Hf as <-; concrete_number.

Lemma apple_storable : storable_food (new_food apple).
Proof. unfold apple. cbn [new_food]. concrete_food. Qed.

Lemma rice_storable : storable_food (new_food rice).
Proof. unfold rice. cbn [new_food]. concrete_food. Qed.

Lemma salad_storable : storable_food salad.
Proof. unfold salad. concrete_food. Qed.

Lemma calories_100_storable : storable_updates calories_100.
Proof.
  unfold storable_updates, calories_100.
  cbn [set_id set_timestamp set_name set_calories set_protein set_carbs
       set_fats set_fiber].
  repeat match goal with |- _ /\ _ => split end;
    intros x Hx; try discriminate Hx.
  injection Hx as <-. concrete_number.
Qed.

(** X9. An entry with storable meals, storable totals and a storable
    [waterIntake] survives a round trip through storage: the value
    [JSON.parse] gives for what [save] writes is normalized to the entry
    that was written, whatever the environment generates, so [load] hands
    that entry over. *)
Theorem written_entry_reads_back (env : Fresh) (e : DailyNutrition) :
  storable_entry e ->
  normalizeDailyNutrition env (written e) = e
  /\ forall (JSON_parse : string -> Exn JsValue) (text : string),
       text <> EmptyString -> JSON_parse text = Ok (written e) ->
       load JSON_parse env (Ok (Some text)) = e.
Proof.
  intros H. pose proof (written_reads_back env e H) as R.
  split; [exact R|].
  intros JSON_parse text Hne Hp. unfold load. cbn [bind].
  rewrite (proj2 (String.eqb_neq _ _) Hne), Hp. cbn [bind catch_default].
  exact R.
Qed.

End StorageProofs.

(* ===================================================================== *)
(** * What loading and mutating produce *)
(* ===================================================================== *)

Module LoadProofs.
Import JS Json Nutrition Gemini Storage Props Terms TextProofs StorageProofs.
Local Open Scope string_scope.

(** ** Labels *)

Lemma trimEnd_app_visible (s t : string) :
  has_visible t = true -> trimEnd (s ++ t) = s ++ trimEnd t.
Proof.
  intros H. induction s as [|c s IH]; [reflexivity|].
  cbn [append trimEnd]. rewrite trimEnd_empty, has_visible_app, H.
  rewrite orb_true_r, andb_false_r, IH. reflexivity.
Qed.

Lemma digits_trimEnd (d : Decimal.uint) :
  trimEnd (NilEmpty.string_of_uint d) = NilEmpty.string_of_uint d.
Proof.
  induction d; cbn [NilEmpty.string_of_uint trimEnd]; try reflexivity;
    rewrite IHd; reflexivity.
Qed.

Lemma nat_to_string_trimEnd (n : nat) :
  trimEnd (nat_to_string n) = nat_to_string n
  /\ has_visible (nat_to_string n) = true.
Proof.
  unfold nat_to_string, NilZero.string_of_uint.
  destruct (Nat.to_uint n) eqn:E; try (split; reflexivity);
    (split; [apply digits_trimEnd | reflexivity]).
Qed.

Lemma meal_label_trimmed (n : nat) :
  trim ("Meal " ++ nat_to_string n) = "Meal " ++ nat_to_string n.
Proof.
  destruct (nat_to_string_trimEnd n) as [H1 H2].
  unfold trim. cbn [append trimStart]. 
  change (is_space "M") with false. cbv iota.
  change (String "M" (String "e" (String "a" (String "l"
            (String " " (nat_to_string n))))))
    with ("Meal " ++ nat_to_string n).
  rewrite (trimEnd_app_visible _ _ H2), H1. reflexivity.
Qed.

Lemma nonblank_string_inv (v : JsValue) (s : string) :
  is_nonblank_string v = Some s -> v = VStr s /\ trim s <> EmptyString.
Proof.
  destruct v as [| | | |t| |]; try discriminate. cbn.
  destruct (trim t =? EmptyString)%string eqn:E; [discriminate|].
  intros H. injection H as <-. split; [reflexivity|].
  apply String.eqb_neq, E.
Qed.

(** ** What loading produces *)

Lemma normalizeMeal_storable (env : Fresh) (meal : JsValue) (index : nat) :
  env_ok env -> storable_meal (normalizeMeal env meal index).
Proof.
  intros Henv. destruct (Henv index) as [Hid Hnow].
  unfold normalizeMeal.
  destruct (negb (truthy meal) || negb (is_object_type meal)).
  - unfold storable_meal, storable_food.
    cbn [food meal_id timestamp name nutrients calories protein carbs fats
         fiber noTotals].
    rewrite meal_label_trimmed.
    repeat split; try assumption; try apply storable_zero;
      try discriminate.
  - unfold storable_meal, storable_food.
    cbn [food meal_id timestamp name nutrients calories protein carbs fats
         fiber].
    assert (Hts : trim (match is_nonblank_string (field meal "timestamp") with
                        | Some s => s
                        | None => nowISOString env index
                        end) <> EmptyString).
    { destruct (is_nonblank_string (field meal "timestamp")) as [s|] eqn:E;
        [apply (nonblank_string_inv _ _ E) | exact Hnow]. }
    split.
    { destruct (is_nonblank_string (field meal "id")) as [s|] eqn:E;
        [apply (nonblank_string_inv _ _ E)|].
      apply trim_app_nonblank, Hts. }
    split; [exact Hts|].
    split.
    { destruct (is_nonblank_string (field meal "name")) as [s|] eqn:E.
      - rewrite trim_idem. apply (nonblank_string_inv _ _ E).
      - rewrite meal_label_trimmed. discriminate. }
    split.
    { destruct (is_nonblank_string (field meal "name")) as [s|];
        [apply trim_idem | apply meal_label_trimmed]. }
    repeat (split; [apply ensureNumber_storable|]).
    intros f Hf.
    assert (X : f = ensureNumber (field meal "fiber") zero).
    { destruct (field meal "fiber"); [discriminate Hf | ..];
        injection Hf as <-; reflexivity. }
    rewrite X. apply ensureNumber_storable.
Qed.

Lemma map_indexed_Forall {A B : Type} (P : B -> Prop) (f : A -> nat -> B)
    (l : list A) :
  (forall x i, P (f x i)) ->
  forall index, Forall P (map_indexed f index l).
Proof.
  intros H. induction l as [|x l IH]; intros index; cbn [map_indexed];
    constructor; auto.
Qed.

Lemma map_indexed_length {A B : Type} (f : A -> nat -> B) (l : list A) :
  forall index, List.length (map_indexed f index l) = List.length l.
Proof.
  induction l as [|x l IH]; intros index; cbn [map_indexed List.length];
    [reflexivity | rewrite IH; reflexivity].
Qed.

Lemma initial_storable : storable_entry initialDailyNutrition.
Proof.
  unfold storable_entry, initialDailyNutrition.
  cbn [meals totals waterIntake noTotals calories protein carbs fats].
  split; [constructor|].
  repeat (split; [apply storable_zero|]).
  exists zero. split; [reflexivity | apply storable_zero].
Qed.

Lemma initial_kept : kept_entry initialDailyNutrition.
Proof. apply storable_kept, initial_storable. Qed.

Lemma ensureNumberDaily_settled (v : JsValue) (fallback : number) :
  storable (ensureNumberDaily v fallback)
  \/ ensureNumberDaily v fallback = fallback.
Proof.
  unfold ensureNumberDaily. destruct v as [| | |n| | |]; auto.
  destruct (Number_isFinite n) eqn:E; [|auto].
  left. apply clamped_is_storable, E.
Qed.

Lemma normalizeDailyNutrition_kept (env : Fresh) (input : JsValue) :
  env_ok env -> kept_entry (normalizeDailyNutrition env input).
Proof.
  intros Henv. unfold normalizeDailyNutrition.
  destruct (negb (truthy input) || negb (is_object_type input));
    [apply initial_kept|].
  set (items := match field input "meals" with
                | VArr items => items
                | _ => []
                end).
  assert (Hms : Forall storable_meal
                  (map_indexed (normalizeMeal env) 0 items)).
  { apply map_indexed_Forall. intros x i.
    apply normalizeMeal_storable, Henv. }
  unfold kept_entry, settled_total.
  cbn [meals totals waterIntake calories protein carbs fats].
  split; [exact Hms|].
  repeat (split; [apply ensureNumberDaily_settled|]).
  eexists. split; [reflexivity|].
  apply ensureNumberDaily_storable, storable_zero.
Qed.

(** X10. When the ids and instants the environment generates are not
    blank, whatever value is stored, the entry [normalizeDailyNutrition]
    makes of it has meals that are storable (an id, an instant and a
    trimmed name that are not blank, nutrients that are finite and at
    least 0), a storable intake, and totals each of which is a finite
    number at least 0 or the sum over the meals. It keeps one meal for
    each element of the stored [meals] array, and writing it and reading
    it back, in any environment, gives the same entry: a total that is
    not finite is written as [null] and read back as the same sum. *)
Theorem loaded_entry_is_stable (env env' : Fresh) (input : JsValue) :
  env_ok env ->
  kept_entry (normalizeDailyNutrition env input)
  /\ (forall fields items,
        input = VObj fields -> obj_get fields "meals" = VArr items ->
        List.length (meals (normalizeDailyNutrition env input))
        = List.length items)
  /\ normalizeDailyNutrition env'
       (written (normalizeDailyNutrition env input))
     = normalizeDailyNutrition env input.
Proof.
  intros Henv.
  pose proof (normalizeDailyNutrition_kept env input Henv) as Hs.
  split; [exact Hs|]. split.
  - intros fields items -> Hitems. unfold normalizeDailyNutrition.
    cbn [truthy is_object_type negb orb field meals]. rewrite Hitems.
    apply map_indexed_length.
  - apply kept_reads_back, Hs.
Qed.

(** ** Mutations *)

Lemma spread_storable (m : Meal) (u : MealUpdates) :
  storable_meal m -> storable_updates u -> storable_meal (spread m u).
Proof.
  intros (Hid & Hts & Hnm & Htrim & Hc & Hp & Hb & Hf & Hfi)
         (Uid & Uts & Unm & Uc & Up & Ub & Uf & Ufi).
  unfold storable_meal, storable_food, spread, override.
  cbn [food meal_id timestamp name nutrients calories protein carbs fats
       fiber].
  split; [destruct (set_id u); auto|].
  split; [destruct (set_timestamp u); auto|].
  split; [destruct (set_name u) as [s|]; [apply (Unm s eq_refl) | auto]|].
  split; [destruct (set_name u) as [s|]; [apply (Unm s eq_refl) | auto]|].
  split; [destruct (set_calories u); auto|].
  split; [destruct (set_protein u); auto|].
  split; [destruct (set_carbs u); auto|].
  split; [destruct (set_fats u); auto|].
  intros n Hn. destruct (set_fiber u) as [[x|]|].
  - injection Hn as <-. apply Ufi. reflexivity.
  - discriminate.
  - auto.
Qed.

Lemma mutate_meals_storable (data : DailyNutrition) (op : Mutation) :
  Forall storable_meal (meals data) -> storable_mutation op ->
  Forall storable_meal (meals (mutate data op)).
Proof.
  intros Hm Hop. destruct op as [meal id now|mealId updates|mealId];
    cbn [mutate addMeal updateMeal deleteMeal fst meals].
  - destruct Hop as (Hf & Hid & Hnow). apply Forall_app. split; [exact Hm|].
    constructor; [|constructor].
    split; [exact Hid | split; [exact Hnow | exact Hf]].
  - rewrite Forall_forall in Hm |- *. intros m Hin.
    apply in_map_iff in Hin as (m0 & <- & Hin0).
    destruct (meal_id m0 =? mealId)%string;
      [apply spread_storable; auto | auto].
  - rewrite Forall_forall in Hm |- *. intros m Hin.
    apply filter_In in Hin as [Hin _]. auto.
Qed.

Lemma mutate_kept (data : DailyNutrition) (op : Mutation) :
  kept_entry data -> storable_mutation op -> kept_entry (mutate data op).
Proof.
  intros (Hm & _ & _ & _ & _ & Hw) Hop.
  pose proof (mutate_meals_storable data op Hm Hop) as Hm'.
  destruct (LedgerProofs.mutate_consistent data op) as [_ Hwater].
  assert (Ht : totals (mutate data op)
               = calculateMealTotals (meals (mutate data op)))
    by (destruct op; reflexivity).
  unfold kept_entry, settled_total. rewrite Ht, Hwater. auto 10.
Qed.

(** X11. Start from an entry as the loader or a mutation leaves it and
    apply mutations that add storable food under ids and instants that are
    not blank, edit with storable values, or delete. Every entry produced
    has storable meals and totals that are the sums over them, and is read
    back from storage exactly as it was written, whether or not earlier
    writes went through and whether or not a sum is finite. *)
Theorem session_entries_read_back
    (data : DailyNutrition) (ops : list (Mutation * bool)) :
  kept_entry data ->
  Forall (fun o => storable_mutation (fst o)) ops ->
  Forall (fun e => kept_entry e
                   /\ totals e = calculateMealTotals (meals e)
                   /\ forall env, normalizeDailyNutrition env (written e) = e)
         (history data ops).
Proof.
  revert data. induction ops as [|[op flag] ops IH]; intros data Hd Hops;
    cbn [history]; [constructor|].
  inversion Hops as [|? ? Hop Hops']; subst. cbn [fst] in Hop.
  pose proof (mutate_kept data op Hd Hop) as Hs.
  constructor.
  - split; [exact Hs|]. split; [destruct op; reflexivity|].
    intros env. apply kept_reads_back, Hs.
  - apply IH; [|exact Hops']. destruct flag; cbn [save]; assumption.
Qed.

(** ** Concrete entries *)

Lemma sample_env_ok : env_ok sample_env.
Proof.
  intros i. cbn [sample_env createMealId nowISOString]. split.
  - apply trim_app_nonblank. concrete_text.
  - concrete_text.
Qed.

Lemma a_day_storable :
  Forall (fun o => storable_mutation (fst o)) a_day.
Proof.
  unfold a_day. repeat (apply Forall_cons || apply Forall_nil);
    cbn [fst storable_mutation].
  - split; [apply apple_storable | split; concrete_text].
  - split; [apply rice_storable | split; concrete_text].
  - apply calories_100_storable.
  - exact I.
Qed.

Lemma two_meals_kept : kept_entry two_meals.
Proof.
  unfold two_meals.
  apply mutate_kept; [apply mutate_kept; [apply initial_kept|]|];
    cbn [storable_mutation].
  - split; [apply apple_storable | split; concrete_text].
  - split; [apply rice_storable | split; concrete_text].
Qed.

Lemma storable_test (n : number) :
  match n with Fin q => Qle_bool 0 q | _ => false end = true -> storable n.
Proof.
  destruct n as [q| | |]; try discriminate.
  intros H. exists q. split; [reflexivity | apply Qle_bool_iff, H].
Qed.

Lemma two_meals_storable : storable_entry two_meals.
Proof.
  destruct two_meals_kept as (Hms & _ & _ & _ & _ & Hw).
  split; [exact Hms|].
  repeat (split; [apply storable_test; vm_compute; reflexivity|]).
  exact Hw.
Qed.

Lemma written_entry_reads_back_witness :
  normalizeDailyNutrition sample_env (written two_meals) = two_meals.
Proof.
  apply (proj1 (written_entry_reads_back sample_env two_meals
                  two_meals_storable)).
Defined.

Lemma loaded_entry_is_stable_witness :
  kept_entry (normalizeDailyNutrition sample_env stale_entry).
Proof.
  apply (proj1 (loaded_entry_is_stable sample_env sample_env stale_entry
                  sample_env_ok)).
Defined.

Lemma session_entries_read_back_witness :
  Forall (fun e => kept_entry e
                   /\ totals e = calculateMealTotals (meals e)
                   /\ forall env, normalizeDailyNutrition env (written e) = e)
         (history initialDailyNutrition a_day).
Proof.
  apply (session_entries_read_back initialDailyNutrition a_day
           initial_kept a_day_storable).
Defined.

End LoadProofs.

(* ===================================================================== *)
(** * The mutations of the meal list *)
(* ===================================================================== *)

Module MutationProofs.
Import JS Json Nutrition Gemini Storage Props Terms TextProofs StorageProofs.
Local Open Scope string_scope.

Lemma filter_absent (id : string) (l : list Meal) :
  ~ In id (map meal_id l) ->
  filter (fun m => negb (meal_id m =? id)%string) l = l.
Proof.
  induction l as [|m l IH]; intros H; [reflexivity|]. cbn [filter].
  destruct (meal_id m =? id)%string eqn:E.
  - exfalso. apply H. left. apply String.eqb_eq, E.
  - cbn [negb]. rewrite IH; [reflexivity|].
    intros Hin. apply H. right. exact Hin.
Qed.

(** X12. Adding a meal under an id no meal of the entry has and deleting
    that id again gives back the meal list, with the totals recomputed
    over it; on an entry whose totals are the recomputed ones it gives back
    the entry. *)
Theorem delete_undoes_add
    (data : DailyNutrition) (meal : NewMeal) (id now : string) :
  ~ In id (ids data) ->
  meals (deleteMeal (fst (addMeal data meal id now)) id) = meals data
  /\ totals (deleteMeal (fst (addMeal data meal id now)) id)
     = calculateMealTotals (meals data)
  /\ (totals data = calculateMealTotals (meals data) ->
      deleteMeal (fst (addMeal data meal id now)) id = data).
Proof.
  intros H.
  assert (E : filter (fun m => negb (meal_id m =? id)%string)
                (meals data ++ [{| food := new_food meal;
                                   meal_id := id;
                                   timestamp := now;
                                   mealType := new_mealType meal;
                                   imageUri := new_imageUri meal |}])
              = meals data).
  { rewrite filter_app, (filter_absent id _ H). cbn [filter meal_id].
    rewrite String.eqb_refl. cbn [negb]. apply app_nil_r. }
  unfold deleteMeal, addMeal. cbn [fst meals totals waterIntake].
  rewrite E. split; [reflexivity|]. split; [reflexivity|].
  intros Ht. destruct data as [t ms w]. cbn [totals meals] in *.
  rewrite <- Ht. reflexivity.
Qed.

Lemma filter_without (id : string) (l : list Meal) :
  without_id id l (filter (fun m => negb (meal_id m =? id)%string) l).
Proof.
  induction l as [|m l IH]; cbn [filter]; [constructor|].
  destruct (meal_id m =? id)%string eqn:E; cbn [negb].
  - apply without_drop; [apply String.eqb_eq, E | exact IH].
  - apply without_keep; [apply String.eqb_neq, E | exact IH].
Qed.

(** X13. The meal list after [deleteMeal] is the list before without the
    meals of the deleted id, the other meals in their order and as often
    as before. So no meal has the deleted id and the meals kept are those
    of another id; deleting an id no meal has leaves the meal list as it
    is; deleting twice is deleting once. *)
Theorem deleteMeal_removes (data : DailyNutrition) (id : string) :
  without_id id (meals data) (meals (deleteMeal data id))
  /\ ~ In id (ids (deleteMeal data id))
  /\ (forall m, In m (meals (deleteMeal data id))
                <-> In m (meals data) /\ meal_id m <> id)
  /\ List.length (meals (deleteMeal data id)) <= List.length (meals data)
  /\ (~ In id (ids data) -> meals (deleteMeal data id) = meals data)
  /\ deleteMeal (deleteMeal data id) id = deleteMeal data id.
Proof.
  assert (A : ~ In id (ids (deleteMeal data id))).
  { unfold ids, deleteMeal. cbn [meals]. intros Hin.
    apply in_map_iff in Hin as (m & Hid & Hin).
    apply filter_In in Hin as [_ Hf].
    rewrite Hid, String.eqb_refl in Hf. discriminate. }
  split; [apply filter_without|].
  split; [exact A|]. split.
  { intros m. unfold deleteMeal. cbn [meals]. rewrite filter_In.
    rewrite negb_true_iff, String.eqb_neq. reflexivity. }
  split; [apply filter_length_le|].
  split; [intros H; apply (filter_absent id _ H)|].
  unfold deleteMeal at 1. cbn [waterIntake].
  rewrite (filter_absent id (meals (deleteMeal data id)) A).
  reflexivity.
Qed.

Lemma map_unchanged (id : string) (u : MealUpdates) (l : list Meal) :
  ~ In id (map meal_id l) ->
  map (fun m => if (meal_id m =? id)%string then spread m u else m) l = l.
Proof.
  induction l as [|m l IH]; intros H; [reflexivity|]. cbn [map].
  destruct (meal_id m =? id)%string eqn:E.
  - exfalso. apply H. left. apply String.eqb_eq, E.
  - rewrite IH; [reflexivity|]. intros Hin. apply H. right. exact Hin.
Qed.

(** X14. [updateMeal] keeps the number of meals and their order; with an id
    no meal has it leaves the meal list as it is; unless the update sets
    [id], every meal keeps its id; a meal with another id is not
    touched, and a meal with the id gets the fields the update sets. *)
Theorem updateMeal_edits_in_place
    (data : DailyNutrition) (id : string) (u : MealUpdates) :
  List.length (meals (updateMeal data id u)) = List.length (meals data)
  /\ (~ In id (ids data) -> meals (updateMeal data id u) = meals data)
  /\ (set_id u = None -> ids (updateMeal data id u) = ids data)
  /\ (forall k m, nth_error (meals data) k = Some m ->
        nth_error (meals (updateMeal data id u)) k
        = Some (if (meal_id m =? id)%string then spread m u else m)).
Proof.
  unfold updateMeal, ids. cbn [meals].
  split; [apply length_map|].
  split; [apply map_unchanged|].
  split.
  - intros Hid. rewrite map_map. apply map_ext. intros m.
    destruct (meal_id m =? id)%string; [|reflexivity].
    unfold spread, override. cbn [meal_id]. rewrite Hid. reflexivity.
  - intros k m H. rewrite nth_error_map, H. reflexivity.
Qed.

Lemma sum_list_app (l : list number) (x : number) :
  sum_list (l ++ [x]) = add (sum_list l) x.
Proof. unfold sum_list. rewrite fold_left_app. reflexivity. Qed.

(** X15. [addMeal] puts the new meal, with the id and the instant it was
    given, at the end of the meal list and leaves the meals before it as
    they are; it returns that meal; each total grows from the sum over the
    old meals by the nutrient of the new one. *)
Theorem addMeal_appends
    (data : DailyNutrition) (meal : NewMeal) (id now : string) :
  meals (fst (addMeal data meal id now))
  = (meals data ++ [snd (addMeal data meal id now)])%list
  /\ meal_id (snd (addMeal data meal id now)) = id
  /\ timestamp (snd (addMeal data meal id now)) = now
  /\ food (snd (addMeal data meal id now)) = new_food meal
  /\ calories (totals (fst (addMeal data meal id now)))
     = add (nutrient_sum calories (meals data))
           (or_zero (calories (nutrients (new_food meal))))
  /\ protein (totals (fst (addMeal data meal id now)))
     = add (nutrient_sum protein (meals data))
           (or_zero (protein (nutrients (new_food meal))))
  /\ carbs (totals (fst (addMeal data meal id now)))
     = add (nutrient_sum carbs (meals data))
           (or_zero (carbs (nutrients (new_food meal))))
  /\ fats (totals (fst (addMeal data meal id now)))
     = add (nutrient_sum fats (meals data))
           (or_zero (fats (nutrients (new_food meal)))).
Proof.
  unfold addMeal. cbn [fst snd meals totals meal_id timestamp food].
  rewrite LedgerProofs.calculateMealTotals_sums.
  cbn [calories protein carbs fats]. unfold nutrient_sum.
  rewrite !map_app. cbn [map]. rewrite !sum_list_app. cbn [food nutrients].
  repeat split.
Qed.

(** X16. [addWater] leaves the meals and the totals alone. It does not
    floor the new intake at 0: the new intake is at least 0 exactly when
    the old intake and the amount add up to at least 0; on an intake of 0
    it is the amount. A negative intake does not survive storage: the
    loader reads the written entry back with an intake of 0. All of it
    holds of binary64 arithmetic as well, whose rounding keeps the sign of
    a sum and leaves [0 + x] exact. *)
Theorem addWater_adds (env : Fresh) (data : DailyNutrition) (w ml : Q) :
  waterIntake data = Some (Fin w) ->
  meals (addWater data (Fin ml)) = meals data
  /\ totals (addWater data (Fin ml)) = totals data
  /\ exists n,
       waterIntake (addWater data (Fin ml)) = Some n
       /\ (nonneg n <-> (0 <= w + ml)%Q)
       /\ ((w == 0)%Q -> num_eq n (Fin ml))
       /\ ((w + ml < 0)%Q ->
           waterIntake (normalizeDailyNutrition env
                          (written (addWater data (Fin ml))))
           = Some zero).
Proof.
  intros Hw. split; [reflexivity|]. split; [reflexivity|].
  assert (Z : exists w', or_zero (Fin w) = Fin w' /\ (w' == w)%Q).
  { unfold or_zero, number_truthy.
    destruct (Qeq_bool w 0) eqn:E; cbn [negb].
    - exists 0%Q. split; [reflexivity|]. apply Qeq_bool_eq in E.
      symmetry. exact E.
    - exists w. split; reflexivity. }
  destruct Z as (w' & Hz & Ew).
  assert (Hn : waterIntake (addWater data (Fin ml))
               = Some (Fin (Qred (w' + ml)))).
  { unfold addWater. cbn [waterIntake]. rewrite Hw, Hz. reflexivity. }
  exists (Fin (Qred (w' + ml))). split; [exact Hn|].
  cbn [nonneg num_eq]. split; [|split].
  - rewrite Qred_correct, Ew. reflexivity.
  - intros H0. rewrite Qred_correct, Ew, H0. apply Qplus_0_l.
  - intros Hneg.
    assert (Hr : Qle_bool 0 (Qred (w' + ml)) = false).
    { destruct (Qle_bool 0 (Qred (w' + ml))) eqn:E; [|reflexivity].
      apply Qle_bool_iff in E. rewrite Qred_correct, Ew in E.
      exfalso. apply (Qlt_irrefl 0).
      apply (Qle_lt_trans _ _ _ E Hneg). }
    unfold normalizeDailyNutrition, written. rewrite Hn.
    cbn [truthy is_object_type negb orb optional app field obj_get
         String.eqb Ascii.eqb Bool.eqb waterIntake written_number
         Number_isFinite ensureNumberDaily Math_max zero].
    rewrite Hr. reflexivity.
Qed.

Lemma delete_undoes_add_witness :
  meals (deleteMeal (fst (addMeal two_meals salad_meal "m3"
                                  "2024-05-01T19:00:00.000Z")) "m3")
  = meals two_meals.
Proof.
  refine (proj1 (delete_undoes_add two_meals salad_meal "m3"
                   "2024-05-01T19:00:00.000Z" _)).
  vm_compute. intros [H|[H|[]]]; discriminate H.
Defined.

Lemma addWater_adds_witness :
  waterIntake (normalizeDailyNutrition sample_env
                 (written (addWater two_meals (Fin (-250)))))
  = Some zero.
Proof.
  destruct (proj2 (proj2 (addWater_adds sample_env two_meals 0 (-250)
                            eq_refl)))
    as (n & _ & _ & _ & H).
  apply H. reflexivity.
Defined.

End MutationProofs.

(* ===================================================================== *)
(** * Loading a day, a week and the goals *)
(* ===================================================================== *)

Module HookProofs.
Import JS Json Nutrition Gemini Storage Props Terms TextProofs StorageProofs.
Local Open Scope string_scope.

Lemma normalize_non_object (env : Fresh) (v : JsValue) :
  (forall fields, v <> VObj fields) ->
  normalizeDailyNutrition env v = initialDailyNutrition.
Proof.
  intros H. destruct v as [| |b|n|s|items|fields]; try reflexivity;
    try (unfold normalizeDailyNutrition; cbn [is_object_type negb];
         rewrite orb_true_r; reflexivity).
  exfalso. apply (H fields). reflexivity.
Qed.

Section Decoder.

Variable JSON_parse : string -> Exn JsValue.

(** X17. [load] hands over the initial, empty entry when the read throws,
    when nothing or the empty text is stored, when the stored text does
    not decode, and when it decodes to anything but an object. *)
Theorem load_falls_back_to_empty
    (env : Fresh) (stored : Exn (option string)) :
  (exists e, stored = Throw e)
  \/ stored = Ok None
  \/ stored = Ok (Some EmptyString)
  \/ (exists text,
        stored = Ok (Some text)
        /\ ((exists e, JSON_parse text = Throw e)
            \/ exists v, JSON_parse text = Ok v
                         /\ forall fields, v <> VObj fields)) ->
  load JSON_parse env stored = initialDailyNutrition.
Proof.
  unfold load.
  intros [[e ->] | [-> | [-> | (text & -> & H)]]]; try reflexivity.
  cbn [bind]. destruct (text =? EmptyString)%string; [reflexivity|].
  destruct H as [[e ->] | (v & -> & Hv)]; [reflexivity|].
  cbn [bind catch_default]. apply normalize_non_object, Hv.
Qed.

Variable toDateString : Z -> string.
Variable getItem : string -> Exn (option string).

Lemma weekDay_is_loadDay (env : Fresh) (endDate : Z) (i : nat)
    (d : DailyNutrition) :
  weekDay JSON_parse toDateString getItem env endDate i = Ok d ->
  d = loadDay JSON_parse toDateString getItem env (endDate - Z.of_nat i).
Proof.
  unfold weekDay, loadDay, load.
  destruct (getItem (DAY_PREFIX ++ toDateString (endDate - Z.of_nat i)))
    as [[text|]|e]; cbn [bind catch_default]; try discriminate.
  - destruct (text =? EmptyString)%string.
    + intros H. injection H as <-. reflexivity.
    + destruct (JSON_parse text) as [v|e]; cbn [bind catch_default];
        [|discriminate].
      intros H. injection H as <-. reflexivity.
  - intros H. injection H as <-. reflexivity.
Qed.

Lemma weekDay_throws (env : Fresh) (endDate : Z) (i : nat) (e : string) :
  weekDay JSON_parse toDateString getItem env endDate i = Throw e ->
  loadDay JSON_parse toDateString getItem env (endDate - Z.of_nat i)
  = initialDailyNutrition.
Proof.
  unfold weekDay, loadDay, load.
  destruct (getItem (DAY_PREFIX ++ toDateString (endDate - Z.of_nat i)))
    as [[text|]|e']; cbn [bind catch_default]; try discriminate;
    [|reflexivity].
  destruct (text =? EmptyString)%string; [discriminate|].
  destruct (JSON_parse text) as [v|e']; cbn [bind catch_default];
    [discriminate | reflexivity].
Qed.

Lemma weekLoop_days (env : nat -> Fresh) (endDate : Z) (count : nat) :
  forall days,
    (forall i, i < count ->
       exists d, weekDay JSON_parse toDateString getItem (env i) endDate i
                 = Ok d) ->
    weekLoop JSON_parse toDateString getItem env endDate count days
    = Ok (days ++ map (fun i => loadDay JSON_parse toDateString getItem
                                        (env i) (endDate - Z.of_nat i))
                      (rev (seq 0 count)))%list.
Proof.
  induction count as [|i IH]; intros days H.
  - cbn. rewrite app_nil_r. reflexivity.
  - cbn [weekLoop]. destruct (H i ltac:(lia)) as [d Hd]. rewrite Hd.
    cbn [bind]. rewrite IH by (intros j Hj; apply H; lia).
    rewrite seq_S, rev_app_distr. cbn [rev app map Nat.add].
    rewrite <- app_assoc. cbn [app].
    rewrite (weekDay_is_loadDay _ _ _ _ Hd). reflexivity.
Qed.

Lemma weekLoop_throws (env : nat -> Fresh) (endDate : Z) (count : nat) :
  forall days i e,
    i < count ->
    weekDay JSON_parse toDateString getItem (env i) endDate i = Throw e ->
    exists e',
      weekLoop JSON_parse toDateString getItem env endDate count days
      = Throw e'.
Proof.
  induction count as [|k IH]; intros days i e Hi He; [lia|].
  cbn [weekLoop].
  destruct (weekDay JSON_parse toDateString getItem (env k) endDate k)
    as [d|e'] eqn:Hk; cbn [bind]; [|eexists; reflexivity].
  destruct (Nat.eq_dec i k) as [->|Hne]; [congruence|].
  apply (IH _ i e); [lia | exact He].
Qed.

(** X18. When every read and every decode of the seven days goes through,
    [load] of [useWeekData] gives seven entries, the oldest first, each the
    entry [load] of [useDailyNutrition] gives for its day. When one read or
    one decode throws, the week stays as it was, although the daily [load]
    of that day gives the empty entry. *)
Theorem week_is_seven_daily_loads
    (env : nat -> Fresh) (endDate : Z) (weekData : list DailyNutrition) :
  ((forall i, i < 7 ->
      exists d, weekDay JSON_parse toDateString getItem (env i) endDate i
                = Ok d) ->
   loadWeek JSON_parse toDateString getItem env endDate weekData
   = map (fun i => loadDay JSON_parse toDateString getItem (env i)
                           (endDate - Z.of_nat i))
         [6; 5; 4; 3; 2; 1; 0])
  /\ (forall i e,
        i < 7 ->
        weekDay JSON_parse toDateString getItem (env i) endDate i = Throw e ->
        loadWeek JSON_parse toDateString getItem env endDate weekData
        = weekData
        /\ loadDay JSON_parse toDateString getItem (env i)
                   (endDate - Z.of_nat i)
           = initialDailyNutrition).
Proof.
  unfold loadWeek. split.
  - intros H. rewrite (weekLoop_days env endDate 7 [] H). reflexivity.
  - intros i e Hi He.
    destruct (weekLoop_throws env endDate 7 [] i e Hi He) as [e' ->].
    split; [reflexivity | apply (weekDay_throws _ _ _ _ He)].
Qed.

End Decoder.

(** ** Goals *)

Lemma obj_get_set (fields : list (string * JsValue)) (k k' : string)
    (v : JsValue) :
  obj_get (Json.obj_set fields k v) k'
  = if (k =? k')%string then v else obj_get fields k'.
Proof.
  induction fields as [|[k0 v0] fields IH]; cbn [Json.obj_set obj_get].
  - destruct (k =? k')%string; reflexivity.
  - destruct (k0 =? k)%string eqn:E; cbn [obj_get].
    + apply String.eqb_eq in E. subst k0.
      destruct (k =? k')%string; reflexivity.
    + rewrite IH. destruct (k0 =? k')%string eqn:E'; [|reflexivity].
      apply String.eqb_eq in E'. subst k0.
      rewrite String.eqb_sym, E. reflexivity.
Qed.

Lemma spread_lookup (props : list (string * JsValue)) :
  forall (base : list (string * JsValue)) (k : string),
    NoDup (map fst props) ->
    obj_get (fold_left (fun acc kv => Json.obj_set acc (fst kv) (snd kv))
                       props base) k
    = if existsb (fun kv => (fst kv =? k)%string) props
      then obj_get props k else obj_get base k.
Proof.
  induction props as [|[k0 v0] props IH]; intros base k Hnd;
    [reflexivity|].
  inversion Hnd as [|? ? Hnotin Hnd']; subst.
  cbn [fold_left existsb obj_get fst snd]. rewrite (IH _ _ Hnd').
  rewrite obj_get_set.
  destruct (k0 =? k)%string eqn:E; cbn [orb]; [|reflexivity].
  apply String.eqb_eq in E. subst k0.
  destruct (existsb (fun kv => (fst kv =? k)%string) props) eqn:X;
    [|reflexivity].
  exfalso. apply Hnotin. apply existsb_exists in X as ([k1 v1] & Hin & Hk).
  cbn [fst] in Hk. apply String.eqb_eq in Hk. subst k1.
  apply in_map_iff. exists (k, v1). split; [reflexivity | exact Hin].
Qed.

(** X19. When the stored goals decode to an object, the goals [load] of
    [useGoals] sets have, under each key, the stored value where the
    object has the key, whatever that value is, and the default where it
    has not. When the read or the decode throws, or nothing is stored, the
    goals stay as they were. *)
Theorem stored_goals_override_defaults
    (JSON_parse : string -> Exn JsValue)
    (stored : Exn (option string)) (goals : list (string * JsValue)) :
  (forall text fields key,
     stored = Ok (Some text) -> text <> EmptyString ->
     JSON_parse text = Ok (VObj fields) ->
     NoDup (map fst fields) ->
     obj_get (loadGoals JSON_parse stored goals) key
     = if existsb (fun kv => (fst kv =? key)%string) fields
       then obj_get fields key
       else obj_get defaultGoals key)
  /\ ((exists e, stored = Throw e)
      \/ stored = Ok None
      \/ (exists text e, stored = Ok (Some text)
                         /\ JSON_parse text = Throw e) ->
      loadGoals JSON_parse stored goals = goals).
Proof.
  unfold loadGoals. split.
  - intros text fields key -> Hne Hp Hnd. cbn [bind].
    rewrite (proj2 (String.eqb_neq _ _) Hne), Hp. cbn [bind catch_default].
    unfold spread_over. cbn [own_properties].
    apply spread_lookup, Hnd.
  - intros [[e ->] | [-> | (text & e & -> & Hp)]]; try reflexivity.
    cbn [bind]. destruct (text =? EmptyString)%string; [reflexivity|].
    rewrite Hp. reflexivity.
Qed.

Lemma load_falls_back_to_empty_witness :
  load Json.parse sample_env (Ok (Some "[1, 2]")) = initialDailyNutrition.
Proof.
  apply (load_falls_back_to_empty Json.parse sample_env).
  right. right. right. exists "[1, 2]". split; [reflexivity|].
  right. exists (VArr [VNum (Fin 1); VNum (Fin 2)]).
  split; [vm_compute; reflexivity|]. intros fields. discriminate.
Defined.

Lemma week_is_seven_daily_loads_witness :
  loadWeek Json.parse day_text week_store (fun _ => sample_env) 12 []
  = map (fun i => loadDay Json.parse day_text week_store sample_env
                          (12 - Z.of_nat i))
        [6; 5; 4; 3; 2; 1; 0].
Proof.
  apply (proj1 (week_is_seven_daily_loads Json.parse day_text week_store
                  (fun _ => sample_env) 12 [])).
  intros i Hi.
  exists (loadDay Json.parse day_text week_store sample_env
                  (12 - Z.of_nat i)).
  do 7 (destruct i as [|i]; [vm_compute; reflexivity|]). lia.
Defined.

Lemma stored_goals_override_defaults_witness :
  obj_get (loadGoals Json.parse (Ok (Some goals_text)) defaultGoals)
          "protein"
  = VNum (Fin 150).
Proof.
  apply (proj1 (stored_goals_override_defaults Json.parse
                  (Ok (Some goals_text)) defaultGoals)
           goals_text
           [("calories", VNum (Fin 1800)); ("waterGoal", VNum (Fin 3000))]
           "protein" eq_refl).
  - concrete_text.
  - vm_compute. reflexivity.
  - repeat constructor; cbn; intuition discriminate.
Defined.

End HookProofs.

(* ===================================================================== *)
(** * The screen *)
(* ===================================================================== *)

Module AppProofs.
Import JS Json Nutrition Gemini Storage App Props Terms TextProofs.
Import StorageProofs.
Local Open Scope string_scope.

(** X20. The meal type suggested for an hour is the one whose time range in
    [mealTypeConfig] holds the hour, and [snack] for the hours no range
    holds; the type [handleAddManualMeal] works out is the same. *)
Theorem meal_type_follows_time_ranges (hour : nat) (t : MealType) :
  (suggestMealType hour = t <->
   match timeRange t with
   | Some (first, last) => first <= hour < last
   | None =>
       forall t' first last,
         timeRange t' = Some (first, last) -> ~ (first <= hour < last)
   end)
  /\ manualMealType hour = suggestMealType hour.
Proof.
  split; [|reflexivity].
  unfold suggestMealType.
  destruct (Nat.leb 5 hour) eqn:A1; destruct (Nat.ltb hour 11) eqn:A2;
    destruct (Nat.leb 11 hour) eqn:B1; destruct (Nat.ltb hour 15) eqn:B2;
    destruct (Nat.leb 17 hour) eqn:C1; destruct (Nat.ltb hour 22) eqn:C2;
    cbn [andb];
    repeat match goal with
           | H : Nat.leb _ _ = true |- _ => apply Nat.leb_le in H
           | H : Nat.leb _ _ = false |- _ => apply Nat.leb_gt in H
           | H : Nat.ltb _ _ = true |- _ => apply Nat.ltb_lt in H
           | H : Nat.ltb _ _ = false |- _ => apply Nat.ltb_ge in H
           end;
    try lia;
    destruct t; cbn [timeRange];
    (split;
     [ intros E; try discriminate E; try lia;
       intros t' first last Ht'; destruct t'; cbn [timeRange] in Ht';
       try discriminate Ht'; injection Ht' as <- <-; lia
     | intros E; try reflexivity; try lia;
       exfalso;
       first [ apply (E breakfast 5 11 eq_refl); lia
             | apply (E lunch 11 15 eq_refl); lia
             | apply (E dinner 17 22 eq_refl); lia ] ]).
Qed.

(** ** The key *)

Lemma format_of_trimmed (key : string) :
  isValidApiKeyFormat (trim key) = isValidApiKeyFormat key.
Proof. unfold isValidApiKeyFormat. rewrite trim_idem. reflexivity. Qed.

Lemma valid_format_nonblank (key : string) :
  isValidApiKeyFormat key = true -> trim key <> EmptyString.
Proof.
  unfold isValidApiKeyFormat. intros H. apply andb_prop in H as [_ H].
  apply Nat.ltb_lt in H. intros E. rewrite E in H. cbn in H. lia.
Qed.

Lemma analyzeFood_with_valid_key
    (JSON_parse : string -> Exn JsValue) (ToString : JsValue -> string)
    (key : string) (net : Network) :
  key <> EmptyString -> isValidApiKeyFormat key = true ->
  analyzeFood JSON_parse ToString (Ok (Some key)) net
  = requestGeminiAnalysis JSON_parse ToString net 2.
Proof.
  intros Hne Hv. unfold analyzeFood. cbn [getApiKey catch_default].
  rewrite (proj2 (String.eqb_neq _ _) Hne), Hv. reflexivity.
Qed.

(** X21. When [handleComplete] of the onboarding screen completes, the store
    holds the entered key trimmed, that key has the expected format, and
    the validating request was answered with a success; [analyzeFood]
    then goes on to the network with it. When it refuses, it shows a truthy
    error and leaves the store as it was. *)
Theorem onboarding_stores_a_usable_key
    (apiKey : string) (fetched : Exn Response)
    (save_throws flag_throws : bool) (store : SecureStore) :
  (snd (handleComplete apiKey fetched save_throws flag_throws store)
   = Completed ->
   fst (handleComplete apiKey fetched save_throws flag_throws store)
   = Some (trim apiKey)
   /\ isValidApiKeyFormat (trim apiKey) = true
   /\ (exists response, fetched = Ok response /\ ok response = true)
   /\ forall JSON_parse ToString net,
        analyzeFood JSON_parse ToString
          (getItemAsync false
             (fst (handleComplete apiKey fetched save_throws flag_throws
                                  store))) net
        = requestGeminiAnalysis JSON_parse ToString net 2)
  /\ (forall shown,
        snd (handleComplete apiKey fetched save_throws flag_throws store)
        = Refused shown ->
        truthy shown = true
        /\ fst (handleComplete apiKey fetched save_throws flag_throws store)
           = store).
Proof.
  unfold handleComplete.
  destruct (trim apiKey =? EmptyString)%string eqn:E1; cbn [fst snd].
  { split; [discriminate|]. intros shown H. injection H as <-.
    split; reflexivity. }
  destruct (isValidApiKeyFormat apiKey) eqn:E2; cbn [negb fst snd].
  2:{ split; [discriminate|]. intros shown H. injection H as <-.
      split; reflexivity. }
  destruct (WeeklyProofs.validation_cases fetched)
    as [(-> & Hv) | (e & -> & He & _)]; cbn [valid error negb fst snd].
  2:{ split; [discriminate|]. intros shown H. injection H as <-.
      split; [|reflexivity]. unfold or_else. rewrite He. exact He. }
  unfold saveApiKey. destruct save_throws; cbn [negb fst snd].
  { split; [discriminate|]. intros shown H. injection H as <-.
    split; reflexivity. }
  destruct flag_throws; cbn [fst snd].
  { split; [discriminate|]. intros shown H. discriminate H. }
  split; [|intros shown H; discriminate H].
  intros _. split; [reflexivity|].
  split; [rewrite format_of_trimmed; exact E2|].
  split; [exact Hv|].
  intros JSON_parse ToString net. cbn [getItemAsync].
  apply analyzeFood_with_valid_key.
  - apply String.eqb_neq, E1.
  - rewrite format_of_trimmed. exact E2.
Qed.

(** X22. The settings screen stores any entry that is not blank, trimmed,
    without looking at its format, and reports that there is a key. When
    the entry has not the expected format, [analyzeFood] then refuses the
    stored key without a call. *)
Theorem settings_store_unchecked_keys
    (apiKey : string) (store : SecureStore)
    (JSON_parse : string -> Exn JsValue) (ToString : JsValue -> string)
    (net : Network) :
  trim apiKey <> EmptyString ->
  handleSaveKey apiKey false false store = (Some (trim apiKey), Some true)
  /\ (isValidApiKeyFormat apiKey = false ->
      analyzeFood JSON_parse ToString
        (getItemAsync false (fst (handleSaveKey apiKey false false store)))
        net
      = (Error "Invalid API key format.", [])).
Proof.
  intros H. unfold handleSaveKey, saveApiKey, getItemAsync.
  rewrite (proj2 (String.eqb_neq _ _) H).
  cbn [fst getApiKey catch_default]. rewrite trim_idem.
  rewrite (proj2 (String.eqb_neq _ _) H). cbn [negb fst].
  split; [reflexivity|].
  intros Hbad. unfold analyzeFood. cbn [getApiKey catch_default].
  rewrite (proj2 (String.eqb_neq _ _) H), format_of_trimmed, Hbad.
  reflexivity.
Qed.

(** ** A photo *)

Lemma whole_storable (n : number) : whole n -> storable n.
Proof.
  intros [Hn Hi]. destruct n as [q| | |]; try contradiction.
  exists q. split; [reflexivity | exact Hn].
Qed.

Lemma well_formed_storable (d : NutritionData) :
  well_formed d -> storable_food d.
Proof.
  intros (Hne & Htrim & Hc & Hp & Hb & Hf & Hfi & _).
  unfold storable_food. rewrite Htrim.
  split; [exact Hne|]. split; [reflexivity|].
  repeat (split; [apply whole_storable; assumption|]).
  intros f E. apply whole_storable, Hfi, E.
Qed.

(** X23. Whatever the network answers, when [analyzeFoodImage] reaches
    [addMeal] on an entry as the loader or a mutation leaves it, with an
    id and an instant that are not blank, the entry it computes has one
    meal more, has storable meals and totals that are the sums over them,
    and is read back from storage as it was written, whether or not a sum
    is finite; the alert names a well-formed record. When it does not
    reach [addMeal], it shows an analysis error or one of the six not-food
    messages. *)
Theorem analysed_photo_extends_the_ledger
    (JSON_parse : string -> Exn JsValue) (ToString : JsValue -> string)
    (store : Exn (option string)) (net : Network)
    (hour : nat) (id now : string) (data : DailyNutrition) :
  kept_entry data ->
  trim id <> EmptyString -> trim now <> EmptyString ->
  (forall e alert,
     analyzeFoodImage JSON_parse ToString store net hour id now data
     = (Some e, alert) ->
     kept_entry e
     /\ totals e = calculateMealTotals (meals e)
     /\ List.length (meals e) = S (List.length (meals data))
     /\ (forall env, normalizeDailyNutrition env (written e) = e)
     /\ exists d, alert = Added (name d) /\ well_formed d)
  /\ (forall alert,
        analyzeFoodImage JSON_parse ToString store net hour id now data
        = (None, alert) ->
        (exists message, alert = AnalysisError message)
        \/ (exists message,
              alert = NotFoodAlert message /\ In message notFoodMessages)).
Proof.
  intros Hd Hid Hnow. unfold analyzeFoodImage.
  assert (Hwf : forall d,
            fst (analyzeFood JSON_parse ToString store net) = Food d ->
            well_formed d).
  { intros d. unfold analyzeFood.
    destruct (getApiKey store) as [key|]; [|discriminate].
    destruct (key =? EmptyString)%string; [discriminate|].
    destruct (negb (isValidApiKeyFormat key)); [discriminate|].
    apply OutcomeProofs.request_food_well_formed. }
  destruct (fst (analyzeFood JSON_parse ToString store net))
    as [d|reason|message].
  - split; [|intros alert H; discriminate H].
    intros e alert H. injection H as <- <-.
    specialize (Hwf d eq_refl).
    assert (Hs : kept_entry
                   (mutate data (AddMeal (acceptedMeal d hour) id now))).
    { apply LoadProofs.mutate_kept; [exact Hd|].
      cbn [storable_mutation acceptedMeal new_food].
      split; [apply well_formed_storable, Hwf|]. split; assumption. }
    cbn [mutate] in Hs.
    split; [exact Hs|]. split; [reflexivity|]. split.
    { cbn [addMeal fst meals]. rewrite length_app. cbn [List.length]. lia. }
    split.
    { intros env. apply kept_reads_back, Hs. }
    exists d. split; [reflexivity | exact Hwf].
  - split; [intros e alert H; discriminate H|].
    intros alert H. injection H as <-. right.
    eexists. split; [reflexivity|].
    apply WeeklyProofs.notFood_message_listed.
  - split; [intros e alert H; discriminate H|].
    intros alert H. injection H as <-. left. eexists. reflexivity.
Qed.

(** ** Progress *)

Lemma Qeq_bool_false (q : Q) : ~ (q == 0)%Q -> Qeq_bool q 0 = false.
Proof.
  intros H. destruct (Qeq_bool q 0) eqn:E; [|reflexivity].
  exfalso. apply H, Qeq_bool_eq, E.
Qed.

(** X24. For a current value that is at least 0, [getProgress] on a
    positive goal is a number from 0 to 100, and 100 once the goal is
    reached; this holds of binary64 arithmetic as well, whose rounding
    keeps the order. On a goal that is zero and a positive current value
    it is 100 when the goal is the positive zero and -Infinity when it is
    the negative zero; when the current value is zero as well it is
    NaN. *)
Theorem progress_is_capped (minus_zero : bool) (current goal : Q) :
  (0 <= current)%Q ->
  ((0 < goal)%Q ->
   exists p,
     getProgress minus_zero (Fin current) (Fin goal) = Fin p
     /\ (0 <= p)%Q /\ (p <= 100)%Q
     /\ ((goal <= current)%Q -> (p == 100)%Q))
  /\ ((goal == 0)%Q -> (0 < current)%Q ->
      getProgress minus_zero (Fin current) (Fin goal)
      = if minus_zero then NegInf else Fin 100)
  /\ ((goal == 0)%Q -> (current == 0)%Q ->
      getProgress minus_zero (Fin current) (Fin goal) = NaN).
Proof.
  intros Hc. unfold getProgress. split; [|split].
  - intros Hg. cbn [divide].
    rewrite (Qeq_bool_false goal) by (intros E; rewrite E in Hg;
                                      apply (Qlt_irrefl 0), Hg).
    cbn [times Math_min].
    assert (Hdiv : (0 <= current / goal)%Q).
    { apply Qle_shift_div_l; [exact Hg|]. rewrite Qmult_0_l. exact Hc. }
    assert (Hx : (0 <= Qred (Qred (current / goal) * 100))%Q).
    { rewrite !Qred_correct. apply Qmult_le_0_compat; [exact Hdiv|].
      discriminate. }
    assert (Hfull : (goal <= current)%Q ->
                    (100 <= Qred (Qred (current / goal) * 100))%Q).
    { intros Hr. rewrite !Qred_correct.
      setoid_replace 100%Q with (1 * 100)%Q at 1 by ring.
      apply Qmult_le_compat_r; [|discriminate].
      apply Qle_shift_div_l; [exact Hg|]. rewrite Qmult_1_l. exact Hr. }
    destruct (Qle_bool (Qred (Qred (current / goal) * 100)) 100) eqn:E.
    + apply Qle_bool_iff in E. eexists. split; [reflexivity|].
      split; [exact Hx|]. split; [exact E|].
      intros Hr. apply Qle_antisym; [exact E | apply Hfull, Hr].
    + exists 100%Q. split; [reflexivity|].
      split; [discriminate|]. split; [apply Qle_refl|].
      intros _. reflexivity.
  - intros Hg Hpos. cbn [divide].
    rewrite (proj2 (Qeq_bool_iff goal 0) Hg).
    rewrite (Qeq_bool_false current) by (intros E; rewrite E in Hpos;
                                         apply (Qlt_irrefl 0), Hpos).
    rewrite (proj2 (Qle_bool_iff 0 current) Hc).
    destruct minus_zero; reflexivity.
  - intros Hg Hzero. cbn [divide].
    rewrite (proj2 (Qeq_bool_iff goal 0) Hg),
            (proj2 (Qeq_bool_iff current 0) Hzero).
    reflexivity.
Qed.

(** ** Concrete runs *)

Lemma onboarding_stores_a_usable_key_witness :
  fst (handleComplete good_key (Ok accepted) false false None)
  = Some (trim good_key).
Proof.
  refine (proj1 (proj1 (onboarding_stores_a_usable_key good_key
                          (Ok accepted) false false None) _)).
  vm_compute. reflexivity.
Defined.

Lemma settings_store_unchecked_keys_witness :
  analyzeFood Json.parse rendered
    (getItemAsync false (fst (handleSaveKey bad_key false false None)))
    unreachable
  = (Error "Invalid API key format.", []).
Proof.
  refine (proj2 (settings_store_unchecked_keys bad_key None Json.parse
                   rendered unreachable _) _).
  - vm_compute. discriminate.
  - vm_compute. reflexivity.
Defined.

Lemma analysed_photo_extends_the_ledger_witness :
  kept_entry
    (fst (addMeal two_meals
            (acceptedMeal
               {| nutrients := mkTotals (Fin 95) (Fin 0) (Fin 25) (Fin 0);
                  name := "Apple";
                  serving_size := None;
                  fiber := None;
                  confidence := Some high;
                  notes := None |} 12)
            "m3" "2024-05-01T12:40:00.000Z")).
Proof.
  refine (proj1 (proj1 (analysed_photo_extends_the_ledger Json.parse rendered
                          (Ok (Some good_key)) first_model_down 12 "m3"
                          "2024-05-01T12:40:00.000Z" two_meals
                          LoadProofs.two_meals_kept _ _)
                   _ (Added "Apple") _)).
  - vm_compute. discriminate.
  - vm_compute. discriminate.
  - vm_compute. reflexivity.
Defined.

Lemma progress_is_capped_witness :
  getProgress true (Fin 50) (Fin 0) = NegInf.
Proof.
  refine (proj1 (proj2 (progress_is_capped true 50 0 _)) _ _).
  - discriminate.
  - reflexivity.
  - reflexivity.
Defined.

End AppProofs.
